(** * EPS Agent: chat orchestrator, model client and content preparer

    A shallow embedding of the decision logic of the EPS Agent front end
    (TypeScript, React) and the properties its specification states
    about it.

    Source files embedded here, one module each:
    - [EpsUtils]         lib/epsUtils: [truncateContent],
                         [buildEpsValidationPrompt] (both revisions);
    - [ChatApi]          src/api/chat.ts: [sendChatMessage];
    - [MockRoute]        the mock API route: [POST];
    - [ChatTypes]        types/chat: the data model;
    - [EpsConfirmation]  components/chat/EpsConfirmation.tsx: [handleSubmit];
    - [ChatPage]         pages/ChatPage.tsx: the state and the handlers;
    - [ChatInterface]    components/chat/ChatInterface.tsx: [handleSubmit];
    - [Runtime], [App]   the event loop that runs the handlers;
    - [CompletionPanel]  components/tasks/ShowCompletionAndJustification.tsx:
                         the verdict and the explanation read from the
                         justification;
    - [TaskPanel]        components/tasks/ShowListOfTasks.tsx: the snippet
                         of the test case;
    - [ConfirmationForm] components/chat/EpsConfirmation.tsx: the form
                         while it is filled in, with [readFileAsText];
    - [EarlierEpsConfirmation], [EarlierChatApi]
                         the earlier confirmation form and the earlier
                         client of the route /api/chat.

    Conventions.
    - A JavaScript string is a [string]; one character stands for one
      UTF-16 code unit, so [String.length] is the [length] property.
      Code units above 255 are not represented; for everything modelled
      here they would behave as the units 128 to 255 do (no letter of a
      pattern, no word character), apart from a few white-space units.
    - A JavaScript [number] that the code uses as a length, a limit or a
      status is an integer in [Z]; fractional, infinite and NaN limits are
      outside the model.  Every integer up to 2^53 in magnitude is a
      number; a larger integer stands for the double nearest to it, and
      [numberToString] prints it as JavaScript prints that double (the
      shortest digits that read back, exponent form from 1e21).
    - [console.log] and friends are left out, except where evaluating their
      arguments can throw.
    - An [async] function is a tree of the operations it performs (type
      [Async]): [AwaitFetch] is the only suspension point, the environment
      answers it and the continuation goes on from there.  React state
      setters are [SetState] operations; they apply to the latest state.
    - The clock and the random generator are read from an oracle. *)

From Stdlib Require Import ZArith Bool List Ascii String DecimalString Lia.
Import ListNotations.

Local Open Scope string_scope.
Local Open Scope Z_scope.

(* ================================================================== *)
(** ** JavaScript strings *)
(* ================================================================== *)

Module JsString.

(** The line feed written [\n] in the source's template literals. *)
Definition LF : string := String "010"%char EmptyString.

(** The double quote character. *)
Definition DQ : string := String "034"%char EmptyString.

(** [s.length]. *)
Definition jsLength (s : string) : Z := Z.of_nat (String.length s).

(** Relative index resolution of [String.prototype.slice]: a negative
    index counts from the end, and the result is clamped to [0..len]. *)
Definition relativeIndex (len i : Z) : Z :=
  if i <? 0 then Z.max (len + i) 0 else Z.min i len.

(** [s.slice(start, end)]. *)
Definition slice (s : string) (start end_ : Z) : string :=
  let len := jsLength s in
  let from := relativeIndex len start in
  let to := relativeIndex len end_ in
  substring (Z.to_nat from) (Z.to_nat (Z.max (to - from) 0)) s.

(** Decimal digits of an integer, with a leading minus sign when
    negative. *)
Definition decimal (n : Z) : string :=
  NilZero.string_of_int (Z.to_int n).

(** The double nearest to a positive integer [v], ties to the even
    significand: an integer below 2^53 is a double itself, a larger one
    is rounded to 53 significant bits. *)
Definition nearestDouble (v : Z) : Z :=
  let e := Z.log2 v in
  if e <? 53 then v
  else
    let q := 2 ^ (e - 52) in
    let m := v / q in
    let r := v mod q in
    if 2 * r <? q then m * q
    else if q <? 2 * r then (m + 1) * q
    else if Z.even m then m * q else (m + 1) * q.

(** The number of decimal digits of a positive integer. *)
Definition digitCount (v : Z) : Z := Z.of_nat (String.length (decimal v)).

(** The integer with [k] significant digits that reads back as the
    double [x] and is closest to it, if there is one; of two equally
    close ones, the one whose last significant digit is even. *)
Definition readsBackWith (x k : Z) : option Z :=
  let p := 10 ^ (digitCount x - k) in
  let below := (x / p) * p in
  let above := below + p in
  let belowOk := nearestDouble below =? x in
  let aboveOk := nearestDouble above =? x in
  if belowOk && aboveOk then
    if x - below <? above - x then Some below
    else if above - x <? x - below then Some above
    else if Z.even (x / p) then Some below else Some above
  else if belowOk then Some below
  else if aboveOk then Some above
  else None.

(** The integer with the fewest significant digits that reads back as
    the double [x]; [k] is the number of digits tried next, [tries] the
    number of tries left (17 digits always suffice). *)
Fixpoint shortestFrom (tries : nat) (x k : Z) : Z :=
  match tries with
  | O => x
  | S tries' =>
      if digitCount x <? k then x
      else match readsBackWith x k with
           | Some v => v
           | None => shortestFrom tries' x (k + 1)
           end
  end.

Fixpoint dropTrailingZeros (s : string) : string :=
  match s with
  | EmptyString => EmptyString
  | String c rest =>
      match dropTrailingZeros rest with
      | EmptyString => if Ascii.eqb c "0" then EmptyString else String c EmptyString
      | kept => String c kept
      end
  end.

(** Exponent form of a positive integer given by its digits:
    [d.ddde+n]. *)
Definition exponential (digits : string) : string :=
  match digits with
  | EmptyString => EmptyString
  | String first rest =>
      String first
        (match dropTrailingZeros rest with
         | EmptyString => EmptyString
         | fraction => "." ++ fraction
         end)
      ++ "e+" ++ decimal (Z.of_nat (String.length rest))
  end.

(** [Number::toString] of a positive integer [v]: the digits of the
    shortest integer that reads back as the same double, in full up to
    21 digits and in exponent form beyond. *)
Definition positiveToString (v : Z) : string :=
  let x := nearestDouble v in
  if 2 ^ 1024 <=? x then "Infinity"
  else
    let digits := decimal (shortestFrom 17 x 1) in
    if 21 <? Z.of_nat (String.length digits) then exponential digits else digits.

(** [`${n}`] for an integer [n].  Up to 2^53 in magnitude these are the
    decimal digits of [n], with a leading minus sign when negative.  A
    larger [n] stands for the double nearest to it and is printed as
    JavaScript prints that double. *)
Definition numberToString (n : Z) : string :=
  if Z.abs n <? 9007199254740992 then decimal n
  else if n <? 0 then "-" ++ positiveToString (- n)
  else positiveToString n.

(** [hay.includes(needle)] as a proposition: [needle] occurs in [hay] as
    a contiguous block. *)
Definition includes (hay needle : string) : Prop :=
  exists before after, hay = before ++ needle ++ after.

(** [hay.startsWith(needle)] and [hay.endsWith(needle)]. *)
Definition startsWith (hay needle : string) : Prop :=
  exists after, hay = needle ++ after.

Definition endsWith (hay needle : string) : Prop :=
  exists before, hay = before ++ needle.

(** Decidable versions, used to evaluate concrete cases. *)
Fixpoint includesb (hay needle : string) : bool :=
  prefix needle hay ||
  match hay with
  | EmptyString => false
  | String _ rest => includesb rest needle
  end.

(** [WhiteSpace] and [LineTerminator] code units (those below 256). *)
Definition isWhiteSpace (c : ascii) : bool :=
  let n := nat_of_ascii c in
  ((9 <=? n)%nat && (n <=? 13)%nat) || (n =? 32)%nat || (n =? 160)%nat.

Fixpoint trimStart (s : string) : string :=
  match s with
  | EmptyString => EmptyString
  | String c rest => if isWhiteSpace c then trimStart rest else s
  end.

Fixpoint reverse (s : string) : string :=
  match s with
  | EmptyString => EmptyString
  | String c rest => reverse rest ++ String c EmptyString
  end.

(** [s.trim()]. *)
Definition trim (s : string) : string :=
  reverse (trimStart (reverse (trimStart s))).

(** A string of [n] copies of one character. *)
Fixpoint replicate (n : nat) (c : ascii) : string :=
  match n with
  | O => EmptyString
  | S k => String c (replicate k c)
  end.

End JsString.

Import JsString.

(* ================================================================== *)
(** ** lib/epsUtils: the content preparer *)
(* ================================================================== *)

Module EpsUtils.

(** The tail of the template literal in [truncateContent]:
    [...\n[Content truncated: Original length ${content.length} exceeds
    limit of ${maxLength} characters. Please use a smaller input or a
    larger model.]]. *)
Definition truncationSuffix (originalLength maxLength : Z) : string :=
  "..." ++ LF ++ "[Content truncated: Original length "
    ++ numberToString originalLength
    ++ " exceeds limit of "
    ++ numberToString maxLength
    ++ " characters. Please use a smaller input or a larger model.]".

(** [truncateContent(content, maxLength = 50000)].  The optional
    parameter is [None] when the caller leaves it out. *)
Definition truncateContent (content : string) (maxLength : option Z) : string :=
  let maxLength := match maxLength with Some m => m | None => 50000 end in
  if jsLength content <=? maxLength then content
  else slice content 0 (maxLength - 100)
         ++ truncationSuffix (jsLength content) maxLength.

(** The fixed last sentence of the prompt. *)
Definition userInstruction : string :=
  "User: Validate the test case against the EPS log now.".

(** [buildEpsValidationPrompt(epsLogContent, testCaseContent)]. *)
Definition buildEpsValidationPrompt (epsLogContent testCaseContent : string) : string :=
  "System: You are an EPS log validator. Parse and analyze the raw EPS log content: ["
    ++ epsLogContent
    ++ "]. Validate it against this test case: ["
    ++ testCaseContent
    ++ "]. For each test case step, verify the action in the log and cite specific log entries (e.g., timestamps, request IDs, service responses) as evidence. Output in this format: "
    ++ LF ++ "Overall Result: PASS or FAIL"
    ++ LF ++ "Reasoning and Evidence:"
    ++ LF ++ "- Step 1: [Action and verification details with specific log excerpts]"
    ++ LF ++ "- Step 2: [Details]"
    ++ LF ++ "..."
    ++ LF ++ "If the log or test case is malformed, note the issue but attempt validation. If no relevant log entries are found, indicate this explicitly."
    ++ LF ++ userInstruction.

(** The earlier revision of the same file: a shorter system instruction
    and a default limit of 10000. *)
Module Earlier.

Definition truncateContent (content : string) (maxLength : option Z) : string :=
  let maxLength := match maxLength with Some m => m | None => 10000 end in
  if jsLength content <=? maxLength then content
  else slice content 0 (maxLength - 100)
         ++ truncationSuffix (jsLength content) maxLength.

Definition buildEpsValidationPrompt (epsLogContent testCaseContent : string) : string :=
  "System: You are an EPS log validator. Parse and analyze the following raw EPS log content: ["
    ++ epsLogContent
    ++ "]. Validate it against this test case: ["
    ++ testCaseContent
    ++ "]. Output in this format: Overall Result: PASS or FAIL. Reasoning and Evidence: [step-by-step analysis with log excerpts]. If the log or test case is malformed, note the issue but attempt validation."
    ++ LF ++ userInstruction.

End Earlier.

End EpsUtils.

(* ================================================================== *)
(** ** JavaScript values, as far as the code inspects them *)
(* ================================================================== *)

Module Js.

Local Set Warnings "-register-all".

(** What [response.json()] can produce, plus [undefined].  A number is
    only ever tested for being zero, so it is kept as an integer. *)
Inductive value : Type :=
  | VUndefined
  | VNull
  | VBool (b : bool)
  | VNumber (n : Z)
  | VString (s : string)
  | VArray (items : list value)
  | VObject (fields : list (string * value)).

(** What a [throw] or a rejected promise carries: an [Error] object (of
    which only [message] is read), or any other value. *)
Inductive thrown : Type :=
  | ErrorObject (message : string)
  | NotAnError (v : value).

(** [!!v]. *)
Definition truthy (v : value) : bool :=
  match v with
  | VUndefined | VNull => false
  | VBool b => b
  | VNumber n => negb (n =? 0)
  | VString s => negb (String.eqb s EmptyString)
  | VArray _ | VObject _ => true
  end.

(** [a || b]. *)
Definition or (a b : value) : value := if truthy a then a else b.

(** The fields of an object are listed in the order of the JSON text; a
    key written twice keeps its last value. *)
Fixpoint lookupField (key : string) (fields : list (string * value)) : option value :=
  match fields with
  | [] => None
  | (k, v) :: rest =>
      match lookupField key rest with
      | Some later => Some later
      | None => if String.eqb key k then Some v else None
      end
  end.

(** [v.name] on a value that is neither [null] nor [undefined], for a
    name that no prototype defines ([message], [content], [choices],
    [error]): an own field of an object, [undefined] on anything else. *)
Definition getNamed (v : value) (name : string) : value :=
  match v with
  | VObject fields =>
      match lookupField name fields with Some x => x | None => VUndefined end
  | _ => VUndefined
  end.

(** [v[0]] on a value that is neither [null] nor [undefined]. *)
Definition getFirst (v : value) : value :=
  match v with
  | VArray (x :: _) => x
  | VString (String c _) => VString (String c EmptyString)
  | VObject fields =>
      match lookupField "0" fields with Some x => x | None => VUndefined end
  | _ => VUndefined
  end.

Definition nullish (v : value) : bool :=
  match v with VUndefined | VNull => true | _ => false end.

(** [v?.name] and [v?.[0]]. *)
Definition optNamed (v : value) (name : string) : value :=
  if nullish v then VUndefined else getNamed v name.

Definition optFirst (v : value) : value :=
  if nullish v then VUndefined else getFirst v.

(** [error instanceof Error ? error.message : 'Unknown error']. *)
Definition messageOf (error : thrown) : string :=
  match error with
  | ErrorObject message => message
  | NotAnError _ => "Unknown error"
  end.

End Js.

Import Js.

(* ================================================================== *)
(** ** Asynchronous code *)
(* ================================================================== *)

Module Http.

(** The JSON document posted to the model endpoint:
    [{ model, messages: [{ role, content }], stream }]. *)
Record RequestBody : Type := {
  model : string;
  messages : list (string * value);
  stream : bool
}.

(** The arguments of one call of [fetch]. *)
Record Request : Type := {
  url : string;
  method : string;
  headers : list (string * string);
  body : RequestBody
}.

(** A [Response]: its status, and what reading its body gives.
    [text()] and [json()] reject when the body cannot be read, [json()]
    also when the text is not JSON. *)
Record Response : Type := {
  status : Z;
  text : thrown + string;
  json : thrown + value
}.

(** [response.ok]. *)
Definition ok (r : Response) : bool := (200 <=? status r) && (status r <=? 299).

(** How the promise returned by [fetch] settles. *)
Inductive FetchResult : Type :=
  | Fulfilled (r : Response)
  | Rejected (e : thrown).

End Http.

(** A notification of the [toast] hook. *)
Record Toast : Type := {
  title : string;
  description : string;
  destructive : bool
}.

Section AsyncMonad.

(** The component state the code may update. *)
Variable St : Type.

(** A piece of asynchronous code producing an [A]: it resolves, rejects,
    or performs one operation and continues.  [AwaitFetch] is the only
    suspension point. *)
Inductive Async (A : Type) : Type :=
  | Resolve (a : A)
  | Reject (e : thrown)
  | AwaitFetch (req : Http.Request) (k : Http.FetchResult -> Async A)
  | SetState (f : St -> St) (k : Async A)
  | DateNow (k : Z -> Async A)
  | MathRandom (k : string -> Async A)
  | ShowToast (t : Toast) (k : Async A).

Arguments Resolve {A} a.
Arguments Reject {A} e.
Arguments AwaitFetch {A} req k.
Arguments SetState {A} f k.
Arguments DateNow {A} k.
Arguments MathRandom {A} k.
Arguments ShowToast {A} t k.

(** Sequencing ([await p; f]). *)
Fixpoint bind {A B : Type} (p : Async A) (f : A -> Async B) : Async B :=
  match p with
  | Resolve a => f a
  | Reject e => Reject e
  | AwaitFetch req k => AwaitFetch req (fun r => bind (k r) f)
  | SetState g k => SetState g (bind k f)
  | DateNow k => DateNow (fun t => bind (k t) f)
  | MathRandom k => MathRandom (fun x => bind (k x) f)
  | ShowToast t k => ShowToast t (bind k f)
  end.

(** [try { body } catch (error) { handler error }]. *)
Fixpoint tryCatch {A : Type} (body : Async A) (handler : thrown -> Async A) : Async A :=
  match body with
  | Resolve a => Resolve a
  | Reject e => handler e
  | AwaitFetch req k => AwaitFetch req (fun r => tryCatch (k r) handler)
  | SetState g k => SetState g (tryCatch k handler)
  | DateNow k => DateNow (fun t => tryCatch (k t) handler)
  | MathRandom k => MathRandom (fun x => tryCatch (k x) handler)
  | ShowToast t k => ShowToast t (tryCatch k handler)
  end.

(** [try { body } finally { cleanup }]: [cleanup] runs on both exits and
    the outcome of [body] is kept unless [cleanup] itself throws. *)
Fixpoint tryFinally {A : Type} (body : Async A) (cleanup : Async unit) : Async A :=
  match body with
  | Resolve a => bind cleanup (fun _ => Resolve a)
  | Reject e => bind cleanup (fun _ => Reject e)
  | AwaitFetch req k => AwaitFetch req (fun r => tryFinally (k r) cleanup)
  | SetState g k => SetState g (tryFinally k cleanup)
  | DateNow k => DateNow (fun t => tryFinally (k t) cleanup)
  | MathRandom k => MathRandom (fun x => tryFinally (k x) cleanup)
  | ShowToast t k => ShowToast t (tryFinally k cleanup)
  end.

(** [await fetch(url, init)]. *)
Definition fetch (req : Http.Request) : Async Http.Response :=
  AwaitFetch req (fun r =>
    match r with
    | Http.Fulfilled resp => Resolve resp
    | Http.Rejected e => Reject e
    end).

(** Awaiting a promise that is already settled. *)
Definition settled {A : Type} (r : thrown + A) : Async A :=
  match r with
  | inl e => Reject e
  | inr a => Resolve a
  end.

(** The [fetch] calls a piece of code makes when the network answers
    with [answer] every time, in order. *)
Fixpoint requestsMade {A : Type} (p : Async A) (answer : Http.Request -> Http.FetchResult)
  : list Http.Request :=
  match p with
  | Resolve _ | Reject _ => []
  | AwaitFetch req k => req :: requestsMade (k (answer req)) answer
  | SetState _ k | ShowToast _ k => requestsMade k answer
  | DateNow k => requestsMade (k 0) answer
  | MathRandom k => requestsMade (k EmptyString) answer
  end.

(** How a piece of code settles when the network answers with [answer]:
    the thrown value, or the result.  State updates and toasts do not
    influence the outcome. *)
Fixpoint resultOf {A : Type} (p : Async A) (answer : Http.Request -> Http.FetchResult)
  : thrown + A :=
  match p with
  | Resolve a => inr a
  | Reject e => inl e
  | AwaitFetch req k => resultOf (k (answer req)) answer
  | SetState _ k | ShowToast _ k => resultOf k answer
  | DateNow k => resultOf (k 0) answer
  | MathRandom k => resultOf (k EmptyString) answer
  end.

End AsyncMonad.

Arguments Resolve {St A} a.
Arguments Reject {St A} e.
Arguments AwaitFetch {St A} req k.
Arguments SetState {St A} f k.
Arguments DateNow {St A} k.
Arguments MathRandom {St A} k.
Arguments ShowToast {St A} t k.
Arguments bind {St A B} p f.
Arguments tryCatch {St A} body handler.
Arguments tryFinally {St A} body cleanup.
Arguments fetch {St} req.
Arguments settled {St A} r.
Arguments requestsMade {St A} p answer.
Arguments resultOf {St A} p answer.

Declare Scope async_scope.
Delimit Scope async_scope with async.
Notation "x <- p ;; q" := (bind p (fun x => q))
  (at level 61, p at next level, right associativity) : async_scope.
Notation "p ;; q" := (bind p (fun _ => q))
  (at level 61, right associativity) : async_scope.
Local Open Scope async_scope.

(* ================================================================== *)
(** ** src/api/chat.ts: the model client *)
(* ================================================================== *)

Module ChatApi.

(** [interface ChatRequest]: the two contents are optional. *)
Record ChatRequest : Type := {
  message : string;
  epsLogContent : option string;
  testCaseContent : option string
}.

(** [interface ChatResponse]. *)
Record ChatResponse : Type := {
  reply : string;
  error : option string
}.

(** Truthiness of an optional string: [undefined] and the empty string
    are falsy. *)
Definition present (s : option string) : bool :=
  match s with
  | Some x => negb (String.eqb x EmptyString)
  | None => false
  end.

Definition contentOf (s : option string) : string :=
  match s with Some x => x | None => EmptyString end.

(** The prompt computed at the top of the [try] block. *)
Definition promptOf (request : ChatRequest) : string :=
  if present (epsLogContent request) && present (testCaseContent request) then
    let truncatedLog := EpsUtils.truncateContent (contentOf (epsLogContent request)) None in
    let truncatedTestCase := EpsUtils.truncateContent (contentOf (testCaseContent request)) None in
    EpsUtils.buildEpsValidationPrompt truncatedLog truncatedTestCase
  else message request.

(** The arguments of the one [fetch] call. *)
Definition chatRequest (content : value) : Http.Request :=
  {| Http.url := "http://localhost:11434/api/chat";
     Http.method := "POST";
     Http.headers := [("Content-Type", "application/json")];
     Http.body := {| Http.model := "gemma3:1b";
                     Http.messages := [("user", content)];
                     Http.stream := false |} |}.

(** [data?.message?.content || data?.content || "No reply from model"]. *)
Definition extractReply (data : value) : value :=
  Js.or (optNamed (optNamed data "message") "content")
    (Js.or (optNamed data "content") (VString "No reply from model")).

(** The argument of the [console.log] after the extraction reads
    [reply.length], calls [reply.substring(0, 100)] and reads
    [data.error]: the call throws a [TypeError] unless [reply] is a
    string, the read throws one when [data] is [null].  (The messages are
    the engine's; V8's wording is used.) *)
Definition logResponseReceived {St : Type} (reply data : value) : Async St string :=
  match reply with
  | VString text =>
      if nullish data
      then Reject (ErrorObject "Cannot read properties of null (reading 'error')")
      else Resolve text
  | _ => Reject (ErrorObject "reply.substring is not a function")
  end.

Definition connectionApology : string :=
  "Sorry, I cannot connect to the local AI service. Please ensure Ollama is running on localhost:11434 and the model is loaded.".

(** [sendChatMessage({ message, epsLogContent, testCaseContent })]. *)
Definition sendChatMessage {St : Type} (request : ChatRequest) : Async St ChatResponse :=
  tryCatch
    (let prompt := promptOf request in
     response <- fetch (chatRequest (VString prompt)) ;;
     (if negb (Http.ok response) then
        errorText <- settled (Http.text response) ;;
        Reject (ErrorObject ("HTTP error! status: " ++ numberToString (Http.status response)))
      else Resolve tt) ;;
     data <- settled (Http.json response) ;;
     let reply := extractReply data in
     text <- logResponseReceived reply data ;;
     Resolve {| reply := text; error := None |})
    (fun error =>
       Resolve {| reply := connectionApology;
                  error := Some (messageOf error) |}).

End ChatApi.

(* ================================================================== *)
(** ** The mock API route *)
(* ================================================================== *)

Module MockRoute.

(** The [Response] the route builds: a status and the object it
    serialises with [JSON.stringify]. *)
Record RouteResponse : Type := {
  status : Z;
  payload : list (string * value)
}.

(** [const { message } = v]: destructuring [null] or [undefined] throws. *)
Definition destructureMessage {St : Type} (v : value) : Async St value :=
  if nullish v
  then Reject (ErrorObject "Cannot destructure property 'message' of 'null' as it is null.")
  else Resolve (getNamed v "message").

(** [data?.message?.content || data?.content ||
     data?.choices?.[0]?.message?.content || "No reply from model"]. *)
Definition extractReply (data : value) : value :=
  Js.or (optNamed (optNamed data "message") "content")
    (Js.or (optNamed data "content")
       (Js.or (optNamed (optNamed (optFirst (optNamed data "choices")) "message") "content")
          (VString "No reply from model"))).

(** [POST(req)]; [requestJson] is what [req.json()] settles to. *)
Definition POST {St : Type} (requestJson : thrown + value) : Async St RouteResponse :=
  tryCatch
    (parsed <- settled requestJson ;;
     message <- destructureMessage parsed ;;
     response <- fetch (ChatApi.chatRequest message) ;;
     data <- settled (Http.json response) ;;
     let reply := extractReply data in
     Resolve {| status := 200; payload := [("reply", reply)] |})
    (fun err =>
       Resolve {| status := 500;
                  payload := [("error", VString "Failed to connect to Ollama")] |}).

End MockRoute.

(* ================================================================== *)
(** ** Regular expressions, as far as the code writes them *)
(* ================================================================== *)

Module RegExp.

(** The pattern syntax that occurs in the source: characters, sequence,
    alternation and the assertion [\b]. *)
Inductive pattern : Type :=
  | Empty
  | Char (c : ascii)
  | Seq (p q : pattern)
  | Alt (p q : pattern)
  | WordBoundary.

(** A run of literal characters. *)
Fixpoint literal (s : string) : pattern :=
  match s with
  | EmptyString => Empty
  | String c rest => Seq (Char c) (literal rest)
  end.

(** [Canonicalize] of a pattern without the [u] flag: the upper-case
    form.  A code unit outside ASCII never canonicalizes to an ASCII
    one, and every character the source's patterns write is ASCII, so
    only the ASCII letters need folding here. *)
Definition canonicalize (c : ascii) : ascii :=
  let n := nat_of_ascii c in
  if (97 <=? n)%nat && (n <=? 122)%nat then ascii_of_nat (n - 32) else c.

(** Equality of a pattern character and an input character. *)
Definition sameChar (ignoreCase : bool) (c a : ascii) : bool :=
  if ignoreCase then Ascii.eqb (canonicalize c) (canonicalize a)
  else Ascii.eqb c a.

(** [IsWordChar]: the characters of [\w], that is [A-Za-z0-9_]. *)
Definition isWordChar (c : ascii) : bool :=
  let n := nat_of_ascii c in
  ((97 <=? n)%nat && (n <=? 122)%nat)
  || ((65 <=? n)%nat && (n <=? 90)%nat)
  || ((48 <=? n)%nat && (n <=? 57)%nat)
  || (n =? 95)%nat.

Definition isWordAt (c : option ascii) : bool :=
  match c with
  | Some a => isWordChar a
  | None => false
  end.

Definition next (rest : string) : option ascii :=
  match rest with
  | EmptyString => None
  | String a _ => Some a
  end.

(** A position in the input: the character before it (if any) and the
    input from there on.  [matcher i p prev rest k] tries [p] at this
    position and hands every end position to the continuation [k], in
    the backtracking order of the language's matcher. *)
Fixpoint matcher (ignoreCase : bool) (p : pattern) (prev : option ascii) (rest : string)
    (k : option ascii -> string -> bool) : bool :=
  match p with
  | Empty => k prev rest
  | Char c =>
      match rest with
      | EmptyString => false
      | String a rest' => sameChar ignoreCase c a && k (Some a) rest'
      end
  | Seq p1 p2 =>
      matcher ignoreCase p1 prev rest (fun prev' rest' => matcher ignoreCase p2 prev' rest' k)
  | Alt p1 p2 =>
      matcher ignoreCase p1 prev rest k || matcher ignoreCase p2 prev rest k
  | WordBoundary =>
      xorb (isWordAt prev) (isWordAt (next rest)) && k prev rest
  end.

(** The search loop of [exec]: try the pattern at every index from the
    current one on. *)
Fixpoint searchFrom (ignoreCase : bool) (p : pattern) (prev : option ascii) (rest : string) : bool :=
  matcher ignoreCase p prev rest (fun _ _ => true)
  || match rest with
     | EmptyString => false
     | String a rest' => searchFrom ignoreCase p (Some a) rest'
     end.

(** [/p/.test(s)], or [/p/i.test(s)] when [ignoreCase]. *)
Definition test (ignoreCase : bool) (p : pattern) (s : string) : bool :=
  searchFrom ignoreCase p None s.

(** [/{TestCaseID|StepNo\b|<StepNo/i]; a brace that opens no quantifier
    is a literal character. *)
Definition testCasePattern : pattern :=
  Alt (literal "{TestCaseID")
    (Alt (Seq (literal "StepNo") WordBoundary)
       (literal "<StepNo")).

Definition isTestCase (s : string) : bool := test true testCasePattern s.

(** [s.toUpperCase()] and [s.toLowerCase()] on ASCII letters. *)
Definition lowerChar (c : ascii) : ascii :=
  let n := nat_of_ascii c in
  if (65 <=? n)%nat && (n <=? 90)%nat then ascii_of_nat (n + 32) else c.

Fixpoint mapChars (f : ascii -> ascii) (s : string) : string :=
  match s with
  | EmptyString => EmptyString
  | String c rest => String (f c) (mapChars f rest)
  end.

(** Two strings that differ in the case of ASCII letters only. *)
Fixpoint sameUpToCase (s t : string) : Prop :=
  match s, t with
  | EmptyString, EmptyString => True
  | String a s', String b t' => canonicalize a = canonicalize b /\ sameUpToCase s' t'
  | _, _ => False
  end.

(** The character before the position reached after reading [found]. *)
Fixpoint lastChar (prev : option ascii) (found : string) : option ascii :=
  match found with
  | EmptyString => prev
  | String a found' => lastChar (Some a) found'
  end.

(** Reading the characters of [lit] one by one, as [literal lit] does:
    the position after them, when the input has them here. *)
Fixpoint afterLiteral (ignoreCase : bool) (lit : string) (prev : option ascii) (rest : string)
  : option (option ascii * string) :=
  match lit with
  | EmptyString => Some (prev, rest)
  | String c lit' =>
    match rest with
    | EmptyString => None
    | String a rest' =>
        if sameChar ignoreCase c a then afterLiteral ignoreCase lit' (Some a) rest'
        else None
    end
  end.

(** [s] contains [token], in any mix of upper and lower case. *)
Definition occursIgnoringCase (token s : string) : Prop :=
  exists before found after,
  s = before ++ found ++ after /\ sameUpToCase token found.

(** [s] contains [token], in any mix of upper and lower case, at a place
    where no word character follows it. *)
Definition occursAtWordEnd (token s : string) : Prop :=
  exists before found after,
  s = before ++ found ++ after /\ sameUpToCase token found
  /\ isWordAt (next after) = false.

(** [s] contains [token], in any mix of upper and lower case, as a whole
    word: no word character right before it nor right after it. *)
Definition occursAsWord (token s : string) : Prop :=
  exists before found after,
  s = before ++ found ++ after /\ sameUpToCase token found
  /\ isWordAt (lastChar None before) = false
  /\ isWordAt (next after) = false.

End RegExp.

(* ================================================================== *)
(** ** types/chat: the data model *)
(* ================================================================== *)

Module ChatTypes.

(** [enum AppState]. *)
Inductive AppState : Type := CHATTING | TASK_MODE | TASKS_COMPLETED.

(** ['user' | 'assistant']. *)
Inductive Role : Type := user | assistant.

(** [interface ChatMessage].  [content] is declared a string; the
    assistant's replies come out of [callChatAPI] untyped, so the field
    holds a JavaScript value. *)
Module ChatMessage.
Record t : Type := {
  id : string;
  role : Role;
  content : value;
  timestamp : Z
}.
End ChatMessage.

(** [interface Task]; the fields marked [?] are optional. *)
Module Task.
Record t : Type := {
  id : string;
  description : string;
  completed : bool;
  justification : option value;
  completedAt : option Z;
  epsLogContent : option string;
  testCaseContent : option string
}.
End Task.

(** [interface EpsConfirmationData]. *)
Module EpsConfirmationData.
Record t : Type := {
  pathToFile : string;
  epsLogContent : string;
  testCaseContent : string;
  tasksToBeDone : option (list string);
  timestamp : Z
}.
End EpsConfirmationData.

(** [interface ChatReply]. *)
Module ChatReply.
Record t : Type := {
  chatResponse : value;
  stateUpdate : AppState
}.
End ChatReply.

End ChatTypes.

Import ChatTypes.

(* ================================================================== *)
(** ** components/chat/EpsConfirmation.tsx: the confirmation form *)
(* ================================================================== *)

Module EpsConfirmation.

(** The form's local state. *)
Record FormData : Type := {
  pathToFile : string;
  epsLogContent : string;
  testCaseContent : string;
  timestamp : Z
}.

Definition blank (s : string) : bool := String.eqb (trim s) EmptyString.

(** [handleSubmit]: an [alert] with its text, or the payload handed to
    [onConfirm]. *)
Definition handleSubmit (formData : FormData) : string + EpsConfirmationData.t :=
  if blank (pathToFile formData) || blank (epsLogContent formData) then
    inl "Please select a valid EPS log file to process"
  else if blank (testCaseContent formData) then
    inl "Please paste a valid test case to validate against"
  else
    inr {| EpsConfirmationData.pathToFile := pathToFile formData;
           EpsConfirmationData.epsLogContent := epsLogContent formData;
           EpsConfirmationData.testCaseContent := testCaseContent formData;
           EpsConfirmationData.tasksToBeDone := Some ["Validate test case against EPS log"];
           EpsConfirmationData.timestamp := timestamp formData |}.

End EpsConfirmation.

(* ================================================================== *)
(** ** pages/ChatPage.tsx: the orchestrator *)
(* ================================================================== *)

Module ChatPage.

(** The eight [useState] cells of the component. *)
Record State : Type := {
  appState : AppState;
  messages : list ChatMessage.t;
  tasks : list Task.t;
  completedTasksCount : Z;
  currentFile : string;
  isLoading : bool;
  showConfirmation : bool;
  completionTimestamp : Z
}.

Definition M : Type -> Type := Async State.

(** The state setters.  [setMessages] and [setTasks] take an updater
    function, as the source's functional updates do. *)
Definition setAppState (v : AppState) : M unit :=
  SetState (fun s =>
    {| appState := v; messages := messages s; tasks := tasks s;
       completedTasksCount := completedTasksCount s; currentFile := currentFile s;
       isLoading := isLoading s; showConfirmation := showConfirmation s;
       completionTimestamp := completionTimestamp s |}) (Resolve tt).

Definition setMessages (f : list ChatMessage.t -> list ChatMessage.t) : M unit :=
  SetState (fun s =>
    {| appState := appState s; messages := f (messages s); tasks := tasks s;
       completedTasksCount := completedTasksCount s; currentFile := currentFile s;
       isLoading := isLoading s; showConfirmation := showConfirmation s;
       completionTimestamp := completionTimestamp s |}) (Resolve tt).

Definition setTasks (f : list Task.t -> list Task.t) : M unit :=
  SetState (fun s =>
    {| appState := appState s; messages := messages s; tasks := f (tasks s);
       completedTasksCount := completedTasksCount s; currentFile := currentFile s;
       isLoading := isLoading s; showConfirmation := showConfirmation s;
       completionTimestamp := completionTimestamp s |}) (Resolve tt).

Definition setCompletedTasksCount (v : Z) : M unit :=
  SetState (fun s =>
    {| appState := appState s; messages := messages s; tasks := tasks s;
       completedTasksCount := v; currentFile := currentFile s;
       isLoading := isLoading s; showConfirmation := showConfirmation s;
       completionTimestamp := completionTimestamp s |}) (Resolve tt).

Definition setCurrentFile (v : string) : M unit :=
  SetState (fun s =>
    {| appState := appState s; messages := messages s; tasks := tasks s;
       completedTasksCount := completedTasksCount s; currentFile := v;
       isLoading := isLoading s; showConfirmation := showConfirmation s;
       completionTimestamp := completionTimestamp s |}) (Resolve tt).

Definition setIsLoading (v : bool) : M unit :=
  SetState (fun s =>
    {| appState := appState s; messages := messages s; tasks := tasks s;
       completedTasksCount := completedTasksCount s; currentFile := currentFile s;
       isLoading := v; showConfirmation := showConfirmation s;
       completionTimestamp := completionTimestamp s |}) (Resolve tt).

Definition setShowConfirmation (v : bool) : M unit :=
  SetState (fun s =>
    {| appState := appState s; messages := messages s; tasks := tasks s;
       completedTasksCount := completedTasksCount s; currentFile := currentFile s;
       isLoading := isLoading s; showConfirmation := v;
       completionTimestamp := completionTimestamp s |}) (Resolve tt).

Definition setCompletionTimestamp (v : Z) : M unit :=
  SetState (fun s =>
    {| appState := appState s; messages := messages s; tasks := tasks s;
       completedTasksCount := completedTasksCount s; currentFile := currentFile s;
       isLoading := isLoading s; showConfirmation := showConfirmation s;
       completionTimestamp := v |}) (Resolve tt).

Definition toast (t : Toast) : M unit := ShowToast t (Resolve tt).

(** [new Date()]. *)
Definition newDate : M Z := DateNow (fun now => Resolve now).

(** [generateId]: [`${Date.now()}-${Math.random().toString(36).substr(2, 9)}`].
    [MathRandom] delivers the random number already in that base-36
    form. *)
Definition generateId : M string :=
  DateNow (fun now => MathRandom (fun suffix =>
    Resolve (numberToString now ++ "-" ++ suffix))).

(** [addMessage(role, content)]. *)
Definition addMessage (role : Role) (content : value) : M ChatMessage.t :=
  id <- generateId ;;
  timestamp <- newDate ;;
  let message := {| ChatMessage.id := id; ChatMessage.role := role;
                    ChatMessage.content := content;
                    ChatMessage.timestamp := timestamp |} in
  setMessages (fun prev => (prev ++ [message])%list) ;;
  Resolve message.

(** [callChatAPI(message, epsLogContent?, testCaseContent?)].
    [appState] is the mode the enclosing render captured; it is only
    copied into the reply. *)
Definition callChatAPI (appState : AppState) (message : string)
    (epsLogContent testCaseContent : option string) : M ChatReply.t :=
  tryCatch
    (let prompt :=
       if ChatApi.present epsLogContent && ChatApi.present testCaseContent then
         let truncatedLog := EpsUtils.truncateContent (ChatApi.contentOf epsLogContent) None in
         let truncatedTestCase := EpsUtils.truncateContent (ChatApi.contentOf testCaseContent) None in
         EpsUtils.buildEpsValidationPrompt truncatedLog truncatedTestCase
       else message in
     response <- fetch (ChatApi.chatRequest (VString prompt)) ;;
     (if negb (Http.ok response) then
        Reject (ErrorObject ("HTTP error! status: " ++ numberToString (Http.status response)))
      else Resolve tt) ;;
     data <- settled (Http.json response) ;;
     let reply := ChatApi.extractReply data in
     Resolve {| ChatReply.chatResponse := reply; ChatReply.stateUpdate := appState |})
    (fun error => Reject error).

(** [handleSendMessage(messageContent)], with the [isLoading] and
    [appState] of the render that created the callback. *)
Definition handleSendMessage (isLoading : bool) (appState : AppState)
    (messageContent : string) : M unit :=
  if isLoading then Resolve tt
  else
    let isTestCase := RegExp.isTestCase messageContent in
    if isTestCase then
      addMessage user (VString messageContent) ;;
      addMessage assistant (VString "Test case detected. Please upload the corresponding EPS log file to proceed with validation.") ;;
      setShowConfirmation true ;;
      Resolve tt
    else
      addMessage user (VString messageContent) ;;
      setIsLoading true ;;
      tryFinally
        (tryCatch
           (reply <- callChatAPI appState messageContent None None ;;
            addMessage assistant (ChatReply.chatResponse reply) ;;
            toast {| title := "Message sent";
                     description := "EPS Agent has responded to your message.";
                     destructive := false |})
           (fun error =>
              addMessage assistant (VString "Sorry, I encountered an error processing your message. Please try again.") ;;
              toast {| title := "Error";
                       description := "Failed to send message. Please check your connection.";
                       destructive := true |}))
        (setIsLoading false).

(** The object the validation handler puts in place of the task:
    [{ ...t, completed: true, justification, completedAt }]. *)
Definition completeTask (t : Task.t) (justification : value) (completedAt : Z) : Task.t :=
  {| Task.id := Task.id t;
     Task.description := Task.description t;
     Task.completed := true;
     Task.justification := Some justification;
     Task.completedAt := Some completedAt;
     Task.epsLogContent := Task.epsLogContent t;
     Task.testCaseContent := Task.testCaseContent t |}.

(** [processEpsValidation(task)].  The [new Date()] that the source
    writes inside the updater of [setTasks] is read once, just before the
    update. *)
Definition processEpsValidation (appState : AppState) (task : Task.t) : M unit :=
  setIsLoading true ;;
  tryFinally
    (tryCatch
       (reply <- callChatAPI appState EmptyString (Task.epsLogContent task) (Task.testCaseContent task) ;;
        completedAt <- newDate ;;
        setTasks (fun prevTasks =>
          map (fun t =>
                 if String.eqb (Task.id t) (Task.id task)
                 then completeTask t (ChatReply.chatResponse reply) completedAt
                 else t) prevTasks) ;;
        setCompletedTasksCount 1 ;;
        setAppState TASKS_COMPLETED ;;
        now <- newDate ;;
        setCompletionTimestamp now ;;
        addMessage assistant (ChatReply.chatResponse reply) ;;
        toast {| title := "Validation complete";
                 description := "EPS log validation results are available.";
                 destructive := false |})
       (fun error =>
          completedAt <- newDate ;;
          setTasks (fun prevTasks =>
            map (fun t =>
                   if String.eqb (Task.id t) (Task.id task)
                   then completeTask t (VString ("Validation failed: " ++ messageOf error)) completedAt
                   else t) prevTasks) ;;
          setCompletedTasksCount 1 ;;
          setAppState TASKS_COMPLETED ;;
          addMessage assistant (VString "Sorry, validation failed. Please check the log file and test case format.") ;;
          toast {| title := "Validation Error";
                   description := "Failed to validate EPS log. Please check your inputs.";
                   destructive := true |}))
    (setIsLoading false).

(** [handleFileConfirmation(data)]. *)
Definition handleFileConfirmation (appState : AppState) (data : EpsConfirmationData.t) : M unit :=
  setCurrentFile (EpsConfirmationData.pathToFile data) ;;
  setShowConfirmation false ;;
  setAppState TASK_MODE ;;
  id <- generateId ;;
  let validationTask :=
    {| Task.id := id;
       Task.description := "Validate test case against EPS log";
       Task.completed := false;
       Task.justification := None;
       Task.completedAt := None;
       Task.epsLogContent := Some (EpsConfirmationData.epsLogContent data);
       Task.testCaseContent := Some (EpsConfirmationData.testCaseContent data) |} in
  setTasks (fun _ => [validationTask]) ;;
  setCompletedTasksCount 0 ;;
  addMessage assistant
    (VString ("EPS log " ++ DQ ++ EpsConfirmationData.pathToFile data ++ DQ
              ++ " and test case received. Initiating validation...")) ;;
  processEpsValidation appState validationTask ;;
  toast {| title := "Validation started";
           description := "Validating test case for " ++ EpsConfirmationData.pathToFile data;
           destructive := false |}.

(** [handleSidebarNavigation(action)], with the [messages.length] of the
    render that created the callback. *)
Definition handleSidebarNavigation (messagesLength : Z) (action : string) : M unit :=
  if String.eqb action "new-task" then setShowConfirmation true
  else if String.eqb action "history" then
    toast {| title := "Message History";
             description := "You have " ++ numberToString messagesLength
                              ++ " messages in your current session.";
             destructive := false |}
  else if String.eqb action "request-feature" then
    addMessage assistant (VString "I'd be happy to help with feature requests! Please describe what functionality you'd like to see added to the EPS Agent system.") ;;
    Resolve tt
  else if String.eqb action "privacy" then
    addMessage assistant (VString "Privacy Information: EPS Agent runs entirely on your local machine. All file processing, AI conversations, and data analysis happen locally. No data is sent to external servers, ensuring complete privacy and security of your documents.") ;;
    Resolve tt
  else Resolve tt.

(** [handleStartNewTask()]. *)
Definition handleStartNewTask : M unit :=
  setAppState CHATTING ;;
  setTasks (fun _ => []) ;;
  setCompletedTasksCount 0 ;;
  setCurrentFile EmptyString ;;
  now <- newDate ;;
  setCompletionTimestamp now ;;
  addMessage assistant (VString "Ready to start a new validation task! Please upload an EPS log file and paste your test case.") ;;
  toast {| title := "New Task Ready";
           description := "You can now upload a new EPS log file for validation.";
           destructive := false |}.

(** The inline callbacks of the JSX: [onTestCaseDetected] and the
    form's [onCancel]. *)
Definition onTestCaseDetected : M unit := setShowConfirmation true.

Definition onCancel : M unit := setShowConfirmation false.

End ChatPage.

(* ================================================================== *)
(** ** The event loop *)
(* ================================================================== *)

Module Runtime.

Import ChatPage.

(** What the environment answers to the code's reads of the clock and
    of the random generator: the value of the [n]-th read. *)
Record Oracle : Type := {
  clock : nat -> Z;
  random : nat -> string
}.

(** Everything an event can change: the component state, the toasts
    shown, the [fetch] calls issued so far, the continuations suspended
    on a [fetch] that has not settled yet (oldest first), and the number
    of reads of the environment made so far. *)
Record World : Type := {
  store : State;
  toasts : list Toast;
  requests : list Http.Request;
  pending : list (Http.FetchResult -> M unit);
  reads : nat
}.

(** Run a piece of code up to its next suspension point.  State updates
    apply to the latest state; an [await] parks the continuation. *)
Fixpoint exec (o : Oracle) (p : M unit) (w : World) : World :=
  match p with
  | Resolve _ => w
  | Reject _ => w
  | AwaitFetch req k =>
      {| store := store w; toasts := toasts w;
         requests := (requests w ++ [req])%list;
         pending := (pending w ++ [k])%list;
         reads := reads w |}
  | SetState f k =>
      exec o k {| store := f (store w); toasts := toasts w;
                  requests := requests w; pending := pending w;
                  reads := reads w |}
  | DateNow k =>
      exec o (k (clock o (reads w)))
        {| store := store w; toasts := toasts w;
           requests := requests w; pending := pending w;
           reads := S (reads w) |}
  | MathRandom k =>
      exec o (k (random o (reads w)))
        {| store := store w; toasts := toasts w;
           requests := requests w; pending := pending w;
           reads := S (reads w) |}
  | ShowToast t k =>
      exec o k {| store := store w; toasts := (toasts w ++ [t])%list;
                  requests := requests w; pending := pending w;
                  reads := reads w |}
  end.

(** The component when it mounts: the initial values of the [useState]
    cells ([completionTimestamp] starts as [new Date()]). *)
Definition initial (o : Oracle) : World :=
  {| store := {| appState := CHATTING; messages := []; tasks := [];
                 completedTasksCount := 0; currentFile := EmptyString;
                 isLoading := false; showConfirmation := false;
                 completionTimestamp := clock o O |};
     toasts := []; requests := []; pending := []; reads := 1 |}.

(** Take the [n]-th suspended continuation out of the list. *)
Definition withoutPending (n : nat) (w : World) : World :=
  {| store := store w; toasts := toasts w; requests := requests w;
     pending := (firstn n (pending w) ++ skipn (S n) (pending w))%list;
     reads := reads w |}.

End Runtime.

(* ================================================================== *)
(** ** components/chat/ChatInterface.tsx: the input form *)
(* ================================================================== *)

Module ChatInterface.

Import Runtime.

(** [handleSubmit], for the text typed in the input box.  The props are
    the [isLoading] flag and the two callbacks; calling [onSendMessage]
    (an [async] function that is not awaited) runs it up to its first
    suspension point. *)
Definition handleSubmit (isLoading : bool)
    (onSendMessage : string -> World -> World)
    (onTestCaseDetected : option (World -> World))
    (inputMessage : string) (w : World) : World :=
  if String.eqb (trim inputMessage) EmptyString || isLoading then w
  else
    let isTestCase := RegExp.isTestCase inputMessage in
    match isTestCase, onTestCaseDetected with
    | true, Some detected => detected (onSendMessage (trim inputMessage) w)
    | _, _ => onSendMessage (trim inputMessage) w
    end.

End ChatInterface.

(* ================================================================== *)
(** ** The page as a transition system *)
(* ================================================================== *)

Module App.

Import ChatPage Runtime.

(** What can happen to the page: the user submits the input box, clicks
    a sidebar entry, presses a button of the confirmation form or the
    button of the completion panel; or the [n]-th outstanding [fetch]
    settles. *)
Inductive Event : Type :=
  | Submit (inputMessage : string)
  | Navigate (action : string)
  | Confirm (formData : EpsConfirmation.FormData)
  | Cancel
  | StartNewTask
  | Settle (n : nat) (result : Http.FetchResult).

(** One event.  A control that is not rendered cannot be used: the
    confirmation form exists while [showConfirmation] holds, the
    completion panel while the mode is [TASKS_COMPLETED]. *)
Definition step (o : Oracle) (w : World) (ev : Event) : World :=
  let s := store w in
  match ev with
  | Submit inputMessage =>
      ChatInterface.handleSubmit (isLoading s)
        (fun m => exec o (handleSendMessage (isLoading s) (appState s) m))
        (Some (exec o onTestCaseDetected))
        inputMessage w
  | Navigate action =>
      exec o (handleSidebarNavigation (Z.of_nat (List.length (messages s))) action) w
  | Confirm formData =>
      if showConfirmation s then
        match EpsConfirmation.handleSubmit formData with
        | inl _ => w
        | inr data => exec o (handleFileConfirmation (appState s) data) w
        end
      else w
  | Cancel =>
      if showConfirmation s then exec o onCancel w else w
  | StartNewTask =>
      match appState s with
      | TASKS_COMPLETED => exec o handleStartNewTask w
      | _ => w
      end
  | Settle n result =>
      match nth_error (pending w) n with
      | Some k => exec o (k result) (withoutPending n w)
      | None => w
      end
  end.

(** A sequence of events, from a given world. *)
Definition run (o : Oracle) (events : list Event) (w : World) : World :=
  fold_left (step o) events w.

Definition reachable (o : Oracle) (w : World) : Prop :=
  exists events, w = run o events (initial o).

(** Every task of the collection is completed. *)
Definition allCompleted (ts : list Task.t) : bool := forallb Task.completed ts.

(** The mode invariant of the specification, on one state. *)
Definition modeInvariant (s : State) : Prop :=
  match appState s with
  | CHATTING => tasks s = []
  | TASK_MODE => tasks s <> [] /\ allCompleted (tasks s) = false
  | TASKS_COMPLETED => tasks s <> [] /\ allCompleted (tasks s) = true
  end.

(** *** The page with confirmations serialised

    [handleSendMessage] returns at once while the busy flag is set;
    [handleFileConfirmation] has no such test.  [stepGuarded] is [step]
    with that test added in front of the confirmation handler. *)
Definition stepGuarded (o : Oracle) (w : World) (ev : Event) : World :=
  match ev with
  | Confirm _ => if isLoading (store w) then w else step o w ev
  | _ => step o w ev
  end.

Definition runGuarded (o : Oracle) (events : list Event) (w : World) : World :=
  fold_left (stepGuarded o) events w.

(** Two worlds that agree on the mode, the tasks, the busy flag and the
    parked continuations. *)
Definition sameCore (w w' : World) : Prop :=
  appState (store w') = appState (store w)
  /\ tasks (store w') = tasks (store w)
  /\ isLoading (store w') = isLoading (store w)
  /\ pending w' = pending w.

(** A parked continuation of [handleSendMessage]: however the request
    settles, resuming it leaves the mode and the tasks alone, clears the
    busy flag and awaits nothing further. *)
Definition resumesChat (o : Oracle) (k : Http.FetchResult -> M unit) : Prop :=
  forall (r : Http.FetchResult) (w : World),
  appState (store (exec o (k r) w)) = appState (store w)
  /\ tasks (store (exec o (k r) w)) = tasks (store w)
  /\ isLoading (store (exec o (k r) w)) = false
  /\ pending (exec o (k r) w) = pending w.

(** A parked continuation of [processEpsValidation] for the task [id]:
    however the request settles, resuming it completes the tasks with
    that identifier, sets the mode to [TASKS_COMPLETED], clears the busy
    flag and awaits nothing further. *)
Definition resumesValidation (o : Oracle) (id : string)
  (k : Http.FetchResult -> M unit) : Prop :=
  forall (r : Http.FetchResult) (w : World),
  appState (store (exec o (k r) w)) = TASKS_COMPLETED
  /\ (exists justification completedAt,
        tasks (store (exec o (k r) w))
        = map (fun t => if String.eqb (Task.id t) id
                        then completeTask t justification completedAt
                        else t)
            (tasks (store w)))
  /\ isLoading (store (exec o (k r) w)) = false
  /\ pending (exec o (k r) w) = pending w.

(** The modes in which no validation is running. *)
Definition atRest (s : State) : Prop :=
  (appState s = CHATTING /\ tasks s = [])
  \/ (appState s = TASKS_COMPLETED /\ tasks s <> [] /\ allCompleted (tasks s) = true).

(** What holds of every world of the serialised page: nothing is
    outstanding and the busy flag is clear; or one chat request is
    outstanding; or one validation request is outstanding, for the one
    task of the collection, which is not completed yet. *)
Definition serialInvariant (o : Oracle) (w : World) : Prop :=
  (isLoading (store w) = false /\ pending w = [] /\ atRest (store w))
  \/ (isLoading (store w) = true /\ atRest (store w)
    /\ exists k, pending w = [k] /\ resumesChat o k)
  \/ (isLoading (store w) = true /\ appState (store w) = TASK_MODE
    /\ exists k task,
         pending w = [k] /\ tasks (store w) = [task]
         /\ Task.completed task = false
         /\ resumesValidation o (Task.id task) k).

End App.

(* ================================================================== *)
(** ** Concrete inputs used in the examples *)
(* ================================================================== *)

Module Examples.

Import ChatPage Runtime App.

(** A clock that advances by one millisecond per read, and a fixed
    random suffix. *)
Definition oracle : Oracle :=
  {| clock := fun n => 1700000000000 + Z.of_nat n;
     random := fun _ => "k3x9q2a7b" |}.

(** A filled-in confirmation form. *)
Definition checkoutForm : EpsConfirmation.FormData :=
  {| EpsConfirmation.pathToFile := "checkout.log";
     EpsConfirmation.epsLogContent := "10:00:01 req-17 POST /checkout 200";
     EpsConfirmation.testCaseContent := "StepNo: 1 submit the checkout form";
     EpsConfirmation.timestamp := 1700000000000 |}.

Definition refundForm : EpsConfirmation.FormData :=
  {| EpsConfirmation.pathToFile := "refund.log";
     EpsConfirmation.epsLogContent := "10:05:42 req-31 POST /refund 200";
     EpsConfirmation.testCaseContent := "StepNo: 1 request a refund";
     EpsConfirmation.timestamp := 1700000000000 |}.

(** The body [{ message: { content: text } }] of the model endpoint. *)
Definition modelReply (text : string) : value :=
  VObject [("message", VObject [("role", VString "assistant"); ("content", VString text)])].

(** Responses and failures of the network.  The code reads the text of
    a response only when its status is not a success. *)
Definition http200 (data : value) : Http.FetchResult :=
  Http.Fulfilled {| Http.status := 200;
                    Http.text := inr "(not read)";
                    Http.json := inr data |}.

Definition http200NotJson : Http.FetchResult :=
  Http.Fulfilled {| Http.status := 200;
                    Http.text := inr "<html>Bad Gateway</html>";
                    Http.json := inl (ErrorObject "Unexpected token < in JSON at position 0") |}.

Definition http500 : Http.FetchResult :=
  Http.Fulfilled {| Http.status := 500;
                    Http.text := inr "Internal Server Error";
                    Http.json := inl (ErrorObject "Unexpected token I in JSON at position 0") |}.

Definition networkDown : Http.FetchResult :=
  Http.Rejected (ErrorObject "Failed to fetch").

(** Requests of the two kinds. *)
Definition chatOnly : ChatApi.ChatRequest :=
  {| ChatApi.message := "hello";
     ChatApi.epsLogContent := None;
     ChatApi.testCaseContent := Some "StepNo: 1 submit the checkout form" |}.

Definition validation : ChatApi.ChatRequest :=
  {| ChatApi.message := EmptyString;
     ChatApi.epsLogContent := Some "10:00:01 req-17 POST /checkout 200";
     ChatApi.testCaseContent := Some "StepNo: 1 submit the checkout form" |}.

(** The user confirms a second file while the validation of the first is
    still running; then the first validation's response arrives. *)
Definition overlappingConfirmations : list Event :=
  [ Navigate "new-task"; Confirm checkoutForm;
    Navigate "new-task"; Confirm refundForm;
    Settle 0 (http200 (modelReply "Overall Result: PASS")) ].

(** The same overlap, but the first validation's request cannot reach
    the endpoint. *)
Definition failedOverlappingValidation : list Event :=
  [ Navigate "new-task"; Confirm checkoutForm;
    Navigate "new-task"; Confirm refundForm;
    Settle 0 networkDown ].

(** The same overlap, then the completion panel's button, then the
    second validation's response. *)
Definition staleCompletionAfterReset : list Event :=
  [ Navigate "new-task"; Confirm checkoutForm;
  Navigate "new-task"; Confirm refundForm;
  Settle 0 (http200 (modelReply "Overall Result: PASS"));
  StartNewTask;
  Settle 0 (http200 (modelReply "Overall Result: FAIL")) ].

(** The user types a question and submits it. *)
Definition oneQuestion : list Event :=
  [ Submit "Which log formats can you read?" ].

(** One confirmation whose validation request cannot reach the
    endpoint. *)
Definition failedValidation : list Event :=
  [ Navigate "new-task"; Confirm checkoutForm; Settle 0 networkDown ].

End Examples.

(* ================================================================== *)
(** ** More of JavaScript's strings and regular expressions *)
(* ================================================================== *)

Module JsText.

(** [s.split(sep)] for a separator that is not empty: the pieces between
    the occurrences of [sep], found from left to right without overlap.
    [skip] counts the characters of an occurrence still to pass over,
    [piece] is the piece read so far. *)
Fixpoint splitFrom (sep : string) (skip : nat) (piece : string) (s : string) : list string :=
  match s with
  | EmptyString => [piece]
  | String c rest =>
      match skip with
      | S n => splitFrom sep n piece rest
      | O =>
          if prefix sep s
          then piece :: splitFrom sep (String.length sep - 1) EmptyString rest
          else splitFrom sep O (piece ++ String c EmptyString) rest
      end
  end.

Definition split (s sep : string) : list string := splitFrom sep O EmptyString s.

(** [s.trimEnd()]. *)
Definition trimEnd (s : string) : string := reverse (trimStart (reverse s)).

(** No character of [s] is white space. *)
Fixpoint noWhiteSpace (s : string) : bool :=
  match s with
  | EmptyString => true
  | String c rest => negb (isWhiteSpace c) && noWhiteSpace rest
  end.

End JsText.

Module RegExpCapture.

(** Patterns with a repeated character class and a capturing group, as
    in [/Overall Result:\s*(PASS|FAIL)/i]. *)
Inductive pattern : Type :=
| Empty
| Char (c : ascii)
| Seq (p q : pattern)
| Alt (p q : pattern)
| Star (class : ascii -> bool)
| Group (p : pattern).

Fixpoint literal (s : string) : pattern :=
  match s with
  | EmptyString => Empty
  | String c rest => Seq (Char c) (literal rest)
  end.

(** [class*], greedy: as many characters of the class as there are, then
    fewer if the rest of the pattern fails. *)
Fixpoint star (class : ascii -> bool) (prev : option ascii) (rest : string)
    (k : option ascii -> string -> option (option string)) : option (option string) :=
  match rest with
  | EmptyString => k prev rest
  | String a rest' =>
      if class a then
        match star class (Some a) rest' k with
        | Some found => Some found
        | None => k prev rest
        end
      else k prev rest
  end.

(** The backtracking matcher.  The state carries the text captured by the
    group, if it has matched; a successful match hands it back. *)
Fixpoint matcher (ignoreCase : bool) (p : pattern) (prev : option ascii) (rest : string)
    (captured : option string)
    (k : option ascii -> string -> option string -> option (option string))
    : option (option string) :=
  match p with
  | Empty => k prev rest captured
  | Char c =>
      match rest with
      | EmptyString => None
      | String a rest' =>
          if RegExp.sameChar ignoreCase c a then k (Some a) rest' captured else None
      end
  | Seq p1 p2 =>
      matcher ignoreCase p1 prev rest captured
        (fun prev' rest' captured' => matcher ignoreCase p2 prev' rest' captured' k)
  | Alt p1 p2 =>
      match matcher ignoreCase p1 prev rest captured k with
      | Some found => Some found
      | None => matcher ignoreCase p2 prev rest captured k
      end
  | Star class =>
      star class prev rest (fun prev' rest' => k prev' rest' captured)
  | Group p1 =>
      matcher ignoreCase p1 prev rest captured
        (fun prev' rest' _ =>
           k prev' rest'
             (Some (substring 0 (String.length rest - String.length rest') rest)))
  end.

(** The search loop: the match at the first index that has one. *)
Fixpoint searchFrom (ignoreCase : bool) (p : pattern) (prev : option ascii) (rest : string)
    : option (option string) :=
  match matcher ignoreCase p prev rest None (fun _ _ captured => Some captured) with
  | Some found => Some found
  | None =>
      match rest with
      | EmptyString => None
      | String a rest' => searchFrom ignoreCase p (Some a) rest'
      end
  end.

(** [s.match(/p/)?.[1]], or with the [i] flag: the text of the group in
    the first match, [None] standing for [undefined]. *)
Definition matchGroup1 (ignoreCase : bool) (p : pattern) (s : string) : option string :=
  match searchFrom ignoreCase p None s with
  | Some (Some text) => Some text
  | _ => None
  end.

End RegExpCapture.

(* ================================================================== *)
(** ** components/tasks/ShowCompletionAndJustification.tsx *)
(* ================================================================== *)

Module CompletionPanel.

(** [const completedTasks = tasks.filter(task => task.completed);]
    [const task = completedTasks[0];] *)
Definition shownTask (tasks : list Task.t) : option Task.t :=
  hd_error (filter Task.completed tasks).

(** [task?.justification]. *)
Definition justificationOf (task : option Task.t) : value :=
  match task with
  | Some t => match Task.justification t with Some v => v | None => VUndefined end
  | None => VUndefined
  end.

(** [/Overall Result:\s*(PASS|FAIL)/i]. *)
Definition overallResultPattern : RegExpCapture.pattern :=
  RegExpCapture.Seq (RegExpCapture.literal "Overall Result:")
    (RegExpCapture.Seq (RegExpCapture.Star isWhiteSpace)
       (RegExpCapture.Group
          (RegExpCapture.Alt (RegExpCapture.literal "PASS")
             (RegExpCapture.literal "FAIL")))).

(** What the group [(PASS|FAIL)] captures when tried at the input [r]. *)
Definition verdictAt (r : string) : option (option string) :=
  match RegExp.afterLiteral true "PASS" None r with
  | Some (_, r') => Some (Some (substring 0 (String.length r - String.length r') r))
  | None =>
      match RegExp.afterLiteral true "FAIL" None r with
      | Some (_, r') => Some (Some (substring 0 (String.length r - String.length r') r))
      | None => None
      end
  end.

Definition marker : string := "Reasoning and Evidence:".

(** [x || fallback] for an optional string. *)
Definition orElse (x : option string) (fallback : string) : string :=
  match x with
  | Some (String c rest) => String c rest
  | _ => fallback
  end.

(** [task?.justification?.match(/.../i)?.[1] || 'Unknown'].  The optional
    chain stops at a missing justification; on a justification that is
    not a string, [match] is not a function and the call throws. *)
Definition overallResult (task : option Task.t) : thrown + string :=
  match justificationOf task with
  | VUndefined | VNull => inr "Unknown"
  | VString text =>
      inr (orElse (RegExpCapture.matchGroup1 true overallResultPattern text) "Unknown")
  | _ => inl (ErrorObject "task?.justification?.match is not a function")
  end.

(** [task?.justification?.split('Reasoning and Evidence:')[1]?.trim()
     || task?.justification || 'No justification provided']. *)
Definition reasoningAndEvidence (task : option Task.t) : thrown + string :=
  match justificationOf task with
  | VUndefined | VNull => inr "No justification provided"
  | VString text =>
      let second := option_map trim (nth_error (JsText.split text marker) 1) in
      inr (orElse second (orElse (Some text) "No justification provided"))
  | _ => inl (ErrorObject "task?.justification?.split is not a function")
  end.

End CompletionPanel.

(* ================================================================== *)
(** ** components/tasks/ShowListOfTasks.tsx *)
(* ================================================================== *)

Module TaskPanel.

(** The component's own [truncateContent(content, maxLength = 100)], for
    the test-case snippet. *)
Definition truncateContent (content : option string) (maxLength : option Z) : string :=
  let maxLength := match maxLength with Some m => m | None => 100 end in
  match content with
  | None | Some EmptyString => "N/A"
  | Some text =>
      if maxLength <? jsLength text then slice text 0 maxLength ++ "..." else text
  end.

End TaskPanel.

(* ================================================================== *)
(** ** The earlier confirmation form (tasks entered one per line) *)
(* ================================================================== *)

Module EarlierEpsConfirmation.

(** The form's local state. *)
Record FormData : Type := {
  pathToPdfCsvFile : string;
  tasksList : string;
  timestamp : Z
}.

(** The earlier [interface EpsConfirmationData]. *)
Record EpsConfirmationData : Type := {
  data_pathToPdfCsvFile : string;
  tasksToBeDone : list string;
  data_timestamp : Z
}.

(** [formData.tasksList.split('\n').map(task => task.trim())
      .filter(task => task.length > 0)]. *)
Definition parseTasks (tasksList : string) : list string :=
  filter (fun task => negb (String.eqb task EmptyString))
    (map trim (JsText.split tasksList LF)).

(** [handleSubmit]: an [alert] with its text, or the payload handed to
    [onConfirm]. *)
Definition handleSubmit (formData : FormData) : string + EpsConfirmationData :=
  if String.eqb (trim (pathToPdfCsvFile formData)) EmptyString then
    inl "Please select a file to process"
  else if String.eqb (trim (tasksList formData)) EmptyString then
    inl "Please specify at least one task to be performed"
  else
    let tasks := parseTasks (tasksList formData) in
    match tasks with
    | [] => inl "Please specify valid tasks"
    | _ => inr {| data_pathToPdfCsvFile := pathToPdfCsvFile formData;
                  tasksToBeDone := tasks;
                  data_timestamp := timestamp formData |}
    end.

End EarlierEpsConfirmation.

(* ================================================================== *)
(** ** components/chat/EpsConfirmation.tsx: the form while it is filled in *)
(* ================================================================== *)

Module ConfirmationForm.

Import EpsConfirmation.

(** A [File], as far as the form reads it: its name and the text that
    reading it gives. *)
Record File : Type := { name : string; text : string }.

(** How a [FileReader] finishes: [onload], with the text of the file as
    its result, or [onerror]. *)
Inductive ReadOutcome : Type :=
| Loaded
| Failed.

(** [readFileAsText(file)] of lib/epsUtils, given how the reader
    finishes: what its promise settles to. *)
Definition readFileAsText (file : File) (outcome : ReadOutcome) : thrown + string :=
  match outcome with
  | Loaded => inr (text file)
  | Failed =>
      inl (ErrorObject ("Failed to read file: " ++ name file
                        ++ ". Please ensure it is a valid text-based file."))
  end.

(** The component: its [formData] cell, the files whose read has not
    finished (oldest first) and the alerts shown so far. *)
Record Form : Type := {
  formData : FormData;
  reading : list File;
  alerts : list string
}.

(** The initial value of the [formData] cell; [now] is [new Date()]. *)
Definition mounted (now : Z) : Form :=
  {| formData := {| pathToFile := EmptyString; epsLogContent := EmptyString;
                    testCaseContent := EmptyString; timestamp := now |};
     reading := [];
     alerts := [] |}.

(** [handleFileChange] up to its [await]: with a file chosen, the read
    starts; [e.target.files?.[0]] is [undefined] when none is. *)
Definition handleFileChange (file : option File) (f : Form) : Form :=
  match file with
  | Some chosen =>
      {| formData := formData f; reading := (reading f ++ [chosen])%list;
         alerts := alerts f |}
  | None => f
  end.

(** [handleFileChange] after its [await], on the latest form state: the
    functional update of the two file fields, or the [alert] of the
    [catch] block. *)
Definition fileRead (file : File) (outcome : ReadOutcome) (f : Form) : Form :=
  match readFileAsText file outcome with
  | inr content =>
      {| formData := {| pathToFile := name file;
                        epsLogContent := content;
                        testCaseContent := testCaseContent (formData f);
                        timestamp := timestamp (formData f) |};
         reading := reading f;
         alerts := alerts f |}
  | inl error =>
      {| formData := formData f;
         reading := reading f;
         alerts := (alerts f ++ [match error with
                                 | ErrorObject message => message
                                 | NotAnError _ => "Failed to read the file."
                                 end])%list |}
  end.

(** [handleTestCaseChange(value)]. *)
Definition handleTestCaseChange (value : string) (f : Form) : Form :=
  {| formData := {| pathToFile := pathToFile (formData f);
                    epsLogContent := epsLogContent (formData f);
                    testCaseContent := value;
                    timestamp := timestamp (formData f) |};
     reading := reading f;
     alerts := alerts f |}.

(** The [disabled] attribute of the start button, outside a run of
    [handleSubmit] ([isValidating] is set and cleared within one). *)
Definition startDisabled (d : FormData) : bool :=
  String.eqb (pathToFile d) EmptyString
  || blank (epsLogContent d) || blank (testCaseContent d).

(** What can happen to the form: a file is chosen (or the chooser is
    closed without one), the [n]-th read in progress finishes, the test
    case is edited, the start button is clicked. *)
Inductive Event : Type :=
| Choose (file : option File)
| ReadSettles (n : nat) (outcome : ReadOutcome)
| Edit (value : string)
| Start.

(** One event; the second component is the payload handed to
    [onConfirm], if the event does that. *)
Definition step (f : Form) (ev : Event) : Form * option EpsConfirmationData.t :=
  match ev with
  | Choose file => (handleFileChange file f, None)
  | ReadSettles n outcome =>
      match nth_error (reading f) n with
      | Some file =>
          (fileRead file outcome
             {| formData := formData f;
                reading := (firstn n (reading f) ++ skipn (S n) (reading f))%list;
                alerts := alerts f |}, None)
      | None => (f, None)
      end
  | Edit value => (handleTestCaseChange value f, None)
  | Start =>
      if startDisabled (formData f) then (f, None)
      else
        match handleSubmit (formData f) with
        | inl alert =>
            ({| formData := formData f; reading := reading f;
                alerts := (alerts f ++ [alert])%list |}, None)
        | inr data => (f, Some data)
        end
  end.

(** The form after a sequence of events. *)
Definition run (events : list Event) (f : Form) : Form :=
  fold_left (fun g ev => fst (step g ev)) events f.

(** The text of the last edit of the test case, [fallback] if there is
    none. *)
Definition lastEdit (events : list Event) (fallback : string) : string :=
  fold_left (fun text ev => match ev with Edit value => value | _ => text end)
    events fallback.

End ConfirmationForm.

(* ================================================================== *)
(** ** The earlier chat client (it posts to the route /api/chat) *)
(* ================================================================== *)

Module EarlierChatApi.

(** The arguments of its [fetch] call; the body is the object given to
    [JSON.stringify]. *)
Record Request : Type := {
  url : string;
  method : string;
  headers : list (string * string);
  body : list (string * value)
}.

Definition request (message : string) : Request :=
  {| url := "/api/chat";
     method := "POST";
     headers := [("Content-Type", "application/json")];
     body := [("message", VString message)] |}.

Definition connectionApology : string :=
  "Sorry, I cannot connect to the local AI service. Please ensure the backend is running on localhost:11434.".

(** The [try] block after the [fetch], given what the [fetch] settled
    to: the parsed body, or what was thrown.  The [console.log] reads
    [data.reply], which throws a [TypeError] when [data] is [null]. *)
Definition attempt (result : Http.FetchResult) : thrown + value :=
  match result with
  | Http.Rejected e => inl e
  | Http.Fulfilled response =>
      if negb (Http.ok response) then
        match Http.text response with
        | inl e => inl e
        | inr errorText =>
            inl (ErrorObject ("HTTP error! status: " ++ numberToString (Http.status response)))
        end
      else
        match Http.json response with
        | inl e => inl e
        | inr data =>
            if nullish data
            then inl (ErrorObject "Cannot read properties of null (reading 'reply')")
            else inr data
        end
  end.

(** The object the [catch] block returns. *)
Definition failure (error : thrown) : value :=
  VObject [("reply", VString connectionApology); ("error", VString (messageOf error))].

(** [sendChatMessage(message)], given what its one [fetch] settles to:
    the value its promise resolves with. *)
Definition sendChatMessage (message : string) (result : Http.FetchResult) : value :=
  match attempt result with
  | inr data => data
  | inl error => failure error
  end.

End EarlierChatApi.

(* ================================================================== *)
(** ** What the handlers keep, as predicates on worlds *)
(* ================================================================== *)

Module Behaviour.

Import ChatPage Runtime App.

(** [l'] is [l] with entries added at the end. *)
Definition extends {A : Type} (l l' : list A) : Prop :=
  exists added, l' = (l ++ added)%list.

(** A parked continuation that, however its request settles, adds one
    assistant message, leaves the mode alone or sets it to
    [TASKS_COMPLETED], keeps the number of tasks, the file name and the
    form flag, leaves the completed-count alone or sets it to 1, clears
    the busy flag, and neither issues nor awaits a further request. *)
Definition settlesQuietly (o : Oracle) (k : Http.FetchResult -> M unit) : Prop :=
  forall (r : Http.FetchResult) (w : World),
    let w' := exec o (k r) w in
    (appState (store w') = appState (store w)
     \/ appState (store w') = TASKS_COMPLETED)
    /\ (exists m, messages (store w') = (messages (store w) ++ [m])%list
                  /\ ChatMessage.role m = assistant)
    /\ List.length (tasks (store w')) = List.length (tasks (store w))
    /\ (completedTasksCount (store w') = completedTasksCount (store w)
        \/ completedTasksCount (store w') = 1)
    /\ currentFile (store w') = currentFile (store w)
    /\ showConfirmation (store w') = showConfirmation (store w)
    /\ isLoading (store w') = false
    /\ requests w' = requests w
    /\ pending w' = pending w.

(** A step that touches only the messages, the toasts and the form. *)
Definition quiet (w w' : World) : Prop :=
  appState (store w') = appState (store w)
  /\ tasks (store w') = tasks (store w)
  /\ completedTasksCount (store w') = completedTasksCount (store w)
  /\ isLoading (store w') = isLoading (store w)
  /\ requests w' = requests w
  /\ pending w' = pending w
  /\ extends (messages (store w)) (messages (store w')).

(** A step that issues one request and sets the busy flag, and otherwise
    touches only the messages, the toasts and the form. *)
Definition asks (o : Oracle) (w w' : World) : Prop :=
  appState (store w') = appState (store w)
  /\ tasks (store w') = tasks (store w)
  /\ completedTasksCount (store w') = completedTasksCount (store w)
  /\ isLoading (store w') = true
  /\ extends (messages (store w)) (messages (store w'))
  /\ exists k req,
       pending w' = (pending w ++ [k])%list
       /\ requests w' = (requests w ++ [req])%list
       /\ settlesQuietly o k.

(** Every character of [s] is white space. *)
Fixpoint allWhiteSpace (s : string) : bool :=
  match s with
  | EmptyString => true
  | String c rest => isWhiteSpace c && allWhiteSpace rest
  end.

(** Whether an event may issue a request. *)
Definition mayAsk (ev : Event) : Prop :=
  (exists inputMessage, ev = Submit inputMessage)
  \/ (exists formData, ev = Confirm formData).

(** What holds of every world the page can reach. *)
Definition wellFormed (o : Oracle) (w : World) : Prop :=
  Forall (settlesQuietly o) (pending w)
  /\ (isLoading (store w) = true -> pending w <> [])
  /\ (List.length (tasks (store w)) <= 1)%nat
  /\ (completedTasksCount (store w) = 0 \/ completedTasksCount (store w) = 1)
  /\ (List.length (pending w) <= List.length (requests w))%nat.

(** The mode changes the specification allows, with the event that
    causes each. *)
Definition allowedModeChange (before : AppState) (ev : Event) (after : AppState) : Prop :=
  after = before
  \/ (after = TASK_MODE /\ exists formData, ev = Confirm formData)
  \/ (after = TASKS_COMPLETED /\ exists n result, ev = Settle n result)
  \/ (before = TASKS_COMPLETED /\ after = CHATTING /\ ev = StartNewTask).

End Behaviour.

(* ================================================================== *)
(** ** Further inputs used in the examples *)
(* ================================================================== *)

Module MoreExamples.

(** The text that separates the log from the test case in the prompt. *)
Definition promptSeparator : string := "]. Validate it against this test case: [".

(** The page while the validation of [checkout.log] is running. *)
Definition validating : Runtime.World :=
  App.run Examples.oracle
    [App.Navigate "new-task"; App.Confirm Examples.checkoutForm]
    (Runtime.initial Examples.oracle).

(** What may follow: the user asks for the history, the validation fails,
    the user starts over and sends a question, which is answered. *)
Definition aftermath : list App.Event :=
  [ App.Navigate "history"; App.Settle 0 Examples.networkDown;
    App.StartNewTask; App.Submit "Which log formats can you read?";
    App.Settle 0 (Examples.http200 (Examples.modelReply "Plain text logs.")) ].

(** The payload of the form [Examples.checkoutForm]. *)
Definition checkoutData : EpsConfirmationData.t :=
  {| EpsConfirmationData.pathToFile := "checkout.log";
     EpsConfirmationData.epsLogContent := "10:00:01 req-17 POST /checkout 200";
     EpsConfirmationData.testCaseContent := "StepNo: 1 submit the checkout form";
     EpsConfirmationData.tasksToBeDone := Some ["Validate test case against EPS log"];
     EpsConfirmationData.timestamp := 1700000000000 |}.

(** A completed task whose justification is [text]. *)
Definition judged (text : string) : Task.t :=
  {| Task.id := "1700000000003-k3x9q2a7b";
     Task.description := "Validate test case against EPS log";
     Task.completed := true;
     Task.justification := Some (VString text);
     Task.completedAt := Some 1700000000009;
     Task.epsLogContent := Some "10:00:01 req-17 POST /checkout 200";
     Task.testCaseContent := Some "StepNo: 1 submit the checkout form" |}.

(** An earlier form: three lines, one of them blank. *)
Definition reportForm : EarlierEpsConfirmation.FormData :=
  {| EarlierEpsConfirmation.pathToPdfCsvFile := "sales.csv";
     EarlierEpsConfirmation.tasksList :=
       "  Extract data from tables " ++ LF ++ "   " ++ LF ++ "Generate summary report";
     EarlierEpsConfirmation.timestamp := 1700000000000 |}.

(** A form with a file name and a log of blanks only. *)
Definition blankLogForm : EpsConfirmation.FormData :=
  {| EpsConfirmation.pathToFile := "empty.log";
     EpsConfirmation.epsLogContent := "   ";
     EpsConfirmation.testCaseContent := "StepNo: 1 submit the checkout form";
     EpsConfirmation.timestamp := 1700000000000 |}.

(** The endpoint answers 404 with a JSON error object. *)
Definition modelNotFound : Http.FetchResult :=
  Http.Fulfilled
    {| Http.status := 404;
       Http.text := inr ("{" ++ DQ ++ "error" ++ DQ ++ ":" ++ DQ ++ "model not found" ++ DQ ++ "}");
       Http.json := inr (VObject [("error", VString "model not found")]) |}.

(** What the mock route then answers, and that answer as the earlier
    client receives it. *)
Definition routeAnswer : MockRoute.RouteResponse :=
  {| MockRoute.status := 200;
     MockRoute.payload := [("reply", VString "No reply from model")] |}.

Definition routeAnswerReceived : Http.Response :=
  {| Http.status := 200;
     Http.text := inr ("{" ++ DQ ++ "reply" ++ DQ ++ ":" ++ DQ ++ "No reply from model" ++ DQ ++ "}");
     Http.json := inr (VObject [("reply", VString "No reply from model")]) |}.

(** Filling in the form: two files are chosen, the second one is read
    first; the test case is typed in between. *)
Definition fillingIn : list ConfirmationForm.Event :=
  [ ConfirmationForm.Choose
      (Some {| ConfirmationForm.name := "checkout.log";
               ConfirmationForm.text := "10:00:01 req-17 POST /checkout 200" |});
    ConfirmationForm.Choose
      (Some {| ConfirmationForm.name := "refund.log";
               ConfirmationForm.text := "10:02:40 req-21 POST /refund 200" |});
    ConfirmationForm.ReadSettles 1 ConfirmationForm.Loaded;
    ConfirmationForm.Edit "StepNo: 1 submit the checkout form";
    ConfirmationForm.ReadSettles 0 ConfirmationForm.Loaded ].

(** A form whose file has a name of blanks. *)
Definition blankNameForm : EpsConfirmation.FormData :=
  {| EpsConfirmation.pathToFile := " ";
     EpsConfirmation.epsLogContent := "10:00:01 req-17 POST /checkout 200";
     EpsConfirmation.testCaseContent := "StepNo: 1 submit the checkout form";
     EpsConfirmation.timestamp := 1700000000000 |}.

End MoreExamples.

(* ================================================================== *)
(** * Properties *)
(* ================================================================== *)

(** ** Strings *)

Section StringFacts.

Lemma append_assoc (a b c : string) : (a ++ b) ++ c = a ++ (b ++ c).
Proof.
  induction a as [|x a IH]; simpl; [reflexivity | now rewrite IH].
Qed.

Lemma append_empty_r (a : string) : a ++ EmptyString = a.
Proof.
  induction a as [|x a IH]; simpl; [reflexivity | now rewrite IH].
Qed.

Lemma length_append (a b : string) :
  String.length (a ++ b) = (String.length a + String.length b)%nat.
Proof.
  induction a as [|x a IH]; simpl; [reflexivity | now rewrite IH].
Qed.

Lemma jsLength_append (a b : string) : jsLength (a ++ b) = jsLength a + jsLength b.
Proof.
  unfold jsLength. rewrite length_append. lia.
Qed.

Lemma jsLength_nonneg (a : string) : 0 <= jsLength a.
Proof. unfold jsLength. lia. Qed.

(** The first [n] characters of a string that has at least [n]. *)
Lemma length_substring_0 (n : nat) (s : string) :
  (n <= String.length s)%nat -> String.length (substring 0 n s) = n.
Proof.
  revert s. induction n as [|n IH]; intros [|c s] H; simpl in *; try lia.
  rewrite IH by lia. reflexivity.
Qed.

Lemma substring_0_all (n : nat) (s : string) :
  (String.length s <= n)%nat -> substring 0 n s = s.
Proof.
  revert n. induction s as [|c s IH]; intros [|n] H; simpl in *; try lia; try reflexivity.
  rewrite IH by lia. reflexivity.
Qed.

Lemma substring_0_prefix (n : nat) (s : string) :
  exists rest, s = substring 0 n s ++ rest.
Proof.
  revert s. induction n as [|n IH]; intros [|c s]; simpl.
  - now exists EmptyString.
  - now exists (String c s).
  - now exists EmptyString.
  - destruct (IH s) as [rest E]. exists rest. now rewrite <- E.
Qed.

(** [slice(0, n)] with [0 <= n <= length] keeps exactly [n] characters. *)
Lemma slice_0_inside (s : string) (n : Z) :
  0 <= n <= jsLength s ->
  slice s 0 n = substring 0 (Z.to_nat n) s /\ jsLength (slice s 0 n) = n.
Proof.
  intros [Hn Hlen]. unfold slice, relativeIndex.
  pose proof (jsLength_nonneg s) as Hs.
  replace (0 <? 0) with false by reflexivity.
  destruct (n <? 0) eqn:E; [apply Z.ltb_lt in E; lia |].
  rewrite (Z.min_l 0) by lia. rewrite (Z.min_l n) by lia.
  rewrite Z.sub_0_r, Z.max_l by lia. simpl Z.to_nat at 1.
  split; [reflexivity |].
  unfold jsLength in *. rewrite length_substring_0 by lia. lia.
Qed.

Lemma prefix_append (a b : string) : prefix a (a ++ b) = true.
Proof.
  induction a as [|x a IH]; simpl.
  - destruct b; reflexivity.
  - destruct (ascii_dec x x) as [_|N]; [exact IH | now elim N].
Qed.

(** The boolean test finds every occurrence. *)
Lemma includesb_complete (hay needle : string) :
  includes hay needle -> includesb hay needle = true.
Proof.
  intros (before & after & ->).
  induction before as [|x before IH]; simpl.
  - assert (U : forall h, prefix needle h = true -> includesb h needle = true)
      by (intros [|c h] P; cbn [includesb]; rewrite P; reflexivity).
    apply U, prefix_append.
  - rewrite IH. apply orb_true_r.
Qed.

End StringFacts.

(** ** The content preparer *)

Section ContentPreparer.

Import EpsUtils.

(** The suffix names the original length and the limit. *)
Lemma truncationSuffix_mentions (originalLength maxLength : Z) :
  includes (truncationSuffix originalLength maxLength) (numberToString originalLength)
  /\ includes (truncationSuffix originalLength maxLength) (numberToString maxLength).
Proof.
  unfold truncationSuffix, includes. split.
  - exists ("..." ++ LF ++ "[Content truncated: Original length ").
    eexists. reflexivity.
  - exists ("..." ++ LF ++ "[Content truncated: Original length "
              ++ numberToString originalLength ++ " exceeds limit of ").
    exists " characters. Please use a smaller input or a larger model.]".
    rewrite !append_assoc. reflexivity.
Qed.

(** C4, as amended: for every content and every integer limit,
    [truncateContent] returns the content unchanged when its length is
    at most the limit; otherwise, when the limit is at least 100, it
    returns the first [maxLength - 100] characters of the content
    followed by the suffix, the output's length is
    [maxLength - 100 + length(suffix)], and the suffix contains the
    original length and the limit in decimal. *)
Theorem truncateContent_spec (content : string) (maxLength : Z) :
  (jsLength content <= maxLength ->
     truncateContent content (Some maxLength) = content)
  /\ (maxLength < jsLength content -> 100 <= maxLength ->
        let suffix := truncationSuffix (jsLength content) maxLength in
        truncateContent content (Some maxLength)
          = substring 0 (Z.to_nat (maxLength - 100)) content ++ suffix
        /\ jsLength (substring 0 (Z.to_nat (maxLength - 100)) content) = maxLength - 100
        /\ jsLength (truncateContent content (Some maxLength))
             = maxLength - 100 + jsLength suffix
        /\ includes suffix (numberToString (jsLength content))
        /\ includes suffix (numberToString maxLength)).
Proof.
  split.
  - intros H. unfold truncateContent. apply Z.leb_le in H. now rewrite H.
  - intros Hlong Hmin suffix. unfold truncateContent.
    destruct (jsLength content <=? maxLength) eqn:E; [apply Z.leb_le in E; lia |].
    destruct (slice_0_inside content (maxLength - 100)) as [Hslice Hlen]; [lia |].
    rewrite Hslice in *.
    repeat split.
    + exact Hlen.
    + rewrite jsLength_append, Hlen. reflexivity.
    + apply truncationSuffix_mentions.
    + apply truncationSuffix_mentions.
Qed.

(** Both parts of [truncateContent_spec] at concrete inputs. *)
Lemma truncateContent_spec_witness :
  truncateContent "short log" (Some 100) = "short log"
  /\ jsLength (truncateContent (replicate 130 "x"%char) (Some 120))
     = 120 - 100 + jsLength (truncationSuffix 130 120).
Proof.
  split.
  - apply (proj1 (truncateContent_spec "short log" 100)). vm_compute. discriminate.
  - apply (proj2 (truncateContent_spec (replicate 130 "x"%char) 120)).
    + vm_compute. reflexivity.
    + lia.
Defined.

(** C4 as stated fails below a limit of 100: with a limit of 50 and 200
    characters of content, [slice(0, -50)] keeps the first 150
    characters, so the output is not the first [maxLength - 100]
    characters plus the suffix and its length is not
    [maxLength - 100 + length(suffix)]. *)
Lemma truncateContent_limit_below_100 :
  let content := replicate 200 "a"%char in
  let suffix := truncationSuffix (jsLength content) 50 in
  50 < jsLength content
  /\ truncateContent content (Some 50) = replicate 150 "a"%char ++ suffix
  /\ jsLength (truncateContent content (Some 50)) <> 50 - 100 + jsLength suffix.
Proof.
  vm_compute. repeat split; discriminate.
Qed.

(** C8: when the caller leaves [maxLength] out, the limit applied is
    50000: content of up to 50000 characters is returned unchanged, longer
    content is cut to its first 49900 characters plus the suffix naming
    the limit 50000. *)
Theorem truncateContent_default_limit (content : string) :
  truncateContent content None = truncateContent content (Some 50000)
  /\ truncateContent content None
     = if jsLength content <=? 50000 then content
       else slice content 0 49900 ++ truncationSuffix (jsLength content) 50000.
Proof.
  split; reflexivity.
Qed.

(** The earlier revision of the file applied 10000. *)
Lemma earlier_truncateContent_default_limit (content : string) :
  Earlier.truncateContent content None = Earlier.truncateContent content (Some 10000).
Proof. reflexivity. Qed.

(** C9: the prompt contains the log and the test case as contiguous
    substrings and ends with the fixed user instruction. *)
Theorem buildEpsValidationPrompt_shape (log testCase : string) :
  includes (buildEpsValidationPrompt log testCase) log
  /\ includes (buildEpsValidationPrompt log testCase) testCase
  /\ endsWith (buildEpsValidationPrompt log testCase)
       "User: Validate the test case against the EPS log now.".
Proof.
  unfold buildEpsValidationPrompt, includes, endsWith, userInstruction.
  split; [| split].
  - eexists. eexists. reflexivity.
  - exists ("System: You are an EPS log validator. Parse and analyze the raw EPS log content: ["
              ++ log ++ "]. Validate it against this test case: [").
    eexists. rewrite !append_assoc. reflexivity.
  - eexists.
    repeat (rewrite <- append_assoc). reflexivity.
Qed.

(** The same holds of the earlier revision's prompt. *)
Lemma earlier_buildEpsValidationPrompt_shape (log testCase : string) :
  includes (Earlier.buildEpsValidationPrompt log testCase) log
  /\ includes (Earlier.buildEpsValidationPrompt log testCase) testCase
  /\ endsWith (Earlier.buildEpsValidationPrompt log testCase)
       "User: Validate the test case against the EPS log now.".
Proof.
  unfold Earlier.buildEpsValidationPrompt, includes, endsWith, userInstruction.
  split; [| split].
  - eexists. eexists. reflexivity.
  - exists ("System: You are an EPS log validator. Parse and analyze the following raw EPS log content: ["
              ++ log ++ "]. Validate it against this test case: [").
    eexists. rewrite !append_assoc. reflexivity.
  - eexists.
    repeat (rewrite <- append_assoc). reflexivity.
Qed.

End ContentPreparer.

(** ** The model client *)

Section ModelClient.

Import ChatApi.

Variable St : Type.

(** Whatever the network answers, [sendChatMessage] issues exactly one
    [fetch], carrying the prompt. *)
Lemma sendChatMessage_one_request (request : ChatRequest)
    (answer : Http.Request -> Http.FetchResult) :
  requestsMade (St := St) (sendChatMessage request) answer
  = [chatRequest (VString (promptOf request))].
Proof.
  unfold sendChatMessage, fetch. cbn [bind tryCatch requestsMade].
  f_equal.
  destruct (answer _) as [response | e]; cbn [bind tryCatch requestsMade]; [| reflexivity].
  destruct (Http.ok response); cbn [negb bind tryCatch requestsMade].
  - destruct (Http.json response) as [e | data]; cbn; [reflexivity |].
    destruct (extractReply data); cbn; try reflexivity.
    destruct (nullish data); reflexivity.
  - destruct (Http.text response); reflexivity.
Qed.

(** [sendChatMessage] never rejects. *)
Lemma sendChatMessage_never_rejects (request : ChatRequest)
    (answer : Http.Request -> Http.FetchResult) :
  exists response : ChatResponse,
    resultOf (St := St) (sendChatMessage request) answer = inr response.
Proof.
  unfold sendChatMessage, fetch. cbn [bind tryCatch resultOf].
  destruct (answer _) as [response | e]; cbn [bind tryCatch resultOf]; [| eauto].
  destruct (Http.ok response); cbn [negb bind tryCatch resultOf].
  - destruct (Http.json response) as [e | data]; cbn; [eauto |].
    destruct (extractReply data); cbn; eauto.
    destruct (nullish data); cbn; eauto.
  - destruct (Http.text response); cbn; eauto.
Qed.

(** C10: when [epsLogContent] or [testCaseContent] is missing or empty,
    the one request [sendChatMessage] sends carries exactly the raw
    [message]; when both are non-empty strings it carries the validation
    prompt built from the two truncated contents. *)
Theorem sendChatMessage_prompt_choice (request : ChatRequest)
    (answer : Http.Request -> Http.FetchResult) :
  (epsLogContent request = None \/ epsLogContent request = Some EmptyString
   \/ testCaseContent request = None \/ testCaseContent request = Some EmptyString ->
     requestsMade (St := St) (sendChatMessage request) answer
     = [chatRequest (VString (message request))])
  /\ (forall log testCase,
        epsLogContent request = Some log -> log <> EmptyString ->
        testCaseContent request = Some testCase -> testCase <> EmptyString ->
        requestsMade (St := St) (sendChatMessage request) answer
        = [chatRequest (VString
             (EpsUtils.buildEpsValidationPrompt
                (EpsUtils.truncateContent log None)
                (EpsUtils.truncateContent testCase None)))]).
Proof.
  rewrite sendChatMessage_one_request. unfold promptOf. split.
  - intros [H | [H | [H | H]]]; rewrite H; cbn [present String.eqb negb andb];
      try reflexivity; destruct (present (epsLogContent request)); reflexivity.
  - intros log testCase Hl Hln Ht Htn. rewrite Hl, Ht. cbn [present contentOf].
    apply String.eqb_neq in Hln, Htn. rewrite Hln, Htn. reflexivity.
Qed.

(** C5, as amended: [sendChatMessage] issues one [fetch] and never a
    second one; on a non-success status it does not fail but resolves to
    the fixed apology reply with the [error] field set to
    [HTTP error! status: <code>], or, when reading the body of that
    response fails, to the message of that failure; on a network-level
    failure it resolves to the same apology with the failure's message in
    the [error] field.  The orchestrator's own [callChatAPI] is the one
    that fails in both cases, with the status error and with the network
    failure. *)
Theorem sendChatMessage_reports_failures (request : ChatRequest) (result : Http.FetchResult) :
  requestsMade (St := St) (sendChatMessage request) (fun _ => result)
  = [chatRequest (VString (promptOf request))]
  /\ (forall response,
        result = Http.Fulfilled response ->
        Http.ok response = false ->
        let failure := "HTTP error! status: " ++ numberToString (Http.status response) in
        resultOf (St := St) (sendChatMessage request) (fun _ => result)
        = inr {| reply := connectionApology;
                 error := Some (match Http.text response with
                                | inr errorText => failure
                                | inl unreadable => messageOf unreadable
                                end) |}
        /\ forall mode,
             resultOf (ChatPage.callChatAPI mode (message request)
                         (epsLogContent request) (testCaseContent request))
               (fun _ => result)
             = inl (ErrorObject failure))
  /\ (forall failure,
        result = Http.Rejected failure ->
        resultOf (St := St) (sendChatMessage request) (fun _ => result)
        = inr {| reply := connectionApology; error := Some (messageOf failure) |}
        /\ forall mode,
             resultOf (ChatPage.callChatAPI mode (message request)
                         (epsLogContent request) (testCaseContent request))
               (fun _ => result)
             = inl failure).
Proof.
  split; [apply sendChatMessage_one_request |].
  split.
  - intros response -> Hok failure. split.
    + unfold sendChatMessage, fetch. cbn [bind tryCatch resultOf].
      rewrite Hok. cbn [negb bind tryCatch resultOf].
      destruct (Http.text response); reflexivity.
    + intros mode. unfold ChatPage.callChatAPI, fetch. cbn [bind tryCatch resultOf].
      rewrite Hok. reflexivity.
  - intros failure ->. split; [reflexivity |].
    intros mode. reflexivity.
Qed.

(** The order of the extraction, written out. *)
Lemma extractReply_order (data : value) :
  let nested := optNamed (optNamed data "message") "content" in
  let top := optNamed data "content" in
  let choice := optNamed (optNamed (optFirst (optNamed data "choices")) "message") "content" in
  extractReply data
  = (if truthy nested then nested
     else if truthy top then top
     else VString "No reply from model")
  /\ MockRoute.extractReply data
     = (if truthy nested then nested
        else if truthy top then top
        else if truthy choice then choice
        else VString "No reply from model").
Proof.
  split; reflexivity.
Qed.

(** C6, as amended: on a 2xx response [sendChatMessage] never throws.
    When the body parses to a JSON value other than [null], the reply is
    the first truthy one of [message.content] and [content], and the
    literal [No reply from model] when neither is truthy; when that
    reply is a string it is returned as a successful reply (no [error]
    field).  The mock route checks [choices[0].message.content] as a
    third alternative and returns whatever value the chain produces.
    When the body is not JSON, [sendChatMessage] still does not throw:
    it resolves to the apology reply with the [error] field set. *)
Theorem sendChatMessage_on_2xx (request : ChatRequest) (response : Http.Response) :
  Http.ok response = true ->
  let outcome :=
    resultOf (St := St) (sendChatMessage request) (fun _ => Http.Fulfilled response) in
  (exists r, outcome = inr r)
  /\ (forall data text,
        Http.json response = inr data ->
        nullish data = false ->
        extractReply data = VString text ->
        outcome = inr {| reply := text; error := None |})
  /\ (forall data,
        extractReply data
        = (if truthy (optNamed (optNamed data "message") "content")
           then optNamed (optNamed data "message") "content"
           else if truthy (optNamed data "content")
                then optNamed data "content"
                else VString "No reply from model"))
  /\ (forall data,
        Http.json response = inr data ->
        resultOf (St := St) (MockRoute.POST (inr (VObject [("message", VString (message request))])))
          (fun _ => Http.Fulfilled response)
        = inr {| MockRoute.status := 200;
                 MockRoute.payload := [("reply", MockRoute.extractReply data)] |}
        /\ MockRoute.extractReply data
           = (if truthy (optNamed (optNamed data "message") "content")
              then optNamed (optNamed data "message") "content"
              else if truthy (optNamed data "content")
                   then optNamed data "content"
                   else if truthy (optNamed (optNamed (optFirst (optNamed data "choices")) "message") "content")
                        then optNamed (optNamed (optFirst (optNamed data "choices")) "message") "content"
                        else VString "No reply from model"))
  /\ (forall failure,
        Http.json response = inl failure ->
        outcome = inr {| reply := connectionApology; error := Some (messageOf failure) |}).
Proof.
  intros Hok outcome. subst outcome.
  split; [apply sendChatMessage_never_rejects |].
  split; [| split; [| split]].
  - intros data text Hjson Hnull Hreply.
    unfold sendChatMessage, fetch. cbn [bind tryCatch resultOf].
    rewrite Hok. cbn [negb bind tryCatch resultOf].
    rewrite Hjson. cbn [settled bind tryCatch resultOf].
    rewrite Hreply. cbn [logResponseReceived]. rewrite Hnull. reflexivity.
  - intros data. reflexivity.
  - intros data Hjson. split; [| reflexivity].
    unfold MockRoute.POST, fetch. cbn. rewrite Hjson. reflexivity.
  - intros failure Hjson.
    unfold sendChatMessage, fetch. cbn [bind tryCatch resultOf].
    rewrite Hok. cbn [negb bind tryCatch resultOf].
    rewrite Hjson. reflexivity.
Qed.

End ModelClient.

Section ModelClientExamples.

Import ChatApi.

(** C10 at a request without a log and at one with both contents. *)
Lemma sendChatMessage_prompt_choice_witness :
  requestsMade (St := unit) (sendChatMessage Examples.chatOnly) (fun _ => Examples.networkDown)
  = [chatRequest (VString "hello")]
  /\ requestsMade (St := unit) (sendChatMessage Examples.validation) (fun _ => Examples.networkDown)
     = [chatRequest (VString
          (EpsUtils.buildEpsValidationPrompt
             (EpsUtils.truncateContent "10:00:01 req-17 POST /checkout 200" None)
             (EpsUtils.truncateContent "StepNo: 1 submit the checkout form" None)))].
Proof.
  split.
  - apply (proj1 (sendChatMessage_prompt_choice unit Examples.chatOnly _)).
    left. reflexivity.
  - apply (proj2 (sendChatMessage_prompt_choice unit Examples.validation _));
      [reflexivity | discriminate | reflexivity | discriminate].
Defined.

(** C5 at a 500 response and at an unreachable endpoint. *)
Lemma sendChatMessage_reports_failures_witness :
  resultOf (St := unit) (sendChatMessage Examples.chatOnly) (fun _ => Examples.http500)
  = inr {| reply := connectionApology; error := Some "HTTP error! status: 500" |}
  /\ resultOf (ChatPage.callChatAPI CHATTING "hello" None
               (Some "StepNo: 1 submit the checkout form"))
     (fun _ => Examples.http500)
   = inl (ErrorObject "HTTP error! status: 500")
  /\ resultOf (St := unit) (sendChatMessage Examples.chatOnly) (fun _ => Examples.networkDown)
   = inr {| reply := connectionApology; error := Some "Failed to fetch" |}.
Proof.
destruct (sendChatMessage_reports_failures unit Examples.chatOnly Examples.http500)
  as (_ & A & _).
destruct (A _ eq_refl eq_refl) as [A1 A2].
destruct (sendChatMessage_reports_failures unit Examples.chatOnly Examples.networkDown)
  as (_ & _ & B).
destruct (B _ eq_refl) as [B1 _].
split; [exact A1 |]. split; [exact (A2 CHATTING) | exact B1].
Defined.

(** C5 as stated fails: on a 500 response, and when the endpoint cannot
    be reached, [sendChatMessage] resolves to an ordinary reply object
    instead of failing. *)
Lemma sendChatMessage_resolves_on_failure :
  resultOf (St := unit) (sendChatMessage Examples.chatOnly) (fun _ => Examples.http500)
  = inr {| reply := connectionApology; error := Some "HTTP error! status: 500" |}
  /\ resultOf (St := unit) (sendChatMessage Examples.chatOnly) (fun _ => Examples.networkDown)
     = inr {| reply := connectionApology; error := Some "Failed to fetch" |}
  /\ (forall e, resultOf (St := unit) (sendChatMessage Examples.chatOnly)
                  (fun _ => Examples.http500) <> inl e)
  /\ (forall e, resultOf (St := unit) (sendChatMessage Examples.chatOnly)
                  (fun _ => Examples.networkDown) <> inl e).
Proof.
  repeat split; try reflexivity; intros e; discriminate.
Qed.

(** C6 at a well-formed reply and at an object without any reply
    field. *)
Lemma sendChatMessage_on_2xx_witness :
  resultOf (St := unit) (sendChatMessage Examples.chatOnly)
    (fun _ => Examples.http200 (Examples.modelReply "Hi there"))
  = inr {| reply := "Hi there"; error := None |}
  /\ resultOf (St := unit) (sendChatMessage Examples.chatOnly)
       (fun _ => Examples.http200 (VObject [("done", VBool true)]))
     = inr {| reply := "No reply from model"; error := None |}
  /\ resultOf (St := unit) (sendChatMessage Examples.chatOnly)
       (fun _ => Examples.http200NotJson)
     = inr {| reply := connectionApology;
              error := Some "Unexpected token < in JSON at position 0" |}.
Proof.
  split; [| split].
  - refine (proj1 (proj2 (sendChatMessage_on_2xx unit Examples.chatOnly _ _))
              (Examples.modelReply "Hi there") "Hi there" _ _ _); reflexivity.
  - refine (proj1 (proj2 (sendChatMessage_on_2xx unit Examples.chatOnly _ _))
              (VObject [("done", VBool true)]) "No reply from model" _ _ _); reflexivity.
  - refine (proj2 (proj2 (proj2 (proj2 (sendChatMessage_on_2xx unit Examples.chatOnly _ _))))
              (ErrorObject "Unexpected token < in JSON at position 0") _); reflexivity.
Defined.

(** C6 as stated fails: a 2xx response whose body is not JSON has none
    of the reply fields, yet the result is not the placeholder reply but
    the apology, with the [error] field set. *)
Lemma sendChatMessage_2xx_not_json :
  let outcome := resultOf (St := unit) (sendChatMessage Examples.chatOnly)
                   (fun _ => Examples.http200NotJson) in
  outcome = inr {| reply := connectionApology;
                   error := Some "Unexpected token < in JSON at position 0" |}
  /\ outcome <> inr {| reply := "No reply from model"; error := None |}.
Proof.
  split; [reflexivity | discriminate].
Qed.

(** Two more 2xx bodies that end in the catch block, because an argument
    of the [console.log] after the extraction throws: the JSON value
    [null] (reading [data.error]) and a [message.content] that is not a
    string (calling [reply.substring]). *)
Lemma sendChatMessage_2xx_null_or_untyped :
  resultOf (St := unit) (sendChatMessage Examples.chatOnly)
  (fun _ => Examples.http200 VNull)
  = inr {| reply := connectionApology;
         error := Some "Cannot read properties of null (reading 'error')" |}
  /\ resultOf (St := unit) (sendChatMessage Examples.chatOnly)
     (fun _ => Examples.http200 (VObject [("message", VObject [("content", VNumber 42)])]))
   = inr {| reply := connectionApology;
            error := Some "reply.substring is not a function" |}
  /\ resultOf (St := unit) (MockRoute.POST (inr (VObject [("message", VString "hello")])))
     (fun _ => Examples.http200 (VObject [("choices",
        VArray [VObject [("message", VObject [("content", VString "Hi there")])]])]))
   = inr {| MockRoute.status := 200;
            MockRoute.payload := [("reply", VString "Hi there")] |}.
Proof.
repeat split.
Qed.

End ModelClientExamples.

(** ** Test-case detection *)

Section Detection.

Import RegExp.

Lemma canonicalize_idempotent (c : ascii) : canonicalize (canonicalize c) = canonicalize c.
Proof.
destruct c as [[] [] [] [] [] [] [] []]; reflexivity.
Qed.

Lemma isWordChar_canonicalize (c : ascii) : isWordChar (canonicalize c) = isWordChar c.
Proof.
destruct c as [[] [] [] [] [] [] [] []]; reflexivity.
Qed.

Lemma canonicalize_lowerChar (c : ascii) : canonicalize (lowerChar c) = canonicalize c.
Proof.
destruct c as [[] [] [] [] [] [] [] []]; reflexivity.
Qed.

Lemma isWordChar_same (a b : ascii) :
  canonicalize a = canonicalize b -> isWordChar a = isWordChar b.
Proof.
intros H. rewrite <- (isWordChar_canonicalize a), <- (isWordChar_canonicalize b).
now rewrite H.
Qed.

Lemma sameChar_true (c a : ascii) :
  sameChar true c a = true <-> canonicalize c = canonicalize a.
Proof.
unfold sameChar. apply Ascii.eqb_eq.
Qed.

Lemma sameUpToCase_refl (s : string) : sameUpToCase s s.
Proof.
induction s as [|c s IH]; simpl; auto.
Qed.

Lemma sameUpToCase_sym (s t : string) : sameUpToCase s t -> sameUpToCase t s.
Proof.
revert t. induction s as [|a s IH]; intros [|b t]; simpl; auto.
intros [E H]. split; [now symmetry | now apply IH].
Qed.

Lemma sameUpToCase_trans (s t u : string) :
  sameUpToCase s t -> sameUpToCase t u -> sameUpToCase s u.
Proof.
revert t u. induction s as [|a s IH]; intros [|b t] [|c u]; simpl; try tauto.
intros [E1 H1] [E2 H2]. split; [congruence | eapply IH; eassumption].
Qed.

Lemma sameUpToCase_lower (s : string) : sameUpToCase s (mapChars lowerChar s).
Proof.
induction s as [|c s IH]; simpl; [exact I |].
split; [now rewrite canonicalize_lowerChar | exact IH].
Qed.

(** A string equal up to case to a concatenation splits the same way. *)
Lemma sameUpToCase_split (a b t : string) :
  sameUpToCase (a ++ b) t ->
  exists a' b', t = a' ++ b' /\ sameUpToCase a a' /\ sameUpToCase b b'.
Proof.
revert t. induction a as [|x a IH]; intros t H.
- exists EmptyString, t. simpl. auto.
- destruct t as [|y t]; simpl in H; [contradiction |].
  destruct H as [E H]. destruct (IH t H) as (a' & b' & -> & Ha & Hb).
  exists (String y a'), b'. simpl. auto.
Qed.

Lemma sameUpToCase_next (s t : string) :
  sameUpToCase s t -> isWordAt (next s) = isWordAt (next t).
Proof.
destruct s as [|a s], t as [|b t]; simpl; try tauto.
intros [E _]. now apply isWordChar_same.
Qed.

Lemma sameUpToCase_lastChar (s t : string) (p q : option ascii) :
  sameUpToCase s t -> isWordAt p = isWordAt q ->
  isWordAt (lastChar p s) = isWordAt (lastChar q t).
Proof.
revert t p q. induction s as [|a s IH]; intros [|b t] p q; simpl; try tauto.
intros [E H] _. apply IH; [exact H |]. simpl. now apply isWordChar_same.
Qed.

(** [literal lit] reads the characters of [lit] and goes on. *)
Lemma matcher_literal (i : bool) (lit : string) (prev : option ascii) (rest : string)
  (k : option ascii -> string -> bool) :
  matcher i (literal lit) prev rest k
  = match afterLiteral i lit prev rest with
  | Some (p, r) => k p r
  | None => false
  end.
Proof.
revert prev rest. induction lit as [|c lit IH]; intros prev rest; simpl.
- reflexivity.
- destruct rest as [|a rest]; [reflexivity |].
  destruct (sameChar i c a); simpl; [apply IH | reflexivity].
Qed.

Lemma afterLiteral_sound (lit : string) (prev : option ascii) (rest : string)
  (p : option ascii) (r : string) :
  afterLiteral true lit prev rest = Some (p, r) ->
  exists found, rest = found ++ r /\ sameUpToCase lit found /\ p = lastChar prev found.
Proof.
revert prev rest. induction lit as [|c lit IH]; intros prev rest; cbn [afterLiteral].
- intros [= -> ->]. exists EmptyString. simpl. auto.
- destruct rest as [|a rest]; [discriminate |].
  destruct (sameChar true c a) eqn:E; [| discriminate].
  intros H. destruct (IH _ _ H) as (found & -> & Hs & ->).
  exists (String a found). apply sameChar_true in E. simpl. auto.
Qed.

Lemma afterLiteral_complete (lit found : string) (prev : option ascii) (r : string) :
  sameUpToCase lit found ->
  afterLiteral true lit prev (found ++ r) = Some (lastChar prev found, r).
Proof.
revert found prev. induction lit as [|c lit IH]; intros [|a found] prev;
  cbn [afterLiteral sameUpToCase append lastChar]; try tauto.
intros [E H]. apply sameChar_true in E. rewrite E. now apply IH.
Qed.

(** The search loop finds a match exactly when the pattern matches at
    some index. *)
Lemma searchFrom_spec (i : bool) (p : pattern) (prev : option ascii) (rest : string) :
  searchFrom i p prev rest = true <->
  exists before after,
  rest = before ++ after
  /\ matcher i p (lastChar prev before) after (fun _ _ => true) = true.
Proof.
revert prev. induction rest as [|a rest IH]; intros prev; simpl.
- rewrite orb_false_r. split.
  + intros H. exists EmptyString, EmptyString. auto.
  + intros (before & after & E & H).
    destruct before; [| discriminate]. destruct after; [| discriminate]. exact H.
- rewrite orb_true_iff, IH. split.
  + intros [H | (before & after & -> & H)].
    * exists EmptyString, (String a rest). auto.
    * exists (String a before), after. auto.
  + intros (before & after & E & H). destruct before as [|b before].
    * left. simpl in E. subst after. exact H.
    * right. simpl in E. injection E as -> ->. exists before, after. auto.
Qed.

(** The position before [after] in [before ++ after]. *)
Lemma lastChar_nonempty (found : string) (p q : option ascii) :
  found <> EmptyString -> lastChar p found = lastChar q found.
Proof.
destruct found as [|a found]; [congruence | reflexivity].
Qed.

(** A run equal to [StepNo] up to case ends in a word character. *)
Lemma StepNo_ends_in_word (found : string) (prev : option ascii) :
  sameUpToCase "StepNo" found -> isWordAt (lastChar prev found) = true.
Proof.
intros H.
rewrite (sameUpToCase_lastChar found "StepNo" prev prev);
  [reflexivity | now apply sameUpToCase_sym | reflexivity].
Qed.

(** What the pattern of the source matches at one position. *)
Lemma testCasePattern_here (prev : option ascii) (rest : string) :
  matcher true testCasePattern prev rest (fun _ _ => true) = true <->
  (exists found after, rest = found ++ after /\ sameUpToCase "{TestCaseID" found)
  \/ (exists found after, rest = found ++ after /\ sameUpToCase "StepNo" found
                        /\ isWordAt (next after) = false)
  \/ (exists found after, rest = found ++ after /\ sameUpToCase "<StepNo" found).
Proof.
unfold testCasePattern. cbn [matcher].
rewrite !matcher_literal, !orb_true_iff. split.
- intros [H | [H | H]].
  + destruct (afterLiteral true "{TestCaseID" prev rest) as [[p r] |] eqn:E; [| discriminate].
    apply afterLiteral_sound in E. destruct E as (found & -> & Hs & _).
    left. eauto.
  + destruct (afterLiteral true "StepNo" prev rest) as [[p r] |] eqn:E; [| discriminate].
    apply afterLiteral_sound in E. destruct E as (found & -> & Hs & ->).
    right; left. exists found, r. repeat split; auto.
    rewrite andb_true_r in H. rewrite (StepNo_ends_in_word found prev Hs) in H.
    destruct (isWordAt (next r)); [discriminate | reflexivity].
  + destruct (afterLiteral true "<StepNo" prev rest) as [[p r] |] eqn:E; [| discriminate].
    apply afterLiteral_sound in E. destruct E as (found & -> & Hs & _).
    right; right. eauto.
- intros [(found & after & -> & Hs) | [(found & after & -> & Hs & Hw) | (found & after & -> & Hs)]].
  + left. now rewrite (afterLiteral_complete _ _ prev after Hs).
  + right; left. rewrite (afterLiteral_complete _ _ prev after Hs).
    now rewrite (StepNo_ends_in_word found prev Hs), Hw.
  + right; right. now rewrite (afterLiteral_complete _ _ prev after Hs).
Qed.

(** The detection predicate, in terms of occurrences of the three
    tokens. *)
Lemma isTestCase_iff (s : string) :
  isTestCase s = true <->
  occursIgnoringCase "{TestCaseID" s
  \/ occursAtWordEnd "StepNo" s
  \/ occursIgnoringCase "<StepNo" s.
Proof.
unfold isTestCase, test. rewrite searchFrom_spec.
unfold occursIgnoringCase, occursAtWordEnd. split.
- intros (before & rest & -> & H). apply testCasePattern_here in H.
  destruct H as [(f & a & -> & Hs) | [(f & a & -> & Hs & Hw) | (f & a & -> & Hs)]].
  + left. exists before, f, a. auto.
  + right; left. exists before, f, a. auto.
  + right; right. exists before, f, a. auto.
- intros [(b & f & a & -> & Hs) | [(b & f & a & -> & Hs & Hw) | (b & f & a & -> & Hs)]];
    exists b, (f ++ a); (split; [reflexivity |]); apply testCasePattern_here.
  + left. eauto.
  + right; left. eauto.
  + right; right. eauto.
Qed.

(** Occurrences carry over to a string that differs in case only. *)
Lemma occursIgnoringCase_same (token s t : string) :
  sameUpToCase s t -> occursIgnoringCase token s -> occursIgnoringCase token t.
Proof.
intros Hst (b & f & a & -> & Hs).
apply sameUpToCase_split in Hst. destruct Hst as (b' & fa' & -> & Hb & Hfa).
apply sameUpToCase_split in Hfa. destruct Hfa as (f' & a' & -> & Hf & Ha).
exists b', f', a'. split; [reflexivity |]. eapply sameUpToCase_trans; eassumption.
Qed.

Lemma occursAtWordEnd_same (token s t : string) :
  sameUpToCase s t -> occursAtWordEnd token s -> occursAtWordEnd token t.
Proof.
intros Hst (b & f & a & -> & Hs & Hw).
apply sameUpToCase_split in Hst. destruct Hst as (b' & fa' & -> & Hb & Hfa).
apply sameUpToCase_split in Hfa. destruct Hfa as (f' & a' & -> & Hf & Ha).
exists b', f', a'. split; [reflexivity |]. split.
- eapply sameUpToCase_trans; eassumption.
- now rewrite <- (sameUpToCase_next a a' Ha).
Qed.

Lemma isTestCase_same (s t : string) :
  sameUpToCase s t -> isTestCase s = isTestCase t.
Proof.
intros H. apply eq_true_iff_eq. rewrite !isTestCase_iff.
pose proof (sameUpToCase_sym _ _ H) as H'.
split; intros [A | [B | C]];
  eauto using occursIgnoringCase_same, occursAtWordEnd_same.
Qed.

(** Searching for a literal decides whether it occurs. *)
Lemma occursIgnoringCase_test (token s : string) :
  occursIgnoringCase token s <-> test true (literal token) s = true.
Proof.
unfold test, occursIgnoringCase. rewrite searchFrom_spec. split.
- intros (b & f & a & -> & Hs). exists b, (f ++ a). split; [reflexivity |].
  rewrite matcher_literal. now rewrite (afterLiteral_complete _ _ _ a Hs).
- intros (b & rest & -> & H). rewrite matcher_literal in H.
  destruct (afterLiteral true token (lastChar None b) rest) as [[p r] |] eqn:E; [| discriminate].
  apply afterLiteral_sound in E. destruct E as (f & -> & Hs & _).
  exists b, f, r. auto.
Qed.

(** An occurrence as a whole word, and an occurrence after [<], are
    occurrences; so is one at a word end. *)
Lemma occursAsWord_atWordEnd (token s : string) :
  occursAsWord token s -> occursAtWordEnd token s.
Proof.
intros (b & f & a & E & Hs & _ & Hw). exists b, f, a. auto.
Qed.

Lemma occursAtWordEnd_occurs (token s : string) :
  occursAtWordEnd token s -> occursIgnoringCase token s.
Proof.
intros (b & f & a & E & Hs & _). exists b, f, a. auto.
Qed.

Lemma occurs_after_first (c : ascii) (token s : string) :
  occursIgnoringCase (String c token) s -> occursIgnoringCase token s.
Proof.
intros (b & f & a & -> & Hs). destruct f as [|x f]; simpl in Hs; [contradiction |].
destruct Hs as [_ Hs]. exists (b ++ String x EmptyString), f, a.
split; [| exact Hs]. rewrite append_assoc. reflexivity.
Qed.

(** C7: the detection predicate ignores the case of letters; it is true
    of every input that contains [{TestCaseID], or [StepNo] at a word
    boundary (no word character after it; in particular [StepNo] as a
    whole word), or [<StepNo], in any case; it is true of the three sample
    inputs; and it is false of an input that contains none of these
    tokens, in particular of prose in which neither [{TestCaseID] nor
    [StepNo] occurs at all. *)
Theorem isTestCase_detects :
  (forall s t, sameUpToCase s t -> isTestCase s = isTestCase t)
  /\ (forall s, isTestCase (mapChars lowerChar s) = isTestCase s)
  /\ (forall s, occursIgnoringCase "{TestCaseID" s -> isTestCase s = true)
  /\ (forall s, occursAtWordEnd "StepNo" s -> isTestCase s = true)
  /\ (forall s, occursAsWord "StepNo" s -> isTestCase s = true)
  /\ (forall s, occursIgnoringCase "<StepNo" s -> isTestCase s = true)
  /\ isTestCase ("{TestCaseID: " ++ DQ ++ "TC1" ++ DQ ++ "}") = true
  /\ isTestCase "StepNo: 1" = true
  /\ isTestCase "<StepNo>1</StepNo>" = true
  /\ (forall s, ~ occursIgnoringCase "{TestCaseID" s ->
              ~ occursAtWordEnd "StepNo" s ->
              ~ occursIgnoringCase "<StepNo" s ->
              isTestCase s = false)
  /\ (forall s, ~ occursIgnoringCase "{TestCaseID" s ->
              ~ occursIgnoringCase "StepNo" s ->
              isTestCase s = false)
  /\ isTestCase "Could you summarise yesterday's deployment for me?" = false.
Proof.
assert (N : forall s, ~ occursIgnoringCase "{TestCaseID" s ->
                      ~ occursAtWordEnd "StepNo" s ->
                      ~ occursIgnoringCase "<StepNo" s ->
                      isTestCase s = false).
{ intros s H1 H2 H3. destruct (isTestCase s) eqn:E; [| reflexivity].
  apply isTestCase_iff in E. tauto. }
repeat split; try reflexivity.
- apply isTestCase_same.
- intros s. symmetry. apply isTestCase_same, sameUpToCase_lower.
- intros s H. apply isTestCase_iff. auto.
- intros s H. apply isTestCase_iff. auto.
- intros s H. apply isTestCase_iff. auto using occursAsWord_atWordEnd.
- intros s H. apply isTestCase_iff. auto.
- exact N.
- intros s H1 H2. apply N; [exact H1 | |].
  + intros H. apply H2. now apply occursAtWordEnd_occurs.
  + intros H. apply H2. now apply occurs_after_first in H.
Qed.

(** C7 at inputs in upper and lower case, at a token in the middle of a
    sentence, and at prose. *)
Lemma isTestCase_detects_witness :
  isTestCase "STEPNO: 1" = isTestCase "stepno: 1"
  /\ isTestCase "please run {testcaseid 7 now" = true
  /\ isTestCase "the StepNo is missing" = true
  /\ isTestCase "see <stepnotes>" = true
  /\ isTestCase "What is the weather like today?" = false.
Proof.
destruct isTestCase_detects as (A & _ & B & C & D & E & _ & _ & _ & _ & F & _).
split; [| split; [| split; [| split]]].
- apply A. vm_compute. tauto.
- apply B. exists "please run ", "{testcaseid", " 7 now".
  split; [reflexivity | vm_compute; tauto].
- apply D. exists "the ", "StepNo", " is missing".
  split; [reflexivity | split; [vm_compute; tauto | split; reflexivity]].
- apply E. exists "see ", "<stepno", "tes>".
  split; [reflexivity | vm_compute; tauto].
- apply F; intros H; apply occursIgnoringCase_test in H; vm_compute in H; discriminate.
Defined.

End Detection.

(** ** The orchestrator *)

Section Orchestrator.

Import ChatPage Runtime App.

Variable o : Oracle.

(** Unfold the handlers and run them on a world given by its fields. *)
Ltac run_code :=
  cbv [exec bind tryCatch tryFinally settled
       handleSendMessage handleFileConfirmation processEpsValidation callChatAPI
       handleSidebarNavigation handleStartNewTask onTestCaseDetected onCancel
       addMessage generateId newDate fetch
       setCurrentFile setShowConfirmation setAppState setTasks setCompletedTasksCount
       setMessages setIsLoading setCompletionTimestamp toast
       store toasts requests pending reads
       appState messages tasks completedTasksCount currentFile isLoading
       showConfirmation completionTimestamp
       Task.id Task.completed Task.justification Task.completedAt Task.description
       Task.epsLogContent Task.testCaseContent completeTask
       ChatReply.chatResponse ChatReply.stateUpdate negb].


(** C3: while the busy flag is set, sending a message changes nothing:
    the world after [handleSendMessage] is the world before it, so the
    message list has the same length, no request has been issued and none
    is newly awaited; the input form's submit handler does nothing
    either. *)
Theorem handleSendMessage_busy_noop (w : World) (messageContent : string) :
  isLoading (store w) = true ->
  let w' := exec o (handleSendMessage (isLoading (store w)) (appState (store w))
                    messageContent) w in
  w' = w
  /\ List.length (messages (store w')) = List.length (messages (store w))
  /\ requests w' = requests w
  /\ pending w' = pending w
  /\ step o w (Submit messageContent) = w.
Proof.
intros busy w'. subst w'. rewrite busy. cbn [handleSendMessage exec].
repeat split.
unfold step, ChatInterface.handleSubmit. rewrite busy, orb_true_r. reflexivity.
Qed.

(** *** The mode invariant on the serialised page *)

Lemma serialInvariant_modeInvariant (w : World) :
  serialInvariant o w -> modeInvariant (store w).
Proof.
unfold serialInvariant, atRest, modeInvariant.
intros [(_ & _ & R) | [(_ & R & _) | (_ & M & k & task & _ & T & C & _)]].
- destruct R as [[-> T] | [-> T]]; assumption.
- destruct R as [[-> T] | [-> T]]; assumption.
- rewrite M, T. split; [discriminate |]. unfold allCompleted. cbn. now rewrite C.
Qed.

Lemma serialInvariant_sameCore (w w' : World) :
  sameCore w w' -> serialInvariant o w -> serialInvariant o w'.
Proof.
unfold sameCore, serialInvariant, atRest.
intros (A & T & L & P). rewrite A, T, L, P. exact (fun H => H).
Qed.

Lemma sameCore_refl (w : World) : sameCore w w.
Proof. unfold sameCore. auto. Qed.

Lemma sameCore_trans (w1 w2 w3 : World) :
  sameCore w1 w2 -> sameCore w2 w3 -> sameCore w1 w3.
Proof.
unfold sameCore. intros (A & T & L & P) (A' & T' & L' & P').
rewrite A', T', L', P'. auto.
Qed.

Lemma initial_serialInvariant : serialInvariant o (initial o).
Proof.
left. cbn. unfold atRest. cbn. auto.
Qed.

(** The handlers that only touch the messages, the toasts and the form. *)
Lemma sidebar_sameCore (w : World) (n : Z) (action : string) :
  sameCore w (exec o (handleSidebarNavigation n action) w).
Proof.
destruct w as [[a m t c f l sc ct] ts rq pd rd].
unfold handleSidebarNavigation, sameCore.
repeat match goal with
       | |- context [if ?b then _ else _] => destruct b
       end; run_code; auto.
Qed.

Lemma onCancel_sameCore (w : World) : sameCore w (exec o onCancel w).
Proof.
destruct w as [[a m t c f l sc ct] ts rq pd rd]. unfold sameCore. run_code. auto.
Qed.

Lemma onTestCaseDetected_sameCore (w : World) : sameCore w (exec o onTestCaseDetected w).
Proof.
destruct w as [[a m t c f l sc ct] ts rq pd rd]. unfold sameCore. run_code. auto.
Qed.

(** [handleSendMessage] on an idle page: either the test-case branch,
    which leaves the core alone, or one request with a chat
    continuation. *)
Lemma handleSendMessage_idle (w : World) (mode : AppState) (content : string) :
  isLoading (store w) = false ->
  let w' := exec o (handleSendMessage false mode content) w in
  sameCore w w'
  \/ (appState (store w') = appState (store w)
    /\ tasks (store w') = tasks (store w)
    /\ isLoading (store w') = true
    /\ exists k, pending w' = (pending w ++ [k])%list /\ resumesChat o k).
Proof.
destruct w as [[a m t c f l sc ct] ts rq pd rd]. cbn [store isLoading].
intros ->. cbv zeta. unfold handleSendMessage.
destruct (RegExp.isTestCase content).
- left. unfold sameCore. run_code. auto.
- right. run_code. repeat split.
  eexists. split; [reflexivity |].
  intros r [[a' m' t' c' f' l' sc' ct'] ts' rq' pd' rd'].
  destruct r as [response | e]; run_code.
  + destruct (Http.ok response); run_code.
    * destruct (Http.json response) as [e | body]; run_code; auto.
    * auto.
  + auto.
Qed.

(** [handleFileConfirmation] on an idle page: the mode becomes
    [TASK_MODE], the collection holds the one new task, and one request
    is parked with a validation continuation for that task. *)
Lemma handleFileConfirmation_idle (w : World) (mode : AppState)
  (data : EpsConfirmationData.t) :
  let w' := exec o (handleFileConfirmation mode data) w in
  isLoading (store w') = true
  /\ appState (store w') = TASK_MODE
  /\ exists k task,
     pending w' = (pending w ++ [k])%list
     /\ tasks (store w') = [task]
     /\ Task.completed task = false
     /\ resumesValidation o (Task.id task) k.
Proof.
destruct w as [[a m t c f l sc ct] ts rq pd rd]. cbv zeta.
run_code. repeat split.
eexists. eexists. split; [reflexivity |]. split; [reflexivity |]. split; [reflexivity |].
intros r [[a' m' t' c' f' l' sc' ct'] ts' rq' pd' rd'].
destruct r as [response | e]; run_code.
- destruct (Http.ok response); run_code.
  + destruct (Http.json response) as [e | body]; run_code; repeat split; eauto.
  + repeat split; eauto.
- repeat split; eauto.
Qed.

Lemma handleStartNewTask_resets (w : World) :
  let w' := exec o handleStartNewTask w in
  appState (store w') = CHATTING
  /\ tasks (store w') = []
  /\ isLoading (store w') = isLoading (store w)
  /\ pending w' = pending w.
Proof.
destruct w as [[a m t c f l sc ct] ts rq pd rd]. cbv zeta. run_code. auto.
Qed.

(** Every event of the serialised page keeps [serialInvariant]. *)
Lemma stepGuarded_serialInvariant (w : World) (ev : Event) :
  serialInvariant o w -> serialInvariant o (stepGuarded o w ev).
Proof.
intros Inv. destruct ev as [input | action | formData | | | n result]; cbn [stepGuarded].
- (* Submit *)
  unfold step, ChatInterface.handleSubmit.
  destruct (String.eqb (trim input) EmptyString); [exact Inv |].
  destruct (isLoading (store w)) eqn:L; [exact Inv |]. cbn [orb].
  assert (Sent : serialInvariant o
                   (exec o (handleSendMessage false (appState (store w)) (trim input)) w)).
  { destruct (handleSendMessage_idle w (appState (store w)) (trim input) L)
      as [Same | (A & T & L' & k & P & K)].
    - exact (serialInvariant_sameCore _ _ Same Inv).
    - destruct Inv as [(_ & P0 & R) | [(L0 & _) | (L0 & _)]]; try congruence.
      right; left. rewrite P0 in P. unfold atRest. rewrite A, T.
      split; [exact L' |]. split; [exact R |]. exists k. auto. }
  destruct (RegExp.isTestCase input); [| exact Sent].
  exact (serialInvariant_sameCore _ _ (onTestCaseDetected_sameCore _) Sent).
- (* Navigate *)
  exact (serialInvariant_sameCore _ _ (sidebar_sameCore _ _ _) Inv).
- (* Confirm *)
  destruct (isLoading (store w)) eqn:L; [exact Inv |].
  unfold step. destruct (showConfirmation (store w)); [| exact Inv].
  destruct (EpsConfirmation.handleSubmit formData) as [alert | data]; [exact Inv |].
  destruct (handleFileConfirmation_idle w (appState (store w)) data)
    as (L' & A & k & task & P & T & C & K).
  destruct Inv as [(_ & P0 & R) | [(L0 & _) | (L0 & _)]]; try congruence.
  right; right. rewrite P0 in P. split; [exact L' |]. split; [exact A |].
  exists k, task. auto.
- (* Cancel *)
  unfold step. destruct (showConfirmation (store w)); [| exact Inv].
  exact (serialInvariant_sameCore _ _ (onCancel_sameCore _) Inv).
- (* StartNewTask *)
  unfold step. destruct (appState (store w)) eqn:A; try exact Inv.
  destruct (handleStartNewTask_resets w) as (A' & T' & L' & P').
  unfold serialInvariant, atRest. rewrite A', T', L', P'.
  destruct Inv as [(L0 & P0 & _) | [(L0 & _ & K) | (_ & A0 & _)]].
  + left. auto.
  + right; left. auto.
  + congruence.
- (* Settle *)
  unfold step.
  destruct Inv as [(L0 & P0 & R) | [(L0 & R & k & P0 & K) | (L0 & A0 & k & task & P0 & T0 & C0 & K)]];
    rewrite P0.
  + destruct n; cbn [nth_error]; left; auto.
  + destruct n as [|n]; cbn [nth_error].
    * destruct (K result (withoutPending 0 w)) as (A' & T' & L' & P').
      left. unfold atRest. rewrite A', T', L', P'.
      unfold withoutPending. cbn [store pending]. rewrite P0. cbn. auto.
    * destruct n; cbn [nth_error]; right; left; eauto.
  + destruct n as [|n]; cbn [nth_error].
    * destruct (K result (withoutPending 0 w)) as (A' & (j & at_ & T') & L' & P').
      left. unfold atRest. rewrite A', T', L', P'.
      unfold withoutPending. cbn [store pending]. rewrite P0, T0. cbn.
      rewrite String.eqb_refl. cbn.
      split; [reflexivity |]. split; [reflexivity |]. right.
      split; [reflexivity |]. split; [discriminate | reflexivity].
    * destruct n; cbn [nth_error]; right; right; split; eauto 10.
Qed.

(** On the serialised page every reachable state satisfies the mode
    invariant: with the busy test in front of the confirmation handler,
    C1 holds. *)
Lemma runGuarded_modeInvariant (events : list Event) :
  modeInvariant (store (runGuarded o events (initial o))).
Proof.
apply serialInvariant_modeInvariant.
unfold runGuarded.
generalize (initial o) initial_serialInvariant.
induction events as [|ev events IH]; intros w Inv; cbn [fold_left].
- exact Inv.
- apply IH, stepGuarded_serialInvariant, Inv.
Qed.

End Orchestrator.

Section OrchestratorExamples.

Import ChatPage Runtime App.

(** C3 at the world in which a question has just been sent and its reply
    is awaited. *)
Lemma handleSendMessage_busy_noop_witness :
  let w := run Examples.oracle Examples.oneQuestion (initial Examples.oracle) in
  isLoading (store w) = true
  /\ exec Examples.oracle (handleSendMessage true CHATTING "Are you still there?") w = w
  /\ step Examples.oracle w (Submit "Are you still there?") = w.
Proof.
intros w.
assert (busy : isLoading (store w) = true) by reflexivity.
destruct (handleSendMessage_busy_noop Examples.oracle w "Are you still there?" busy)
  as (A & _ & _ & _ & B).
split; [exact busy |]. split; [exact A | exact B].
Defined.

(** C1 fails on the code: the user confirms a second file while the
    validation of the first is still running; when the first response
    arrives, the handler finds no task with its id, yet sets the mode to
    [TASKS_COMPLETED].  The reached state is in mode [TASKS_COMPLETED]
    with one task whose completion flag is false. *)
Theorem overlapping_validation_breaks_mode_invariant :
  let w := run Examples.oracle Examples.overlappingConfirmations (initial Examples.oracle) in
  reachable Examples.oracle w
  /\ appState (store w) = TASKS_COMPLETED
  /\ (exists task, tasks (store w) = [task] /\ Task.completed task = false)
  /\ allCompleted (tasks (store w)) = false
  /\ ~ modeInvariant (store w).
Proof.
intros w. split; [exists Examples.overlappingConfirmations; reflexivity |].
split; [vm_compute; reflexivity |].
split; [subst w; eexists; split; vm_compute; reflexivity |].
split; [vm_compute; reflexivity |].
unfold modeInvariant.
replace (appState (store w)) with TASKS_COMPLETED by (vm_compute; reflexivity).
intros [_ H]. vm_compute in H. discriminate.
Qed.

(** C2 fails on the code in the same race, when the request of the
    first validation fails: its handler runs the failure branch (the
    apology is the last message), sets the completed-count to 1 and the
    mode to [TASKS_COMPLETED], but finds no task with its id; the one task
    of the collection is left with its completion flag false and without
    justification. *)
Theorem overlapping_failed_validation_marks_no_task :
  let w := run Examples.oracle Examples.failedOverlappingValidation (initial Examples.oracle) in
  reachable Examples.oracle w
  /\ appState (store w) = TASKS_COMPLETED
  /\ completedTasksCount (store w) = 1
  /\ (exists task,
        tasks (store w) = [task]
        /\ Task.completed task = false
        /\ Task.justification task = None)
  /\ (exists earlier m,
        messages (store w) = (earlier ++ [m])%list
        /\ ChatMessage.role m = assistant
        /\ ChatMessage.content m
           = VString "Sorry, validation failed. Please check the log file and test case format.").
Proof.
intros w. split; [exists Examples.failedOverlappingValidation; reflexivity |].
split; [vm_compute; reflexivity |].
split; [vm_compute; reflexivity |].
subst w. split.
- eexists. split; [vm_compute; reflexivity |]. split; reflexivity.
- exists (removelast (messages (store (run Examples.oracle Examples.failedOverlappingValidation
                                        (initial Examples.oracle))))).
  exists (last (messages (store (run Examples.oracle Examples.failedOverlappingValidation
                                   (initial Examples.oracle))))
            {| ChatMessage.id := EmptyString; ChatMessage.role := user;
               ChatMessage.content := VUndefined; ChatMessage.timestamp := 0 |}).
  split; [vm_compute; reflexivity |]. split; vm_compute; reflexivity.
Qed.

(** The same race, whatever the task identifiers: after the overlap the
    user starts over, and the second validation's response then moves the
    empty task collection to [TASKS_COMPLETED]. *)
Lemma stale_completion_after_reset :
  let w := run Examples.oracle Examples.staleCompletionAfterReset (initial Examples.oracle) in
  reachable Examples.oracle w
  /\ appState (store w) = TASKS_COMPLETED
  /\ tasks (store w) = []
  /\ ~ modeInvariant (store w).
Proof.
intros w. split; [exists Examples.staleCompletionAfterReset; reflexivity |].
split; [vm_compute; reflexivity |].
split; [vm_compute; reflexivity |].
unfold modeInvariant.
replace (appState (store w)) with TASKS_COMPLETED by (vm_compute; reflexivity).
intros [H _]. apply H. vm_compute. reflexivity.
Qed.

End OrchestratorExamples.

(* ================================================================== *)
(** * Further properties of the code *)
(* ================================================================== *)

(** ** The content preparer, continued *)

Section ContentPreparerMore.

Import EpsUtils.

(** The notice alone is longer than the 100 characters set aside for
    it. *)
Lemma truncationSuffix_length (originalLength maxLength : Z) :
  jsLength (truncationSuffix originalLength maxLength)
  = 117 + jsLength (numberToString originalLength) + jsLength (numberToString maxLength).
Proof.
unfold truncationSuffix, jsLength. rewrite !length_append.
cbn [String.length LF]. lia.
Qed.

(** [numberToString] on the integers every number below 2^53 is, and
    at limits beyond: rounding to the nearest double, the shortest digits
    that read back, and the exponent form from 1e21. *)
Lemma numberToString_safe (n : Z) :
  Z.abs n < 9007199254740992 -> numberToString n = decimal n.
Proof.
intros H. unfold numberToString. apply Z.ltb_lt in H. now rewrite H.
Qed.

Lemma numberToString_examples :
  numberToString 50000 = "50000"
  /\ numberToString (-50) = "-50"
  /\ numberToString 9007199254740993 = "9007199254740992"
  /\ numberToString (2 ^ 60) = "1152921504606847000"
  /\ numberToString (10 ^ 20) = "100000000000000000000"
  /\ numberToString (10 ^ 21) = "1e+21"
  /\ numberToString (- 10 ^ 21) = "-1e+21"
  /\ numberToString (10 ^ 23) = "1e+23"
  /\ numberToString 123456789012345678901234567890 = "1.2345678901234568e+29".
Proof.
vm_compute. repeat split.
Qed.

(** X1: whenever [truncateContent] cuts, whatever the limit, its result
    is longer than the limit: the notice it appends is longer than the
    100 characters it removes to make room for it.  The same holds of the
    earlier revision of the function. *)
Theorem truncateContent_overshoots (content : string) (maxLength : Z) :
  maxLength < jsLength content ->
  maxLength < jsLength (truncateContent content (Some maxLength))
  /\ maxLength < jsLength (Earlier.truncateContent content (Some maxLength)).
Proof.
intros Hlong.
assert (Both : maxLength < jsLength (truncateContent content (Some maxLength))).
{ unfold truncateContent.
  destruct (jsLength content <=? maxLength) eqn:E; [apply Z.leb_le in E; lia |].
  rewrite jsLength_append, truncationSuffix_length.
  pose proof (jsLength_nonneg (numberToString (jsLength content))).
  pose proof (jsLength_nonneg (numberToString maxLength)).
  destruct (Z_lt_le_dec maxLength 100) as [Small | Big].
  - pose proof (jsLength_nonneg (slice content 0 (maxLength - 100))). lia.
  - destruct (slice_0_inside content (maxLength - 100)) as [_ Hlen]; [lia |]. lia. }
split; exact Both.
Qed.

Lemma truncateContent_overshoots_witness :
  120 < jsLength (truncateContent (replicate 130 "x"%char) (Some 120)).
Proof.
exact (proj1 (truncateContent_overshoots (replicate 130 "x"%char) 120 eq_refl)).
Defined.

(** X2: the prompt does not keep the boundary between its two inputs:
    the contents are interpolated as they are, so moving the separator
    text from the log to the test case gives the same prompt, in this
    revision and in the earlier one. *)
Theorem buildEpsValidationPrompt_boundary (a b c : string) :
  buildEpsValidationPrompt (a ++ MoreExamples.promptSeparator ++ b) c
  = buildEpsValidationPrompt a (b ++ MoreExamples.promptSeparator ++ c)
  /\ Earlier.buildEpsValidationPrompt (a ++ MoreExamples.promptSeparator ++ b) c
     = Earlier.buildEpsValidationPrompt a (b ++ MoreExamples.promptSeparator ++ c).
Proof.
unfold buildEpsValidationPrompt, Earlier.buildEpsValidationPrompt,
  MoreExamples.promptSeparator.
split; rewrite !append_assoc; reflexivity.
Qed.

End ContentPreparerMore.

(** ** The model client, continued *)

Section ModelClientMore.

Import ChatApi.

Variable St : Type.

(** The extraction chain never yields a falsy value. *)
Lemma extractReply_truthy (data : value) :
  truthy (extractReply data) = true /\ truthy (MockRoute.extractReply data) = true.
Proof.
unfold extractReply, MockRoute.extractReply, Js.or. split.
- destruct (truthy (optNamed (optNamed data "message") "content")) eqn:A; [exact A |].
  destruct (truthy (optNamed data "content")) eqn:B; [exact B | reflexivity].
- destruct (truthy (optNamed (optNamed data "message") "content")) eqn:A; [exact A |].
  destruct (truthy (optNamed data "content")) eqn:B; [exact B |].
  destruct (truthy (optNamed (optNamed (optFirst (optNamed data "choices")) "message")
                      "content")) eqn:C; [exact C | reflexivity].
Qed.

(** X3: [sendChatMessage] always resolves, and with a reply that is not
    empty; when the result has no [error] field, the reply is the text
    extracted from the body of a success response. *)
Theorem sendChatMessage_reply_not_empty (request : ChatRequest) (result : Http.FetchResult) :
  exists r,
    resultOf (St := St) (sendChatMessage request) (fun _ => result) = inr r
    /\ reply r <> EmptyString
    /\ (error r = None ->
        exists response data,
          result = Http.Fulfilled response
          /\ Http.ok response = true
          /\ Http.json response = inr data
          /\ extractReply data = VString (reply r)).
Proof.
unfold sendChatMessage, fetch. cbn [bind tryCatch resultOf].
destruct result as [response | e]; cbn [bind tryCatch resultOf].
- destruct (Http.ok response) eqn:Hok; cbn [negb bind tryCatch resultOf].
  + destruct (Http.json response) as [e | data] eqn:Hjson;
      cbn [settled bind tryCatch resultOf].
    * eexists. split; [reflexivity |]. split; [discriminate | discriminate].
    * pose proof (proj1 (extractReply_truthy data)) as T.
      destruct (extractReply data) as [| | b | n | text | items | fields] eqn:Hreply;
        cbn [logResponseReceived bind tryCatch resultOf];
        try (eexists; split; [reflexivity |]; split; [discriminate | discriminate]).
      destruct (nullish data);
        cbn [bind tryCatch resultOf];
        (eexists; split; [reflexivity |]); cbn [reply error].
      -- split; [discriminate | discriminate].
      -- split.
         ++ intros ->. discriminate.
         ++ intros _. exists response, data. auto.
  + destruct (Http.text response); cbn [settled bind tryCatch resultOf];
      eexists; (split; [reflexivity |]); split; discriminate.
- eexists. split; [reflexivity |]. split; discriminate.
Qed.

(** X4: the two clients agree.  For the same inputs and the same answer
    of the network they send the same single request; when [callChatAPI]
    rejects, [sendChatMessage] resolves to the apology with that error's
    message; when [callChatAPI] resolves with a text other than the
    placeholder, [sendChatMessage] resolves with the same text and no
    error.  (The text of an error response is assumed readable.) *)
Theorem clients_agree (mode : AppState) (request : ChatRequest) (result : Http.FetchResult) :
  (forall response, result = Http.Fulfilled response ->
     exists errorText, Http.text response = inr errorText) ->
  let viaPage := ChatPage.callChatAPI mode (message request)
                   (epsLogContent request) (testCaseContent request) in
  let viaApi := sendChatMessage (St := St) request in
  requestsMade viaPage (fun _ => result) = requestsMade viaApi (fun _ => result)
  /\ (forall failure,
        resultOf viaPage (fun _ => result) = inl failure ->
        resultOf viaApi (fun _ => result)
        = inr {| reply := connectionApology; error := Some (messageOf failure) |})
  /\ (forall chatReply text,
        resultOf viaPage (fun _ => result) = inr chatReply ->
        ChatReply.chatResponse chatReply = VString text ->
        text <> "No reply from model" ->
        resultOf viaApi (fun _ => result) = inr {| reply := text; error := None |}).
Proof.
intros Readable viaPage viaApi. subst viaPage viaApi.
split.
- rewrite sendChatMessage_one_request.
  unfold ChatPage.callChatAPI, fetch, promptOf. cbn [bind tryCatch requestsMade].
  f_equal.
  destruct result as [response | e]; cbn [bind tryCatch requestsMade]; [| reflexivity].
  destruct (Http.ok response); cbn [negb bind tryCatch requestsMade]; [| reflexivity].
  destruct (Http.json response); reflexivity.
- unfold ChatPage.callChatAPI, sendChatMessage, fetch. cbn [bind tryCatch resultOf].
  destruct result as [response | e]; cbn [bind tryCatch resultOf].
  + destruct (Http.ok response) eqn:Hok; cbn [negb bind tryCatch resultOf].
    * destruct (Http.json response) as [e | data] eqn:Hjson;
        cbn [settled bind tryCatch resultOf].
      -- split; [intros failure [= <-]; reflexivity | intros ? ? [=]].
      -- split; [intros failure [=] |].
         intros chatReply text [= <-]. cbn [ChatReply.chatResponse].
         intros Hreply Hother. rewrite Hreply. cbn [logResponseReceived].
         destruct (nullish data) eqn:Hnull; [| reflexivity].
         exfalso. apply Hother.
         destruct data; try discriminate; cbn in Hreply; congruence.
    * destruct (Readable response eq_refl) as [errorText ->].
      cbn [settled bind tryCatch resultOf].
      split; [intros failure [= <-]; reflexivity | intros ? ? [=]].
  + split; [intros failure [= <-]; reflexivity | intros ? ? [=]].
Qed.

(** X5: the mock route answers 200 or 500 and never throws.  It does not
    look at the status of the endpoint's response: whenever that response
    has a JSON body, whatever its status, the route answers 200 with the
    extracted reply; it answers 500 with a fixed error object exactly
    when the request body is unreadable, [null], the endpoint cannot be
    reached or its body is not JSON.  The one request it sends carries the
    [message] field of the request body. *)
Theorem mockRoute_POST_outcomes (requestJson : thrown + value) (result : Http.FetchResult) :
  let failed := {| MockRoute.status := 500;
                   MockRoute.payload := [("error", VString "Failed to connect to Ollama")] |} in
  resultOf (St := St) (MockRoute.POST requestJson) (fun _ => result)
  = match requestJson with
    | inl _ => inr failed
    | inr body =>
        if nullish body then inr failed
        else match result with
             | Http.Rejected _ => inr failed
             | Http.Fulfilled response =>
                 match Http.json response with
                 | inl _ => inr failed
                 | inr data =>
                     inr {| MockRoute.status := 200;
                            MockRoute.payload := [("reply", MockRoute.extractReply data)] |}
                 end
             end
    end
  /\ requestsMade (St := St) (MockRoute.POST requestJson) (fun _ => result)
     = match requestJson with
       | inl _ => []
       | inr body => if nullish body then []
                     else [chatRequest (getNamed body "message")]
       end.
Proof.
unfold MockRoute.POST, MockRoute.destructureMessage, fetch.
destruct requestJson as [e | body]; cbn [settled bind tryCatch resultOf requestsMade];
  [split; reflexivity |].
destruct (nullish body); cbn [bind tryCatch resultOf requestsMade];
  [split; reflexivity |].
destruct result as [response | e]; cbn [bind tryCatch resultOf requestsMade];
  [| split; reflexivity].
destruct (Http.json response); cbn [settled bind tryCatch resultOf requestsMade];
  split; reflexivity.
Qed.

End ModelClientMore.

Section ModelClientMoreExamples.

Import ChatApi.

(** X4 at a reply of the model and at an unreachable endpoint. *)
Lemma clients_agree_witness :
  resultOf (St := unit) (sendChatMessage Examples.validation)
    (fun _ => Examples.http200 (Examples.modelReply "Overall Result: PASS"))
  = inr {| reply := "Overall Result: PASS"; error := None |}
  /\ resultOf (St := unit) (sendChatMessage Examples.validation)
       (fun _ => Examples.networkDown)
     = inr {| reply := connectionApology; error := Some "Failed to fetch" |}.
Proof.
assert (R1 : forall response,
           Examples.http200 (Examples.modelReply "Overall Result: PASS")
           = Http.Fulfilled response ->
           exists errorText, Http.text response = inr errorText)
  by (intros response [= <-]; eexists; reflexivity).
assert (R2 : forall response,
           Examples.networkDown = Http.Fulfilled response ->
           exists errorText, Http.text response = inr errorText)
  by (intros response [=]).
split.
- refine (proj2 (proj2 (clients_agree unit CHATTING Examples.validation _ R1))
            _ "Overall Result: PASS" eq_refl eq_refl _).
  discriminate.
- exact (proj1 (proj2 (clients_agree unit CHATTING Examples.validation _ R2))
           _ eq_refl).
Defined.

End ModelClientMoreExamples.

(** ** The orchestrator, continued *)

Import ChatPage Runtime App Behaviour.

(** Unfold the handlers and run them on a world given by its fields. *)
Ltac run_handlers :=
  cbv [exec bind tryCatch tryFinally settled
       handleSendMessage handleFileConfirmation processEpsValidation callChatAPI
       handleSidebarNavigation handleStartNewTask onTestCaseDetected onCancel
       addMessage generateId newDate fetch
       setCurrentFile setShowConfirmation setAppState setTasks setCompletedTasksCount
       setMessages setIsLoading setCompletionTimestamp toast
       store toasts requests pending reads
       appState messages tasks completedTasksCount currentFile isLoading
       showConfirmation completionTimestamp
       Task.id Task.completed Task.justification Task.completedAt Task.description
       Task.epsLogContent Task.testCaseContent completeTask
       ChatMessage.role ChatMessage.content ChatMessage.id ChatMessage.timestamp
       ChatReply.chatResponse ChatReply.stateUpdate negb].

Section OrchestratorMore.

Import ChatPage Runtime App Behaviour.

Variable o : Oracle.

(** X6: a message in which a test case is detected is not sent to the
    model.  On an idle page [handleSendMessage] adds the user's message
    and the fixed request for the log file, opens the confirmation form,
    and issues no request; the busy flag stays clear and the mode and the
    tasks are untouched. *)
Theorem handleSendMessage_test_case (w : World) (mode : AppState) (content : string) :
  isLoading (store w) = false ->
  RegExp.isTestCase content = true ->
  let w' := exec o (handleSendMessage (isLoading (store w)) mode content) w in
  (exists m1 m2,
     messages (store w') = (messages (store w) ++ [m1; m2])%list
     /\ ChatMessage.role m1 = user
     /\ ChatMessage.content m1 = VString content
     /\ ChatMessage.role m2 = assistant
     /\ ChatMessage.content m2
        = VString "Test case detected. Please upload the corresponding EPS log file to proceed with validation.")
  /\ showConfirmation (store w') = true
  /\ requests w' = requests w
  /\ pending w' = pending w
  /\ isLoading (store w') = false
  /\ appState (store w') = appState (store w)
  /\ tasks (store w') = tasks (store w).
Proof.
destruct w as [[a m t c f l sc ct] ts rq pd rd]. cbn [store isLoading].
intros -> Htest. cbv zeta. unfold handleSendMessage. rewrite Htest.
run_handlers. split.
- eexists. eexists. rewrite <- app_assoc. cbn [app]. repeat split.
- repeat split.
Qed.


(** How a validation run comes back.  [handleFileConfirmation] parks one
    continuation; whenever the request it waits for settles, in whatever
    world the page then is, that continuation marks the tasks that carry
    the run's identifier (with the reply, or with the failure text), sets
    the completed-count to 1 and the mode to [TASKS_COMPLETED], adds one
    assistant message, clears the busy flag, and issues no request. *)
Lemma validation_comes_back (w : World) (data : EpsConfirmationData.t) :
  let mode := appState (store w) in
  let confirmed := exec o (handleFileConfirmation mode data) w in
  exists task k,
    tasks (store confirmed) = [task]
    /\ Task.completed task = false
    /\ Task.justification task = None
    /\ Task.description task = "Validate test case against EPS log"
    /\ Task.epsLogContent task = Some (EpsConfirmationData.epsLogContent data)
    /\ Task.testCaseContent task = Some (EpsConfirmationData.testCaseContent data)
    /\ pending confirmed = (pending w ++ [k])%list
    /\ forall (later : World) (n : nat) (result : Http.FetchResult),
         nth_error (pending later) n = Some k ->
         let after := step o later (Settle n result) in
         let justification :=
           match resultOf (callChatAPI mode EmptyString
                             (Some (EpsConfirmationData.epsLogContent data))
                             (Some (EpsConfirmationData.testCaseContent data)))
                   (fun _ => result) with
           | inr reply => ChatReply.chatResponse reply
           | inl failure => VString ("Validation failed: " ++ messageOf failure)
           end in
         (exists completedAt,
            tasks (store after)
            = map (fun t => if String.eqb (Task.id t) (Task.id task)
                            then completeTask t justification completedAt
                            else t)
                (tasks (store later)))
         /\ completedTasksCount (store after) = 1
         /\ appState (store after) = TASKS_COMPLETED
         /\ isLoading (store after) = false
         /\ currentFile (store after) = currentFile (store later)
         /\ (exists m,
               messages (store after) = (messages (store later) ++ [m])%list
               /\ ChatMessage.role m = assistant
               /\ ChatMessage.content m
                  = match resultOf (callChatAPI mode EmptyString
                                      (Some (EpsConfirmationData.epsLogContent data))
                                      (Some (EpsConfirmationData.testCaseContent data)))
                            (fun _ => result) with
                    | inr reply => ChatReply.chatResponse reply
                    | inl _ => VString "Sorry, validation failed. Please check the log file and test case format."
                    end)
         /\ requests after = requests later.
Proof.
destruct w as [[a m t c f l sc ct] ts rq pd rd].
cbv zeta. cbn [store appState pending].
run_handlers.
eexists. eexists.
split; [reflexivity |]. split; [reflexivity |]. split; [reflexivity |].
split; [reflexivity |]. split; [reflexivity |]. split; [reflexivity |].
split; [reflexivity |].
intros [[a' m' t' c' f' l' sc' ct'] ts' rq' pd' rd'] n result Hn.
unfold step, withoutPending. cbn [store pending toasts requests reads].
cbn [store pending] in Hn. rewrite Hn.
cbn [Task.id].
unfold callChatAPI, fetch. cbn [bind tryCatch resultOf].
destruct result as [response | e]; cbn [bind tryCatch resultOf].
- destruct (Http.ok response); cbn [negb bind tryCatch resultOf].
  + destruct (Http.json response) as [e | body]; cbn [settled bind tryCatch resultOf];
      run_handlers;
      (split; [eexists; reflexivity |]); repeat (split; [reflexivity |]);
      (split; [eexists; repeat split | reflexivity]).
  + run_handlers.
    (split; [eexists; reflexivity |]); repeat (split; [reflexivity |]).
    split; [eexists; repeat split | reflexivity].
- run_handlers.
  (split; [eexists; reflexivity |]); repeat (split; [reflexivity |]).
  split; [eexists; repeat split | reflexivity].
Qed.

(** X8: a validation run whose model call succeeds.  [handleFileConfirmation]
    creates one uncompleted task holding the log and the test case.
    Whenever the request of the run settles, whatever happened on the
    page in between, the completed-count becomes 1, the mode
    [TASKS_COMPLETED], the busy flag is cleared, the reply is added as the
    last message, and every task carrying the run's identifier is marked
    completed with the reply as justification and a completion time.  So
    when the task collection still is the run's task, it becomes that task
    completed; a task that has replaced it meanwhile is left as it was.
    The request that was sent carries the validation prompt built from the
    two truncated contents whenever both are non-empty. *)
Theorem successful_validation_completes_task (w : World) (data : EpsConfirmationData.t) :
  let mode := appState (store w) in
  let confirmed := exec o (handleFileConfirmation mode data) w in
  exists task k,
    tasks (store confirmed) = [task]
    /\ Task.completed task = false
    /\ Task.description task = "Validate test case against EPS log"
    /\ Task.epsLogContent task = Some (EpsConfirmationData.epsLogContent data)
    /\ Task.testCaseContent task = Some (EpsConfirmationData.testCaseContent data)
    /\ completedTasksCount (store confirmed) = 0
    /\ pending confirmed = (pending w ++ [k])%list
    /\ (EpsConfirmationData.epsLogContent data <> EmptyString ->
        EpsConfirmationData.testCaseContent data <> EmptyString ->
        requests confirmed
        = (requests w ++
           [ChatApi.chatRequest (VString
              (EpsUtils.buildEpsValidationPrompt
                 (EpsUtils.truncateContent (EpsConfirmationData.epsLogContent data) None)
                 (EpsUtils.truncateContent (EpsConfirmationData.testCaseContent data) None)))])%list)
    /\ forall (later : World) (n : nat) (result : Http.FetchResult) (reply : ChatReply.t),
         nth_error (pending later) n = Some k ->
         resultOf (callChatAPI mode EmptyString
                     (Some (EpsConfirmationData.epsLogContent data))
                     (Some (EpsConfirmationData.testCaseContent data)))
           (fun _ => result) = inr reply ->
         let after := step o later (Settle n result) in
         completedTasksCount (store after) = 1
         /\ appState (store after) = TASKS_COMPLETED
         /\ isLoading (store after) = false
         /\ currentFile (store after) = currentFile (store later)
         /\ (exists m,
               messages (store after) = (messages (store later) ++ [m])%list
               /\ ChatMessage.role m = assistant
               /\ ChatMessage.content m = ChatReply.chatResponse reply)
         /\ (exists completedAt,
               tasks (store after)
               = map (fun t => if String.eqb (Task.id t) (Task.id task)
                               then completeTask t (ChatReply.chatResponse reply) completedAt
                               else t)
                   (tasks (store later))
               /\ (tasks (store later) = [task] ->
                   tasks (store after)
                   = [completeTask task (ChatReply.chatResponse reply) completedAt])
               /\ (forall other,
                     tasks (store later) = [other] -> Task.id other <> Task.id task ->
                     tasks (store after) = [other])).
Proof.
destruct (validation_comes_back w data) as (task & k & T & C & J & D & L & Tc & P & K).
cbv zeta. exists task, k.
split; [exact T |]. split; [exact C |]. split; [exact D |]. split; [exact L |].
split; [exact Tc |].
split.
{ destruct w as [[a m t c f l sc ct] ts rq pd rd]. run_handlers. reflexivity. }
split; [exact P |].
split.
{ intros Hlog Htest. apply String.eqb_neq in Hlog, Htest.
  destruct w as [[a m t c f l sc ct] ts rq pd rd]. cbn [store appState].
  run_handlers. unfold callChatAPI, fetch. cbn [bind tryCatch].
  cbn [ChatApi.present ChatApi.contentOf]. rewrite Hlog, Htest. reflexivity. }
intros later n result reply Hn Hreply.
destruct (K later n result Hn) as ((completedAt & Tasks) & Count & Mode & Busy & File & Msg & _).
rewrite Hreply in Tasks, Msg.
split; [exact Count |]. split; [exact Mode |]. split; [exact Busy |].
split; [exact File |]. split; [exact Msg |].
exists completedAt. split; [exact Tasks |]. split.
- intros E. rewrite Tasks, E. cbn [map]. rewrite String.eqb_refl. reflexivity.
- intros other E N. rewrite Tasks, E. cbn [map].
  apply String.eqb_neq in N. rewrite N. reflexivity.
Qed.

(** X28: a validation run whose model call fails.  Whenever the request
    of the run settles with a failure (the endpoint cannot be reached, it
    answers with an error status, or its body is not JSON), whatever
    happened on the page in between, the completed-count becomes 1, the
    mode [TASKS_COMPLETED], the busy flag is cleared, the fixed apology is
    added as the last message, no request is issued again, and every task
    carrying the run's identifier is marked completed with the
    justification [Validation failed: ] followed by the error's message.
    So when the task collection still is the run's task, it becomes that
    task completed; a task that has replaced it meanwhile is left as it
    was. *)
Theorem failed_validation_marks_its_task (w : World) (data : EpsConfirmationData.t) :
  let mode := appState (store w) in
  let confirmed := exec o (handleFileConfirmation mode data) w in
  exists task k,
    tasks (store confirmed) = [task]
    /\ Task.completed task = false
    /\ pending confirmed = (pending w ++ [k])%list
    /\ forall (later : World) (n : nat) (result : Http.FetchResult) (failure : thrown),
         nth_error (pending later) n = Some k ->
         resultOf (callChatAPI mode EmptyString
                     (Some (EpsConfirmationData.epsLogContent data))
                     (Some (EpsConfirmationData.testCaseContent data)))
           (fun _ => result) = inl failure ->
         let after := step o later (Settle n result) in
         let text := "Validation failed: " ++ messageOf failure in
         completedTasksCount (store after) = 1
         /\ appState (store after) = TASKS_COMPLETED
         /\ isLoading (store after) = false
         /\ requests after = requests later
         /\ (exists m,
               messages (store after) = (messages (store later) ++ [m])%list
               /\ ChatMessage.role m = assistant
               /\ ChatMessage.content m
                  = VString "Sorry, validation failed. Please check the log file and test case format.")
         /\ (exists completedAt,
               tasks (store after)
               = map (fun t => if String.eqb (Task.id t) (Task.id task)
                               then completeTask t (VString text) completedAt
                               else t)
                   (tasks (store later))
               /\ (tasks (store later) = [task] ->
                   exists done,
                     tasks (store after) = [done]
                     /\ Task.id done = Task.id task
                     /\ Task.completed done = true
                     /\ Task.justification done = Some (VString text))
               /\ (forall other,
                     tasks (store later) = [other] -> Task.id other <> Task.id task ->
                     tasks (store after) = [other])).
Proof.
destruct (validation_comes_back w data) as (task & k & T & C & _ & _ & _ & _ & P & K).
cbv zeta. exists task, k.
split; [exact T |]. split; [exact C |]. split; [exact P |].
intros later n result failure Hn Hfailure.
destruct (K later n result Hn) as ((completedAt & Tasks) & Count & Mode & Busy & _ & Msg & Req).
rewrite Hfailure in Tasks, Msg.
split; [exact Count |]. split; [exact Mode |]. split; [exact Busy |].
split; [exact Req |]. split; [exact Msg |].
exists completedAt. split; [exact Tasks |]. split.
- intros E. eexists. rewrite Tasks, E. cbn [map]. rewrite String.eqb_refl.
  split; [reflexivity |]. repeat split.
- intros other E N. rewrite Tasks, E. cbn [map].
  apply String.eqb_neq in N. rewrite N. reflexivity.
Qed.

(** *** What every reachable world satisfies *)

Lemma extends_refl {A : Type} (l : list A) : extends l l.
Proof. exists []. now rewrite app_nil_r. Qed.

Lemma extends_trans {A : Type} (l1 l2 l3 : list A) :
  extends l1 l2 -> extends l2 l3 -> extends l1 l3.
Proof.
intros [a ->] [b ->]. exists (a ++ b)%list. now rewrite app_assoc.
Qed.

Lemma quiet_refl (w : World) : quiet w w.
Proof. unfold quiet. repeat split. apply extends_refl. Qed.

Lemma quiet_trans (w1 w2 w3 : World) : quiet w1 w2 -> quiet w2 w3 -> quiet w1 w3.
Proof.
unfold quiet. intros (A & T & C & L & R & P & E) (A' & T' & C' & L' & R' & P' & E').
rewrite A', T', C', L', R', P'. repeat split; try assumption.
eapply extends_trans; eassumption.
Qed.

Lemma asks_quiet (w1 w2 w3 : World) : asks o w1 w2 -> quiet w2 w3 -> asks o w1 w3.
Proof.
unfold asks, quiet.
intros (A & T & C & L & E & K) (A' & T' & C' & L' & R' & P' & E').
rewrite A', T', C', L', R', P'. repeat split; try assumption.
eapply extends_trans; eassumption.
Qed.

Lemma sidebar_quiet (w : World) (n : Z) (action : string) :
  quiet w (exec o (handleSidebarNavigation n action) w).
Proof.
destruct w as [[a m t c f l sc ct] ts rq pd rd].
unfold handleSidebarNavigation, quiet, extends.
repeat match goal with
       | |- context [if ?b then _ else _] => destruct b
       end; run_handlers; repeat split; eauto using app_nil_r.
all: exists []; now rewrite app_nil_r.
Qed.

Lemma onCancel_quiet (w : World) : quiet w (exec o onCancel w).
Proof.
destruct w as [[a m t c f l sc ct] ts rq pd rd]. unfold quiet, extends.
run_handlers. repeat split. exists []. now rewrite app_nil_r.
Qed.

Lemma onTestCaseDetected_quiet (w : World) : quiet w (exec o onTestCaseDetected w).
Proof.
destruct w as [[a m t c f l sc ct] ts rq pd rd]. unfold quiet, extends.
run_handlers. repeat split. exists []. now rewrite app_nil_r.
Qed.

(** [handleSendMessage] when the busy flag is clear. *)
Lemma handleSendMessage_effect (w : World) (mode : AppState) (content : string) :
  isLoading (store w) = false ->
  let w' := exec o (handleSendMessage false mode content) w in
  quiet w w' \/ asks o w w'.
Proof.
destruct w as [[a m t c f l sc ct] ts rq pd rd]. cbn [store isLoading].
intros ->. cbv zeta. unfold handleSendMessage.
destruct (RegExp.isTestCase content).
- left. unfold quiet, extends. run_handlers. repeat split.
  eexists. rewrite <- app_assoc. reflexivity.
- right. unfold asks, extends. run_handlers. repeat split.
  + eexists. reflexivity.
  + eexists. eexists. split; [reflexivity |]. split; [reflexivity |].
    intros r [[a' m' t' c' f' l' sc' ct'] ts' rq' pd' rd']. cbv zeta.
    destruct r as [response | e]; run_handlers.
    * destruct (Http.ok response); run_handlers.
      -- destruct (Http.json response) as [e | body]; run_handlers;
           repeat split; eauto.
      -- repeat split; eauto.
    * repeat split; eauto.
Qed.

(** [handleFileConfirmation], on any world. *)
Lemma handleFileConfirmation_effect (w : World) (mode : AppState)
    (data : EpsConfirmationData.t) :
  let w' := exec o (handleFileConfirmation mode data) w in
  appState (store w') = TASK_MODE
  /\ List.length (tasks (store w')) = 1%nat
  /\ completedTasksCount (store w') = 0
  /\ isLoading (store w') = true
  /\ extends (messages (store w)) (messages (store w'))
  /\ exists k req,
       pending w' = (pending w ++ [k])%list
       /\ requests w' = (requests w ++ [req])%list
       /\ settlesQuietly o k.
Proof.
destruct w as [[a m t c f l sc ct] ts rq pd rd]. cbv zeta.
unfold extends. run_handlers. repeat split.
- eexists. reflexivity.
- eexists. eexists. split; [reflexivity |]. split; [reflexivity |].
  intros r [[a' m' t' c' f' l' sc' ct'] ts' rq' pd' rd']. cbv zeta.
  destruct r as [response | e]; run_handlers.
  + destruct (Http.ok response); run_handlers.
    * destruct (Http.json response) as [e | body]; run_handlers;
        rewrite ?length_map; repeat split; eauto.
    * rewrite ?length_map. repeat split; eauto.
  + rewrite ?length_map. repeat split; eauto.
Qed.

Lemma handleStartNewTask_effect (w : World) :
  let w' := exec o handleStartNewTask w in
  appState (store w') = CHATTING
  /\ tasks (store w') = []
  /\ completedTasksCount (store w') = 0
  /\ currentFile (store w') = EmptyString
  /\ isLoading (store w') = isLoading (store w)
  /\ requests w' = requests w
  /\ pending w' = pending w
  /\ exists m, messages (store w') = (messages (store w) ++ [m])%list
               /\ ChatMessage.role m = assistant.
Proof.
destruct w as [[a m t c f l sc ct] ts rq pd rd]. cbv zeta. run_handlers.
repeat split. eexists. split; reflexivity.
Qed.

Lemma wellFormed_quiet (w w' : World) :
  quiet w w' -> wellFormed o w -> wellFormed o w'.
Proof.
unfold quiet, wellFormed. intros (A & T & C & L & R & P & E).
rewrite T, C, L, R, P. exact (fun H => H).
Qed.

Lemma wellFormed_asks (w w' : World) :
  asks o w w' -> wellFormed o w -> wellFormed o w'.
Proof.
unfold asks, wellFormed.
intros (A & T & C & L & E & k & req & P & R & K) (F & B & N & D & Q).
rewrite T, C, P, R. repeat split; try assumption.
- apply Forall_app. split; [exact F | constructor; [exact K | constructor]].
- intros _ H. apply app_eq_nil in H. destruct H as [_ H]. discriminate.
- rewrite !length_app. cbn. lia.
Qed.

Lemma initial_wellFormed : wellFormed o (initial o).
Proof.
unfold wellFormed. cbn. repeat split; auto. discriminate.
Qed.

(** Settling a request: the continuation taken out of the list runs, the
    others stay parked. *)
Lemma withoutPending_pending (n : nat) (w : World) (k : Http.FetchResult -> M unit) :
  nth_error (pending w) n = Some k ->
  pending w = (firstn n (pending w) ++ k :: skipn (S n) (pending w))%list
  /\ S (List.length (pending (withoutPending n w))) = List.length (pending w).
Proof.
intros H. unfold withoutPending. cbn [pending].
assert (E : pending w = (firstn n (pending w) ++ k :: skipn (S n) (pending w))%list).
{ revert n H. induction (pending w) as [|x l IH]; intros [|n] H; cbn in *;
    try discriminate.
  - now injection H as ->.
  - f_equal. now apply IH. }
split; [exact E |].
rewrite E at 3. rewrite !length_app. cbn. lia.
Qed.

(** What one event does to a well-formed world. *)
Lemma step_effect (w : World) (ev : Event) :
  wellFormed o w ->
  let w' := step o w ev in
  wellFormed o w'
  /\ extends (messages (store w)) (messages (store w'))
  /\ allowedModeChange (appState (store w)) ev (appState (store w'))
  /\ (requests w' = requests w
      \/ (mayAsk ev /\ isLoading (store w') = true
          /\ exists req, requests w' = (requests w ++ [req])%list)).
Proof.
intros WF. cbv zeta.
assert (Quiet : forall w', quiet w w' ->
          wellFormed o w'
          /\ extends (messages (store w)) (messages (store w'))
          /\ allowedModeChange (appState (store w)) ev (appState (store w'))
          /\ (requests w' = requests w
              \/ (mayAsk ev /\ isLoading (store w') = true
                  /\ exists req, requests w' = (requests w ++ [req])%list))).
{ intros w' Q. split; [exact (wellFormed_quiet _ _ Q WF) |].
  destruct Q as (A & _ & _ & _ & R & _ & E).
  split; [exact E |]. split; [left; exact A | left; exact R]. }
destruct ev as [input | action | formData | | | n result].
- (* Submit *)
  unfold step, ChatInterface.handleSubmit.
  destruct (String.eqb (trim input) EmptyString); [apply Quiet, quiet_refl |].
  destruct (isLoading (store w)) eqn:L; [apply Quiet, quiet_refl |]. cbn [orb].
  destruct (handleSendMessage_effect w (appState (store w)) (trim input) L) as [Q | A].
  + apply Quiet. destruct (RegExp.isTestCase input); [| exact Q].
    exact (quiet_trans _ _ _ Q (onTestCaseDetected_quiet _)).
  + assert (A' : asks o w
               (if RegExp.isTestCase input
                then exec o onTestCaseDetected
                       (exec o (handleSendMessage false (appState (store w)) (trim input)) w)
                else exec o (handleSendMessage false (appState (store w)) (trim input)) w)).
    { destruct (RegExp.isTestCase input); [| exact A].
      exact (asks_quiet _ _ _ A (onTestCaseDetected_quiet _)). }
    destruct (RegExp.isTestCase input);
      (split; [exact (wellFormed_asks _ _ A' WF) |]);
      destruct A' as (Am & _ & _ & Lm & Em & k & req & _ & Rm & _);
      (split; [exact Em |]); (split; [left; exact Am |]);
      right; (split; [left; eauto |]); split; eauto.
- (* Navigate *)
  apply Quiet, sidebar_quiet.
- (* Confirm *)
  unfold step. destruct (showConfirmation (store w)); [| apply Quiet, quiet_refl].
  destruct (EpsConfirmation.handleSubmit formData) as [alert | data];
    [apply Quiet, quiet_refl |].
  destruct (handleFileConfirmation_effect w (appState (store w)) data)
    as (A & T & C & L & E & k & req & P & R & K).
  destruct WF as (F & B & N & D & Q).
  split; [| split; [exact E | split]].
  + unfold wellFormed. rewrite T, C, P, R. repeat split; auto.
    * apply Forall_app. split; [exact F | constructor; [exact K | constructor]].
    * intros _ H. apply app_eq_nil in H. destruct H as [_ H]. discriminate.
    * rewrite !length_app. cbn. lia.
  + right; left. split; [exact A | eauto].
  + right. split; [right; eauto |]. split; eauto.
- (* Cancel *)
  unfold step. destruct (showConfirmation (store w)); [| apply Quiet, quiet_refl].
  apply Quiet, onCancel_quiet.
- (* StartNewTask *)
  unfold step. destruct (appState (store w)) eqn:A; try (apply Quiet, quiet_refl).
  destruct (handleStartNewTask_effect w) as (A' & T & C & _ & L & R & P & m & E & _).
  destruct WF as (F & B & N & D & Q).
  split; [| split; [exists [m]; exact E | split]].
  + unfold wellFormed. rewrite T, C, L, R, P. cbn. repeat split; auto.
  + right; right; right. auto.
  + left. exact R.
- (* Settle *)
  unfold step. destruct (nth_error (pending w) n) as [k |] eqn:Hk;
    [| apply Quiet, quiet_refl].
  destruct WF as (F & B & N & D & Q).
  assert (K : settlesQuietly o k)
    by (apply (proj1 (Forall_forall _ _) F), (nth_error_In _ _ Hk)).
  destruct (withoutPending_pending n w k Hk) as [Split Len].
  destruct (K result (withoutPending n w))
    as (A & (m & E & _) & T & C & _ & _ & L & R & P).
  cbn [withoutPending store requests] in A, E, T, C, R.
  split; [| split; [exists [m]; exact E | split]].
  + unfold wellFormed. rewrite T, L, R, P. repeat split.
    * rewrite Split in F. apply Forall_app in F. destruct F as [F1 F2].
      inversion F2; subst. unfold withoutPending. cbn [pending].
      apply Forall_app. auto.
    * discriminate.
    * exact N.
    * destruct C as [-> | ->]; auto.
    * lia.
  + destruct A as [-> | ->]; [left; reflexivity |].
    right; right; left. eauto.
  + left. exact R.
Qed.

Lemma run_wellFormed (events : list Event) (w : World) :
  wellFormed o w -> wellFormed o (run o events w).
Proof.
unfold run. revert w. induction events as [|ev events IH]; intros w WF; cbn [fold_left].
- exact WF.
- apply IH. exact (proj1 (step_effect w ev WF)).
Qed.

Lemma reachable_wellFormed (w : World) : reachable o w -> wellFormed o w.
Proof.
intros [events ->]. apply run_wellFormed, initial_wellFormed.
Qed.

(** X9: the message log only grows.  From any reachable world, whatever
    happens next (user actions and settling requests, in any order), the
    messages already in the log stay where they are, unchanged; new ones
    are added at the end. *)
Theorem messages_append_only (w : World) (events : list Event) :
  reachable o w ->
  extends (messages (store w)) (messages (store (run o events w))).
Proof.
intros R. apply reachable_wellFormed in R. unfold run.
revert w R. induction events as [|ev events IH]; intros w WF; cbn [fold_left].
- apply extends_refl.
- destruct (step_effect w ev WF) as (WF' & E & _).
  eapply extends_trans; [exact E | apply IH, WF'].
Qed.

(** X10: the mode changes only along the arrows of the state machine.  In
    a reachable world an event leaves the mode as it is, or it is a
    confirmation and the mode becomes [TASK_MODE], or it is a settling
    request and the mode becomes [TASKS_COMPLETED], or it is the
    start-new-task button pressed in [TASKS_COMPLETED] and the mode becomes
    [CHATTING].  In particular [TASK_MODE] is never left for [CHATTING],
    and [CHATTING] is entered from [TASKS_COMPLETED] only. *)
Theorem mode_changes_allowed (w : World) (ev : Event) :
  reachable o w ->
  allowedModeChange (appState (store w)) ev (appState (store (step o w ev)))
  /\ (appState (store w) = TASK_MODE -> appState (store (step o w ev)) <> CHATTING)
  /\ (appState (store (step o w ev)) = CHATTING ->
      appState (store w) = CHATTING \/ appState (store w) = TASKS_COMPLETED).
Proof.
intros R. apply reachable_wellFormed in R.
destruct (step_effect w ev R) as (_ & _ & A & _).
split; [exact A |].
destruct A as [E | [(E & _) | [(E & _) | (E1 & E2 & _)]]]; rewrite ?E, ?E1, ?E2;
  split; intros H; try congruence; auto.
Qed.

(** X11: requests are issued one at a time and never repeated.  In a
    reachable world an event issues at most one request, only a submitted
    message or a confirmation issues one, and the busy flag is set when it
    does; a settling request issues none, so a failed call is not retried,
    and it takes exactly its own continuation off the list of outstanding
    ones. *)
Theorem requests_one_at_a_time (w : World) (ev : Event) :
  reachable o w ->
  (requests (step o w ev) = requests w
   \/ (mayAsk ev /\ isLoading (store (step o w ev)) = true
       /\ exists req, requests (step o w ev) = (requests w ++ [req])%list))
  /\ (forall n result, ev = Settle n result ->
        requests (step o w ev) = requests w
        /\ ((n < List.length (pending w))%nat ->
              pending (step o w ev)
              = (firstn n (pending w) ++ skipn (S n) (pending w))%list
              /\ isLoading (store (step o w ev)) = false)
        /\ ((List.length (pending w) <= n)%nat -> step o w ev = w)).
Proof.
intros R. apply reachable_wellFormed in R.
destruct (step_effect w ev R) as (_ & _ & _ & Q).
split; [exact Q |].
intros n result ->.
destruct R as (F & _).
unfold step. destruct (nth_error (pending w) n) as [k |] eqn:Hk.
- assert (K : settlesQuietly o k)
    by (apply (proj1 (Forall_forall _ _) F), (nth_error_In _ _ Hk)).
  destruct (K result (withoutPending n w)) as (_ & _ & _ & _ & _ & _ & L & Rq & P).
  split; [exact Rq |]. split.
  + intros _. split; [exact P | exact L].
  + intros H. apply nth_error_None in H. congruence.
- split; [reflexivity |]. split.
  + intros H. apply nth_error_None in Hk. lia.
  + reflexivity.
Qed.

(** X12: the busy flag is never left set with nothing outstanding: in
    every reachable world in which the busy flag is set, at least one
    request is still awaited (and when that request settles, with any
    outcome, the flag is cleared, by X11).  There are never more awaited
    continuations than requests issued. *)
Theorem busy_only_while_outstanding (w : World) :
  reachable o w ->
  (isLoading (store w) = true -> pending w <> [])
  /\ (List.length (pending w) <= List.length (requests w))%nat.
Proof.
intros R. apply reachable_wellFormed in R.
destruct R as (_ & B & _ & _ & Q). auto.
Qed.

(** X13: in every reachable world the task collection has at most one
    task and the completed-count is 0 or 1. *)
Theorem at_most_one_task (w : World) :
  reachable o w ->
  (List.length (tasks (store w)) <= 1)%nat
  /\ (completedTasksCount (store w) = 0 \/ completedTasksCount (store w) = 1).
Proof.
intros R. apply reachable_wellFormed in R.
destruct R as (_ & _ & N & D & _). auto.
Qed.

(** *** The forms *)

Lemma trimStart_allWhiteSpace (s : string) :
  allWhiteSpace s = true -> trimStart s = EmptyString.
Proof.
induction s as [|c s IH]; cbn [allWhiteSpace trimStart]; [reflexivity |].
intros H. apply andb_true_iff in H. destruct H as [C R]. rewrite C. exact (IH R).
Qed.

Lemma trim_allWhiteSpace (s : string) :
  allWhiteSpace s = true -> trim s = EmptyString.
Proof.
intros H. unfold trim. rewrite (trimStart_allWhiteSpace s H). reflexivity.
Qed.

Lemma blank_false_not_empty (s : string) :
  EpsConfirmation.blank s = false -> s <> EmptyString.
Proof.
intros H ->. discriminate.
Qed.

(** X14: what a press of the form's start button does.  While the form
    is shown: if the file name, the log or the test case is blank (empty
    or white space only), nothing changes; otherwise the page moves to
    [TASK_MODE] for that file and sends one request, whose prompt is the
    validation prompt built from the log and the test case as entered
    (untrimmed, each truncated at the default limit); never the empty
    free-text message that [processEpsValidation] passes along. *)
Theorem confirm_sends_validation_prompt (w : World) (formData : EpsConfirmation.FormData) :
  showConfirmation (store w) = true ->
  let w' := step o w (Confirm formData) in
  (EpsConfirmation.blank (EpsConfirmation.pathToFile formData)
   || EpsConfirmation.blank (EpsConfirmation.epsLogContent formData)
   || EpsConfirmation.blank (EpsConfirmation.testCaseContent formData) = true ->
     w' = w)
  /\ (EpsConfirmation.blank (EpsConfirmation.pathToFile formData)
      || EpsConfirmation.blank (EpsConfirmation.epsLogContent formData)
      || EpsConfirmation.blank (EpsConfirmation.testCaseContent formData) = false ->
        requests w'
        = (requests w ++
           [ChatApi.chatRequest (VString
              (EpsUtils.buildEpsValidationPrompt
                 (EpsUtils.truncateContent (EpsConfirmation.epsLogContent formData) None)
                 (EpsUtils.truncateContent (EpsConfirmation.testCaseContent formData) None)))])%list
        /\ appState (store w') = TASK_MODE
        /\ currentFile (store w') = EpsConfirmation.pathToFile formData
        /\ showConfirmation (store w') = false
        /\ isLoading (store w') = true).
Proof.
intros Shown. cbv zeta. unfold step. rewrite Shown.
unfold EpsConfirmation.handleSubmit.
destruct (EpsConfirmation.blank (EpsConfirmation.pathToFile formData)) eqn:Bp;
  [split; [reflexivity | discriminate] |].
destruct (EpsConfirmation.blank (EpsConfirmation.epsLogContent formData)) eqn:Bl;
  [split; [reflexivity | discriminate] |].
destruct (EpsConfirmation.blank (EpsConfirmation.testCaseContent formData)) eqn:Bt;
  [split; [reflexivity | discriminate] |].
cbn [orb]. split; [discriminate |]. intros _.
apply blank_false_not_empty, String.eqb_neq in Bl, Bt.
destruct w as [[a m t c f l sc ct] ts rq pd rd].
run_handlers.
cbv [EpsConfirmationData.pathToFile EpsConfirmationData.epsLogContent
     EpsConfirmationData.testCaseContent].
cbn [ChatApi.present ChatApi.contentOf]. rewrite Bl, Bt.
repeat split.
Qed.

(** X15: the sidebar never disturbs the work in progress.  Whatever the
    action, [handleSidebarNavigation] leaves the mode, the tasks, the
    completed-count, the busy flag, the issued and the awaited requests as
    they are; [new-task] only opens the form; [history] changes nothing in
    the state and shows one toast with the number of messages; an action
    it does not know changes nothing at all. *)
Theorem sidebar_navigation_frame (w : World) (action : string) :
  let w' := step o w (Navigate action) in
  quiet w w'
  /\ currentFile (store w') = currentFile (store w)
  /\ (action = "new-task" ->
      showConfirmation (store w') = true
      /\ messages (store w') = messages (store w) /\ toasts w' = toasts w)
  /\ (action = "history" ->
      store w' = store w
      /\ toasts w'
         = (toasts w ++
            [{| title := "Message History";
                description := "You have "
                  ++ numberToString (Z.of_nat (List.length (messages (store w))))
                  ++ " messages in your current session.";
                destructive := false |}])%list)
  /\ (action <> "new-task" -> action <> "history" ->
      action <> "request-feature" -> action <> "privacy" -> w' = w).
Proof.
cbv zeta. cbn [step]. split; [apply sidebar_quiet |].
destruct w as [[a m t c f l sc ct] ts rq pd rd]. cbn [store messages].
unfold handleSidebarNavigation.
destruct (String.eqb_spec action "new-task") as [-> | N1].
{ run_handlers. repeat split; intros; congruence. }
destruct (String.eqb_spec action "history") as [-> | N2].
{ run_handlers. repeat split; intros; congruence. }
destruct (String.eqb_spec action "request-feature") as [-> | N3].
{ run_handlers. repeat split; intros; congruence. }
destruct (String.eqb_spec action "privacy") as [-> | N4].
{ run_handlers. repeat split; intros; congruence. }
run_handlers. repeat split; intros; congruence.
Qed.

(** X16: what the input box submits.  Input that is empty or white space
    only changes nothing, whether or not the page is busy; on an idle
    page any other input is stored, trimmed, as the next user message. *)
Theorem submit_trims_and_drops_blank (w : World) (inputMessage : string) :
  let w' := step o w (Submit inputMessage) in
  (allWhiteSpace inputMessage = true -> w' = w)
  /\ (isLoading (store w) = false ->
      trim inputMessage <> EmptyString ->
      exists m more,
        messages (store w') = (messages (store w) ++ m :: more)%list
        /\ ChatMessage.role m = user
        /\ ChatMessage.content m = VString (trim inputMessage)).
Proof.
cbv zeta. unfold step, ChatInterface.handleSubmit. split.
- intros H. rewrite (trim_allWhiteSpace _ H). reflexivity.
- intros Idle Hne. apply String.eqb_neq in Hne. rewrite Hne, Idle. cbn [orb].
  destruct w as [[a m t c f l sc ct] ts rq pd rd]. cbn [store isLoading appState] in *.
  unfold handleSendMessage.
  destruct (RegExp.isTestCase inputMessage), (RegExp.isTestCase (trim inputMessage));
    run_handlers; eexists; eexists;
    (split; [rewrite <- ?app_assoc; cbn [app]; reflexivity | split; reflexivity]).
Qed.

End OrchestratorMore.

Section OrchestratorMoreExamples.

Import ChatPage Runtime App Behaviour.

Lemma validating_reachable : reachable Examples.oracle MoreExamples.validating.
Proof.
exists [Navigate "new-task"; Confirm Examples.checkoutForm]. reflexivity.
Qed.

(** X6 on the freshly mounted page. *)
Lemma handleSendMessage_test_case_witness :
  let w := exec Examples.oracle
             (handleSendMessage false CHATTING "StepNo: 1 submit the checkout form")
             (initial Examples.oracle) in
  showConfirmation (store w) = true
  /\ requests w = []
  /\ List.length (messages (store w)) = 2%nat.
Proof.
destruct (handleSendMessage_test_case Examples.oracle (initial Examples.oracle) CHATTING
            "StepNo: 1 submit the checkout form" eq_refl eq_refl)
  as ((m1 & m2 & M & _) & S & R & _).
cbv zeta. split; [exact S |]. split; [exact R |].
change (messages (store (exec Examples.oracle
          (handleSendMessage (isLoading (store (initial Examples.oracle))) CHATTING
             "StepNo: 1 submit the checkout form") (initial Examples.oracle))))
  with (messages (store (exec Examples.oracle
          (handleSendMessage false CHATTING "StepNo: 1 submit the checkout form")
          (initial Examples.oracle)))) in M.
rewrite M. reflexivity.
Defined.


(** X8 at a validation that the model answers. *)
Lemma successful_validation_completes_task_witness :
  let w := run Examples.oracle [Navigate "new-task"] (initial Examples.oracle) in
  let confirmed := exec Examples.oracle
                     (handleFileConfirmation CHATTING MoreExamples.checkoutData) w in
  let result := Examples.http200 (Examples.modelReply "Overall Result: PASS") in
  let after := step Examples.oracle confirmed (Settle 0 result) in
  completedTasksCount (store after) = 1
  /\ appState (store after) = TASKS_COMPLETED
  /\ isLoading (store after) = false
  /\ forallb Task.completed (tasks (store after)) = true.
Proof.
intros w confirmed result after.
destruct (successful_validation_completes_task Examples.oracle w MoreExamples.checkoutData)
  as (task & k & T & _ & _ & _ & _ & _ & P & _ & K).
assert (Hk : nth_error (pending confirmed) 0 = Some k).
{ change (pending confirmed)
    with (pending (exec Examples.oracle
                     (handleFileConfirmation (appState (store w)) MoreExamples.checkoutData) w)).
  rewrite P. reflexivity. }
destruct (K confirmed 0%nat result
            {| ChatReply.chatResponse := VString "Overall Result: PASS";
               ChatReply.stateUpdate := CHATTING |} Hk eq_refl)
  as (C & A & L & _ & _ & completedAt & _ & D & _).
split; [exact C |]. split; [exact A |]. split; [exact L |].
unfold after. rewrite (D T). reflexivity.
Defined.

(** X28 at a validation whose request cannot reach the endpoint. *)
Lemma failed_validation_marks_its_task_witness :
  let w := run Examples.oracle [Navigate "new-task"] (initial Examples.oracle) in
  let confirmed := exec Examples.oracle
                     (handleFileConfirmation CHATTING MoreExamples.checkoutData) w in
  let after := step Examples.oracle confirmed (Settle 0 Examples.networkDown) in
  completedTasksCount (store after) = 1
  /\ appState (store after) = TASKS_COMPLETED
  /\ exists done,
       tasks (store after) = [done]
       /\ Task.completed done = true
       /\ Task.justification done = Some (VString "Validation failed: Failed to fetch").
Proof.
intros w confirmed after.
destruct (failed_validation_marks_its_task Examples.oracle w MoreExamples.checkoutData)
  as (task & k & T & _ & P & K).
assert (Hk : nth_error (pending confirmed) 0 = Some k).
{ change (pending confirmed)
    with (pending (exec Examples.oracle
                     (handleFileConfirmation (appState (store w)) MoreExamples.checkoutData) w)).
  rewrite P. reflexivity. }
destruct (K confirmed 0%nat Examples.networkDown (ErrorObject "Failed to fetch") Hk eq_refl)
  as (C & A & _ & _ & _ & completedAt & _ & D & _).
split; [exact C |]. split; [exact A |].
destruct (D T) as (done & E1 & _ & E2 & E3).
exists done. split; [exact E1 |]. split; [exact E2 | exact E3].
Defined.

(** X9 to X13 at the page while a validation is running. *)
Lemma messages_append_only_witness :
  extends (messages (store MoreExamples.validating))
    (messages (store (run Examples.oracle MoreExamples.aftermath MoreExamples.validating))).
Proof.
exact (messages_append_only Examples.oracle MoreExamples.validating MoreExamples.aftermath
         validating_reachable).
Defined.

Lemma mode_changes_allowed_witness :
  appState (store MoreExamples.validating) = TASK_MODE
  /\ appState (store (step Examples.oracle MoreExamples.validating StartNewTask)) <> CHATTING.
Proof.
split; [reflexivity |].
exact (proj1 (proj2 (mode_changes_allowed Examples.oracle MoreExamples.validating
                       StartNewTask validating_reachable)) eq_refl).
Defined.

Lemma requests_one_at_a_time_witness :
  requests (step Examples.oracle MoreExamples.validating (Settle 0 Examples.networkDown))
  = requests MoreExamples.validating
  /\ pending (step Examples.oracle MoreExamples.validating (Settle 0 Examples.networkDown))
     = [].
Proof.
destruct (proj2 (requests_one_at_a_time Examples.oracle MoreExamples.validating
                   (Settle 0 Examples.networkDown) validating_reachable)
            0%nat Examples.networkDown eq_refl) as (R & P & _).
split; [exact R |].
destruct P as [P _]; [vm_compute; constructor |]. exact P.
Defined.

Lemma busy_only_while_outstanding_witness :
  isLoading (store MoreExamples.validating) = true
  /\ pending MoreExamples.validating <> [].
Proof.
split; [reflexivity |].
exact (proj1 (busy_only_while_outstanding Examples.oracle MoreExamples.validating
                validating_reachable) eq_refl).
Defined.

Lemma at_most_one_task_witness :
  (List.length (tasks (store MoreExamples.validating)) <= 1)%nat.
Proof.
exact (proj1 (at_most_one_task Examples.oracle MoreExamples.validating
                validating_reachable)).
Defined.

(** X14 at a filled-in form and at a form whose log is blank. *)
Lemma confirm_sends_validation_prompt_witness :
  let w := run Examples.oracle [Navigate "new-task"] (initial Examples.oracle) in
  appState (store (step Examples.oracle w (Confirm Examples.checkoutForm))) = TASK_MODE
  /\ step Examples.oracle w (Confirm MoreExamples.blankLogForm) = w.
Proof.
intros w. split.
- exact (proj1 (proj2 (proj2 (confirm_sends_validation_prompt Examples.oracle w
                                Examples.checkoutForm eq_refl) eq_refl))).
- exact (proj1 (confirm_sends_validation_prompt Examples.oracle w
                  MoreExamples.blankLogForm eq_refl) eq_refl).
Defined.

(** X15 at an action the sidebar does not offer. *)
Lemma sidebar_navigation_frame_witness :
  step Examples.oracle MoreExamples.validating (Navigate "settings")
  = MoreExamples.validating.
Proof.
apply (proj2 (proj2 (proj2 (proj2
         (sidebar_navigation_frame Examples.oracle MoreExamples.validating "settings")))));
  discriminate.
Defined.

(** X16 at a line of blanks and at a padded question. *)
Lemma submit_trims_and_drops_blank_witness :
  step Examples.oracle (initial Examples.oracle) (Submit "   ") = initial Examples.oracle
  /\ exists m more,
       messages (store (step Examples.oracle (initial Examples.oracle)
                          (Submit "  hello  ")))
       = ([] ++ m :: more)%list
       /\ ChatMessage.role m = user
       /\ ChatMessage.content m = VString "hello".
Proof.
split.
- exact (proj1 (submit_trims_and_drops_blank Examples.oracle (initial Examples.oracle) "   ")
           eq_refl).
- apply (proj2 (submit_trims_and_drops_blank Examples.oracle (initial Examples.oracle)
                  "  hello  ")); [reflexivity | discriminate].
Defined.

End OrchestratorMoreExamples.

(** ** The completion panel *)

Section CompletionPanelFacts.

Import RegExp RegExpCapture CompletionPanel JsText.

Lemma substring_0_found (found rest : string) :
  substring 0 (String.length (found ++ rest) - String.length rest) (found ++ rest) = found.
Proof.
rewrite length_append. replace (String.length found + String.length rest
                                - String.length rest)%nat
  with (String.length found) by lia.
induction found as [|c found IH]; cbn [append String.length substring].
- destruct rest; reflexivity.
- now rewrite IH.
Qed.

(** [literal lit] reads the characters of [lit], as in [RegExp]. *)
Lemma capture_matcher_literal (i : bool) (lit : string) (prev : option ascii)
    (rest : string) (captured : option string)
    (k : option ascii -> string -> option string -> option (option string)) :
  RegExpCapture.matcher i (RegExpCapture.literal lit) prev rest captured k
  = match afterLiteral i lit prev rest with
    | Some (p, r) => k p r captured
    | None => None
    end.
Proof.
revert prev rest. induction lit as [|c lit IH]; intros prev rest;
  cbn [RegExpCapture.literal RegExpCapture.matcher afterLiteral].
- reflexivity.
- destruct rest as [|a rest]; [reflexivity |].
  destruct (sameChar i c a); [apply IH | reflexivity].
Qed.

(** Wherever [star] succeeds, the continuation succeeded after a run of
    characters of the class. *)
Lemma star_sound (class : ascii -> bool) (prev : option ascii) (rest : string)
    (k : option ascii -> string -> option (option string)) (x : option string) :
  star class prev rest k = Some x ->
  exists run r, rest = run ++ r /\ k (lastChar prev run) r = Some x.
Proof.
revert prev. induction rest as [|a rest IH]; intros prev; cbn [star].
- intros H. exists EmptyString, EmptyString. auto.
- destruct (class a).
  + destruct (star class (Some a) rest k) as [found |] eqn:E.
    * intros [= <-]. destruct (IH _ E) as (run & r & -> & K).
      exists (String a run), r. auto.
    * intros H. exists EmptyString, (String a rest). auto.
  + intros H. exists EmptyString, (String a rest). auto.
Qed.

(** After a run of white space followed by something else, [star] hands
    over right there, if the continuation succeeds there. *)
Lemma star_complete (prev : option ascii) (run r : string)
    (k : option ascii -> string -> option (option string)) (x : option string) :
  Behaviour.allWhiteSpace run = true ->
  k (lastChar prev run) r = Some x ->
  match r with
  | EmptyString => True
  | String b _ => isWhiteSpace b = false
  end ->
  star isWhiteSpace prev (run ++ r) k = Some x.
Proof.
revert prev. induction run as [|a run IH]; intros prev Hws Hk Hr;
  cbn [append lastChar Behaviour.allWhiteSpace] in *.
- destruct r as [|b r]; cbn [star]; [exact Hk |]. now rewrite Hr.
- apply andb_true_iff in Hws. destruct Hws as [Ha Hrun].
  cbn [star]. rewrite Ha. now rewrite (IH (Some a) Hrun Hk Hr).
Qed.

Lemma canonicalize_whiteSpace (c : ascii) :
  isWhiteSpace (canonicalize c) = isWhiteSpace c.
Proof.
destruct c as [[] [] [] [] [] [] [] []]; reflexivity.
Qed.

Lemma afterLiteral_prev (lit : string) (p q : option ascii) (rest : string) :
  lit <> EmptyString ->
  afterLiteral true lit p rest = afterLiteral true lit q rest.
Proof.
destruct lit as [|c lit]; [congruence |]. intros _. reflexivity.
Qed.

Lemma star_ext (class : ascii -> bool) (prev : option ascii) (rest : string)
    (k1 k2 : option ascii -> string -> option (option string)) :
  (forall p r, k1 p r = k2 p r) ->
  star class prev rest k1 = star class prev rest k2.
Proof.
intros H. revert prev. induction rest as [|a rest IH]; intros prev; cbn [star].
- apply H.
- rewrite (IH (Some a)), (H prev (String a rest)). reflexivity.
Qed.

Lemma overallResultPattern_here (prev : option ascii) (rest : string) :
  RegExpCapture.matcher true overallResultPattern prev rest None
    (fun _ _ captured => Some captured)
  = match afterLiteral true "Overall Result:" prev rest with
    | Some (p, r) => star isWhiteSpace p r (fun _ r' => verdictAt r')
    | None => None
    end.
Proof.
unfold overallResultPattern. cbn [RegExpCapture.matcher].
rewrite capture_matcher_literal.
destruct (afterLiteral true "Overall Result:" prev rest) as [[p r] |]; [| reflexivity].
apply star_ext. intros p' r'. unfold verdictAt.
rewrite !capture_matcher_literal.
rewrite (afterLiteral_prev "PASS" p' None r') by discriminate.
rewrite (afterLiteral_prev "FAIL" p' None r') by discriminate.
destruct (afterLiteral true "PASS" None r') as [[? ?] |]; [reflexivity |].
destruct (afterLiteral true "FAIL" None r') as [[? ?] |]; reflexivity.
Qed.

Lemma verdictAt_sound (r : string) (x : option string) :
  verdictAt r = Some x ->
  exists found, x = Some found
    /\ (sameUpToCase "PASS" found \/ sameUpToCase "FAIL" found).
Proof.
unfold verdictAt.
destruct (afterLiteral true "PASS" None r) as [[p r'] |] eqn:P.
- intros [= <-]. apply afterLiteral_sound in P. destruct P as (found & -> & S & _).
  exists found. rewrite substring_0_found. auto.
- destruct (afterLiteral true "FAIL" None r) as [[p r'] |] eqn:F; [| discriminate].
  intros [= <-]. apply afterLiteral_sound in F. destruct F as (found & -> & S & _).
  exists found. rewrite substring_0_found. auto.
Qed.

Lemma verdictAt_complete (verdict rest : string) :
  sameUpToCase "PASS" verdict \/ sameUpToCase "FAIL" verdict ->
  verdictAt (verdict ++ rest) = Some (Some verdict).
Proof.
unfold verdictAt. intros [S | S].
- rewrite (afterLiteral_complete _ _ None rest S). now rewrite substring_0_found.
- assert (N : afterLiteral true "PASS" None (verdict ++ rest) = None).
  { destruct verdict as [|f verdict]; cbn [sameUpToCase] in S; [contradiction |].
    destruct S as [E _]. cbn [afterLiteral append]. unfold sameChar.
    rewrite <- E. reflexivity. }
  rewrite N, (afterLiteral_complete _ _ None rest S). now rewrite substring_0_found.
Qed.

Lemma capture_searchFrom_sound (prev : option ascii) (s : string) (x : option string) :
  RegExpCapture.searchFrom true overallResultPattern prev s = Some x ->
  exists before rest,
    s = before ++ rest
    /\ RegExpCapture.matcher true overallResultPattern (lastChar prev before) rest None
         (fun _ _ captured => Some captured) = Some x.
Proof.
revert prev. induction s as [|a s IH]; intros prev; cbn [RegExpCapture.searchFrom].
- destruct (RegExpCapture.matcher true overallResultPattern prev EmptyString None _)
    as [found |] eqn:E; [| discriminate].
  intros [= <-]. exists EmptyString, EmptyString. auto.
- destruct (RegExpCapture.matcher true overallResultPattern prev (String a s) None _)
    as [found |] eqn:E.
  + intros [= <-]. exists EmptyString, (String a s). auto.
  + intros H. destruct (IH _ H) as (before & rest & -> & M).
    exists (String a before), rest. auto.
Qed.

(** The text captured is [PASS] or [FAIL] in some mix of cases, and a
    match implies that the words [Overall Result:] occur. *)
Lemma matchGroup1_sound (text found : string) :
  matchGroup1 true overallResultPattern text = Some found ->
  (sameUpToCase "PASS" found \/ sameUpToCase "FAIL" found)
  /\ occursIgnoringCase "Overall Result:" text.
Proof.
unfold matchGroup1.
destruct (RegExpCapture.searchFrom true overallResultPattern None text) as [[g |] |] eqn:E;
  try discriminate.
intros [= ->].
apply capture_searchFrom_sound in E. destruct E as (before & rest & -> & M).
rewrite overallResultPattern_here in M.
destruct (afterLiteral true "Overall Result:" (lastChar None before) rest)
  as [[p r] |] eqn:L; [| discriminate].
apply afterLiteral_sound in L. destruct L as (head & -> & S & _).
apply star_sound in M. destruct M as (run & r' & -> & V).
apply verdictAt_sound in V. destruct V as (found' & [= <-] & V).
split; [exact V |]. exists before, head, (run ++ r'). auto.
Qed.

(** *** Splitting at the marker *)

Lemma prefix_true_append (a s : string) :
  prefix a s = true -> exists rest, s = a ++ rest.
Proof.
revert s. induction a as [|x a IH]; intros s H.
- exists s. reflexivity.
- destruct s as [|y s]; cbn [prefix] in H; [discriminate |].
  destruct (ascii_dec x y) as [-> |]; [| discriminate].
  destruct (IH s H) as [rest ->]. exists rest. reflexivity.
Qed.

Lemma prefix_shorter (a x y : string) :
  prefix a (x ++ y) = true -> (String.length a <= String.length x)%nat ->
  prefix a x = true.
Proof.
revert x. induction a as [|c a IH]; intros x H L.
- destruct x; reflexivity.
- destruct x as [|d x]; cbn [String.length] in L; [lia |].
  cbn [append prefix] in *. destruct (ascii_dec c d); [| discriminate].
  apply IH; [exact H | lia].
Qed.

Lemma includesb_cons (c : ascii) (s needle : string) :
  includesb (String c s) needle = false ->
  prefix needle (String c s) = false /\ includesb s needle = false.
Proof.
cbn [includesb]. intros H. apply orb_false_iff in H. exact H.
Qed.

(** No occurrence of the separator: one piece. *)
Lemma splitFrom_none (sep piece s : string) :
  includesb s sep = false -> splitFrom sep 0 piece s = [piece ++ s].
Proof.
revert piece. induction s as [|c s IH]; intros piece H; cbn [splitFrom].
- now rewrite append_empty_r.
- apply includesb_cons in H. destruct H as [P R]. rewrite P.
  rewrite (IH _ R), append_assoc. reflexivity.
Qed.

(** Passing over the rest of an occurrence. *)
Lemma splitFrom_skip (sep piece x s : string) :
  splitFrom sep (String.length x) piece (x ++ s) = splitFrom sep 0 piece s.
Proof.
induction x as [|c x IH]; cbn [String.length append].
- destruct s; reflexivity.
- cbn [splitFrom]. exact IH.
Qed.

(** The first occurrence of the separator, after a head in which no
    occurrence starts. *)
Lemma splitFrom_first (c : ascii) (sep' piece head tail : string) :
  (forall h1 h2, head = h1 ++ h2 -> h2 <> EmptyString ->
     prefix (String c sep') (h2 ++ String c sep' ++ tail) = false) ->
  splitFrom (String c sep') 0 piece (head ++ String c sep' ++ tail)
  = (piece ++ head) :: splitFrom (String c sep') 0 EmptyString tail.
Proof.
revert piece. induction head as [|x head IH]; intros piece H.
- pose proof (prefix_append (String c sep') tail) as P.
  change (EmptyString ++ String c sep' ++ tail) with (String c (sep' ++ tail)).
  change (String c sep' ++ tail) with (String c (sep' ++ tail)) in P.
  cbn [splitFrom]. rewrite P.
  rewrite append_empty_r. cbn [String.length Nat.sub].
  rewrite ?Nat.sub_0_r. now rewrite splitFrom_skip.
- pose proof (H EmptyString (String x head) eq_refl) as P.
  assert (N : String x head <> EmptyString) by discriminate. specialize (P N).
  change (String x head ++ String c sep' ++ tail)
    with (String x (head ++ String c sep' ++ tail)) in *.
  cbn [splitFrom]. rewrite P.
  rewrite IH, append_assoc; [reflexivity |].
  intros h1 h2 -> N'. exact (H (String x h1) h2 eq_refl N').
Qed.

(** The second piece of a text with one marker. *)
Lemma split_at_marker (head body : string) :
  includesb (head ++ "Reasoning and Evidence") marker = false ->
  includesb body marker = false ->
  JsText.split (head ++ marker ++ body) marker = [head; body].
Proof.
intros Hhead Hbody. unfold JsText.split, marker.
rewrite splitFrom_first.
- rewrite (splitFrom_none _ _ _ Hbody). reflexivity.
- intros h1 h2 -> N.
  destruct (prefix "Reasoning and Evidence:" (h2 ++ "Reasoning and Evidence:" ++ body))
    eqn:P; [| reflexivity].
  exfalso.
  change ("Reasoning and Evidence:" ++ body)
    with ("Reasoning and Evidence" ++ (":" ++ body)) in P.
  rewrite <- append_assoc in P.
  apply prefix_shorter in P.
  + apply prefix_true_append in P. destruct P as [rest P].
    assert (I : includes ((h1 ++ h2) ++ "Reasoning and Evidence") marker).
    { exists h1, rest. rewrite append_assoc, P. reflexivity. }
    apply includesb_complete in I. congruence.
  + rewrite length_append. destruct h2; [congruence |]. cbn. lia.
Qed.

(** X17: the result shown is always a verdict.  Whenever the panel can
    compute it, the overall result is [Unknown], or [PASS] or [FAIL] in
    the mix of upper and lower case in which the model wrote it; nothing
    else of the justification can end up there. *)
Theorem overallResult_is_a_verdict (task : option Task.t) (result : string) :
  overallResult task = inr result ->
  result = "Unknown" \/ sameUpToCase "PASS" result \/ sameUpToCase "FAIL" result.
Proof.
unfold overallResult.
destruct (justificationOf task) as [| | b | n | text | items | fields];
  try discriminate; try (intros [= <-]; now left).
intros [= <-].
destruct (matchGroup1 true overallResultPattern text) as [found |] eqn:E;
  [| now left].
destruct found as [|c found]; [now left |]. cbn [orElse].
right. exact (proj1 (matchGroup1_sound _ _ E)).
Qed.

(** X18: what the panel shows when the justification lacks what it looks
    for.  With no completed task, or a task without justification, the
    result is [Unknown] and the explanation a fixed placeholder; a
    justification in which [Overall Result:] does not occur (in any case)
    gives [Unknown]; a non-empty justification without the marker
    [Reasoning and Evidence:] is shown whole. *)
Theorem extraction_fallbacks :
  (forall tasks,
     forallb (fun t => negb (Task.completed t)) tasks = true ->
     overallResult (shownTask tasks) = inr "Unknown"
     /\ reasoningAndEvidence (shownTask tasks) = inr "No justification provided")
  /\ (forall task,
        Task.justification task = None ->
        overallResult (Some task) = inr "Unknown"
        /\ reasoningAndEvidence (Some task) = inr "No justification provided")
  /\ (forall task text,
        Task.justification task = Some (VString text) ->
        ~ occursIgnoringCase "Overall Result:" text ->
        overallResult (Some task) = inr "Unknown")
  /\ (forall task text,
        Task.justification task = Some (VString text) ->
        text <> EmptyString ->
        includesb text marker = false ->
        reasoningAndEvidence (Some task) = inr text).
Proof.
split; [| split; [| split]].
- intros tasks H.
  assert (E : filter Task.completed tasks = []).
  { induction tasks as [|t tasks IH]; [reflexivity |].
    cbn [forallb filter] in *. apply andb_true_iff in H. destruct H as [C R].
    destruct (Task.completed t); [discriminate | exact (IH R)]. }
  unfold shownTask. rewrite E. split; reflexivity.
- intros task H. unfold overallResult, reasoningAndEvidence, justificationOf.
  rewrite H. split; reflexivity.
- intros task text H N. unfold overallResult, justificationOf. rewrite H.
  destruct (matchGroup1 true overallResultPattern text) as [found |] eqn:E;
    [| reflexivity].
  elim N. exact (proj2 (matchGroup1_sound _ _ E)).
- intros task text H N I. unfold reasoningAndEvidence, justificationOf. rewrite H.
  unfold JsText.split. rewrite (splitFrom_none _ _ _ I). cbn [nth_error option_map orElse].
  destruct text; [congruence | reflexivity].
Qed.

(** X19: the format the prompt asks for is read back.  A justification
    that starts with [Overall Result:], optional white space and the
    verdict, and later has the marker [Reasoning and Evidence:] once,
    followed by a body that is not blank, gives that verdict as written
    and the body, trimmed, as the explanation. *)
Theorem extraction_round_trip (task : Task.t) (space verdict middle body : string) :
  Task.justification task
  = Some (VString ("Overall Result:" ++ space ++ verdict ++ middle ++ marker ++ body)) ->
  Behaviour.allWhiteSpace space = true ->
  sameUpToCase "PASS" verdict \/ sameUpToCase "FAIL" verdict ->
  includesb (("Overall Result:" ++ space ++ verdict ++ middle) ++ "Reasoning and Evidence")
    marker = false ->
  includesb body marker = false ->
  trim body <> EmptyString ->
  overallResult (Some task) = inr verdict
  /\ reasoningAndEvidence (Some task) = inr (trim body).
Proof.
intros H Hspace Hverdict Hhead Hbody Htrim. split.
- unfold overallResult, justificationOf. rewrite H.
  assert (M : matchGroup1 true overallResultPattern
                ("Overall Result:" ++ space ++ verdict ++ middle ++ marker ++ body)
              = Some verdict).
  { unfold matchGroup1.
    assert (S : RegExpCapture.searchFrom true overallResultPattern None
                  ("Overall Result:" ++ space ++ verdict ++ middle ++ marker ++ body)
                = Some (Some verdict)).
    { assert (Here : RegExpCapture.matcher true overallResultPattern None
                       ("Overall Result:" ++ space ++ verdict ++ middle ++ marker ++ body)
                       None (fun _ _ captured => Some captured)
                     = Some (Some verdict)).
      { rewrite overallResultPattern_here.
        rewrite (afterLiteral_complete "Overall Result:" "Overall Result:" None _
                   (sameUpToCase_refl _)).
        apply star_complete.
        - exact Hspace.
        - apply verdictAt_complete. exact Hverdict.
        - destruct verdict as [|v verdict]; [destruct Hverdict; contradiction |].
          cbn [append].
          destruct Hverdict as [[E _] | [E _]];
            rewrite <- (canonicalize_whiteSpace v), <- E; reflexivity. }
      destruct ("Overall Result:" ++ space ++ verdict ++ middle ++ marker ++ body);
        cbn [RegExpCapture.searchFrom]; now rewrite Here. }
    now rewrite S. }
  rewrite M. destruct verdict as [|v verdict]; [destruct Hverdict; contradiction |].
  reflexivity.
- unfold reasoningAndEvidence, justificationOf. rewrite H.
  replace ("Overall Result:" ++ space ++ verdict ++ middle ++ marker ++ body)
    with (("Overall Result:" ++ space ++ verdict ++ middle) ++ marker ++ body)
    by (rewrite !append_assoc; reflexivity).
  rewrite (split_at_marker _ _ Hhead Hbody). cbn [nth_error option_map].
  destruct (trim body) as [|c rest]; [congruence | reflexivity].
Qed.

End CompletionPanelFacts.

Section CompletionPanelExamples.

Import RegExp CompletionPanel.

(** X17 at a verdict written in lower case. *)
Lemma overallResult_is_a_verdict_witness :
  "pass" = "Unknown" \/ sameUpToCase "PASS" "pass" \/ sameUpToCase "FAIL" "pass".
Proof.
exact (overallResult_is_a_verdict
         (Some (MoreExamples.judged "The overall result: pass, see above."))
         "pass" eq_refl).
Defined.

(** X19 at the sample of the specification. *)
Lemma extraction_round_trip_witness :
  let task := MoreExamples.judged
                ("Overall Result: FAIL" ++ LF ++ "Reasoning and Evidence:" ++ LF
                 ++ "step details") in
  overallResult (Some task) = inr "FAIL"
  /\ reasoningAndEvidence (Some task) = inr "step details".
Proof.
intros task.
refine (extraction_round_trip task " " "FAIL" LF (LF ++ "step details")
          eq_refl eq_refl _ eq_refl eq_refl _).
- right. vm_compute. tauto.
- vm_compute. discriminate.
Defined.

(** X18 with no task at all and with a justification without the marker. *)
Lemma extraction_fallbacks_witness :
  overallResult (shownTask []) = inr "Unknown"
  /\ reasoningAndEvidence (Some (MoreExamples.judged "The log shows no refund."))
     = inr "The log shows no refund.".
Proof.
split.
- exact (proj1 (proj1 extraction_fallbacks [] eq_refl)).
- apply (proj2 (proj2 (proj2 extraction_fallbacks))
           (MoreExamples.judged "The log shows no refund.") "The log shows no refund.");
    [reflexivity | discriminate | reflexivity].
Defined.

End CompletionPanelExamples.

(** ** The task panel *)

Section TaskPanelFacts.

(** X20: the snippet shown for a test case is bounded.  For a limit that
    is not negative, the result of the panel's [truncateContent] has at
    most [maxLength + 3] characters: it is [N/A] for a missing or empty
    content, the content itself when that fits, and otherwise its first
    [maxLength] characters followed by three dots. *)
Theorem snippet_bounded (content : option string) (maxLength : Z) :
  0 <= maxLength ->
  jsLength (TaskPanel.truncateContent content (Some maxLength)) <= maxLength + 3
  /\ (content = None \/ content = Some EmptyString ->
      TaskPanel.truncateContent content (Some maxLength) = "N/A")
  /\ (forall text,
        content = Some text -> text <> EmptyString ->
        TaskPanel.truncateContent content (Some maxLength)
        = if maxLength <? jsLength text
          then substring 0 (Z.to_nat maxLength) text ++ "..."
          else text).
Proof.
intros Hmax. unfold TaskPanel.truncateContent.
split; [| split].
- destruct content as [[|c text] |]; try (cbn; lia).
  destruct (maxLength <? jsLength (String c text)) eqn:E.
  + apply Z.ltb_lt in E.
    destruct (slice_0_inside (String c text) maxLength) as [_ L]; [lia |].
    rewrite jsLength_append, L. cbn. lia.
  + apply Z.ltb_ge in E. lia.
- intros [-> | ->]; reflexivity.
- intros text -> N. destruct text as [|c text]; [congruence |].
  destruct (maxLength <? jsLength (String c text)) eqn:E; [| reflexivity].
  apply Z.ltb_lt in E.
  destruct (slice_0_inside (String c text) maxLength) as [S _]; [lia |].
  now rewrite S.
Qed.

Lemma snippet_bounded_witness :
  jsLength (TaskPanel.truncateContent (Some (replicate 250 "x"%char)) (Some 100)) <= 100 + 3.
Proof.
apply (proj1 (snippet_bounded (Some (replicate 250 "x"%char)) 100 ltac:(lia))).
Defined.

End TaskPanelFacts.

(** ** Trimming *)

Section TrimFacts.

Import JsText Behaviour.

Lemma reverse_append (a b : string) : reverse (a ++ b) = reverse b ++ reverse a.
Proof.
induction a as [|c a IH]; cbn [append reverse].
- now rewrite append_empty_r.
- now rewrite IH, append_assoc.
Qed.

Lemma reverse_involutive (s : string) : reverse (reverse s) = s.
Proof.
induction s as [|c s IH]; cbn [reverse]; [reflexivity |].
rewrite reverse_append, IH. reflexivity.
Qed.

Lemma allWhiteSpace_append (a b : string) :
  allWhiteSpace (a ++ b) = allWhiteSpace a && allWhiteSpace b.
Proof.
induction a as [|c a IH]; cbn [append allWhiteSpace]; [reflexivity |].
now rewrite IH, andb_assoc.
Qed.

Lemma allWhiteSpace_reverse (s : string) : allWhiteSpace (reverse s) = allWhiteSpace s.
Proof.
induction s as [|c s IH]; cbn [reverse allWhiteSpace]; [reflexivity |].
rewrite allWhiteSpace_append, IH. cbn [allWhiteSpace].
rewrite andb_true_r. apply andb_comm.
Qed.

Lemma noWhiteSpace_append (a b : string) :
  noWhiteSpace (a ++ b) = noWhiteSpace a && noWhiteSpace b.
Proof.
induction a as [|c a IH]; cbn [append noWhiteSpace]; [reflexivity |].
now rewrite IH, andb_assoc.
Qed.

Lemma noWhiteSpace_reverse (s : string) : noWhiteSpace (reverse s) = noWhiteSpace s.
Proof.
induction s as [|c s IH]; cbn [reverse noWhiteSpace]; [reflexivity |].
rewrite noWhiteSpace_append, IH. cbn [noWhiteSpace].
rewrite andb_true_r. apply andb_comm.
Qed.

(** [trimStart] drops a run of white space and nothing else. *)
Lemma trimStart_decompose (s : string) :
  exists lead, s = lead ++ trimStart s /\ allWhiteSpace lead = true.
Proof.
induction s as [|c s IH]; cbn [trimStart].
- exists EmptyString. auto.
- destruct (isWhiteSpace c) eqn:C.
  + destruct IH as (lead & E & W). exists (String c lead).
    cbn [append allWhiteSpace]. rewrite C, W, <- E. auto.
  + exists EmptyString. auto.
Qed.

Lemma trimStart_cases (s : string) :
  (trimStart s = EmptyString /\ allWhiteSpace s = true)
  \/ exists c rest, trimStart s = String c rest /\ isWhiteSpace c = false.
Proof.
induction s as [|c s IH]; cbn [trimStart allWhiteSpace].
- left. auto.
- destruct (isWhiteSpace c) eqn:C; [exact IH |]. right. eauto.
Qed.

Lemma trimStart_idempotent (s : string) : trimStart (trimStart s) = trimStart s.
Proof.
destruct (trimStart_cases s) as [[-> _] | (c & rest & -> & C)]; [reflexivity |].
cbn [trimStart]. now rewrite C.
Qed.

(** A character that is not white space stops [trimStart]. *)
Lemma trimStart_keeps (pre post : string) (f : ascii) :
  isWhiteSpace f = false ->
  trimStart (pre ++ String f post) = trimStart pre ++ String f post.
Proof.
intros F. induction pre as [|c pre IH]; cbn [append trimStart].
- now rewrite F.
- destruct (isWhiteSpace c); [exact IH | reflexivity].
Qed.

Lemma trimEnd_decompose (s : string) :
  exists trail, s = trimEnd s ++ trail /\ allWhiteSpace trail = true.
Proof.
unfold trimEnd. destruct (trimStart_decompose (reverse s)) as (lead & E & W).
exists (reverse lead). split; [| now rewrite allWhiteSpace_reverse].
rewrite <- reverse_append, <- E. now rewrite reverse_involutive.
Qed.

Lemma trimEnd_idempotent (s : string) : trimEnd (trimEnd s) = trimEnd s.
Proof.
unfold trimEnd. now rewrite reverse_involutive, trimStart_idempotent.
Qed.

Lemma trimEnd_cons (c : ascii) (rest : string) :
  isWhiteSpace c = false -> trimEnd (String c rest) = String c (trimEnd rest).
Proof.
intros C. unfold trimEnd. cbn [reverse].
rewrite (trimStart_keeps _ _ _ C), reverse_append. reflexivity.
Qed.

Lemma trim_trimEnd (s : string) : trim s = trimEnd (trimStart s).
Proof. reflexivity. Qed.

(** What [trim] gives: nothing for white space only, and otherwise a
    string that starts with a character that is not white space. *)
Lemma trim_cases (s : string) :
  (trim s = EmptyString /\ allWhiteSpace s = true)
  \/ exists c rest, trimStart s = String c rest /\ isWhiteSpace c = false
                    /\ trim s = String c (trimEnd rest).
Proof.
rewrite trim_trimEnd.
destruct (trimStart_cases s) as [[-> W] | (c & rest & -> & C)].
- left. auto.
- right. exists c, rest. rewrite (trimEnd_cons _ _ C). auto.
Qed.

Lemma trim_idempotent (s : string) : trim (trim s) = trim s.
Proof.
destruct (trim_cases s) as [[-> _] | (c & rest & _ & C & ->)]; [reflexivity |].
rewrite trim_trimEnd. cbn [trimStart]. rewrite C.
now rewrite (trimEnd_cons _ _ C), trimEnd_idempotent.
Qed.

Lemma trim_empty_iff (s : string) :
  trim s = EmptyString <-> allWhiteSpace s = true.
Proof.
split; [| apply trim_allWhiteSpace].
destruct (trim_cases s) as [[_ W] | (c & rest & _ & _ & ->)]; [auto | discriminate].
Qed.

(** [trim] drops a run of white space at each end and nothing else. *)
Lemma trim_decompose (s : string) :
  exists lead trail,
    s = lead ++ trim s ++ trail
    /\ allWhiteSpace lead = true /\ allWhiteSpace trail = true.
Proof.
destruct (trimStart_decompose s) as (lead & E & W).
destruct (trimEnd_decompose (trimStart s)) as (trail & E' & W').
exists lead, trail. rewrite trim_trimEnd, <- E', <- E. auto.
Qed.

End TrimFacts.

(** ** The earlier confirmation form *)

Section EarlierFormFacts.

Import JsText EarlierEpsConfirmation.

Lemma prefix_LF (c : ascii) (rest : string) :
  prefix LF (String c rest) = true -> isWhiteSpace c = true.
Proof.
unfold LF. cbn [prefix]. destruct (ascii_dec "010" c) as [<- |]; [reflexivity | discriminate].
Qed.

(** The lines of a text are all white space exactly when the text is. *)
Lemma lines_allWhiteSpace (piece s : string) :
  forallb allWhiteSpace (splitFrom LF 0 piece s)
  = allWhiteSpace piece && allWhiteSpace s.
Proof.
revert piece. induction s as [|c s IH]; intros piece; cbn [splitFrom forallb allWhiteSpace].
- now rewrite andb_true_r.
- destruct (prefix LF (String c s)) eqn:P.
  + rewrite (prefix_LF _ _ P). cbn [forallb String.length LF Nat.sub andb].
    rewrite IH. reflexivity.
  + rewrite IH, allWhiteSpace_append. cbn [allWhiteSpace].
    rewrite andb_true_r, andb_assoc. reflexivity.
Qed.

Lemma parseTasks_empty_iff (tasksList : string) :
  parseTasks tasksList = [] <-> allWhiteSpace tasksList = true.
Proof.
unfold parseTasks, JsText.split.
pose proof (lines_allWhiteSpace EmptyString tasksList) as L. cbn [allWhiteSpace andb] in L.
rewrite <- L. clear L.
induction (splitFrom LF 0 EmptyString tasksList) as [|p ps IH];
  cbn [map filter forallb]; [tauto |].
destruct (String.eqb_spec (trim p) EmptyString) as [E | N]; cbn [negb].
- rewrite (proj1 (trim_empty_iff p) E). exact IH.
- split; [discriminate |]. intros H. apply andb_true_iff in H. destruct H as [H _].
  elim N. now apply trim_empty_iff.
Qed.

(** X21: the tasks of the earlier form.  Every task handed on is a line
    of the text, trimmed and not empty, so it has no white space at
    either end; and the list is empty exactly when the text is white
    space only. *)
Theorem parseTasks_lines (tasksList : string) :
  Forall (fun task => task <> EmptyString /\ trim task = task
                      /\ exists line, In line (JsText.split tasksList LF)
                                      /\ task = trim line)
    (parseTasks tasksList)
  /\ (parseTasks tasksList = [] <-> allWhiteSpace tasksList = true).
Proof.
split; [| apply parseTasks_empty_iff].
unfold parseTasks. apply Forall_forall. intros task H.
apply filter_In in H. destruct H as [H N].
apply in_map_iff in H. destruct H as (line & <- & I).
split; [| split].
- intros E. rewrite E in N. discriminate.
- apply trim_idempotent.
- exists line. auto.
Qed.

(** X22: the earlier form accepts exactly the forms whose file name and
    task text are not blank; it then hands on the file name as entered and
    the parsed tasks, of which there is at least one.  Its third check can
    never fail: the alert [Please specify valid tasks] is never shown. *)
Theorem earlier_handleSubmit_outcomes (formData : FormData) :
  handleSubmit formData <> inl "Please specify valid tasks"
  /\ (allWhiteSpace (pathToPdfCsvFile formData) = false ->
      allWhiteSpace (tasksList formData) = false ->
      handleSubmit formData
      = inr {| data_pathToPdfCsvFile := pathToPdfCsvFile formData;
               tasksToBeDone := parseTasks (tasksList formData);
               data_timestamp := timestamp formData |}
      /\ parseTasks (tasksList formData) <> [])
  /\ (allWhiteSpace (pathToPdfCsvFile formData) = true
      \/ allWhiteSpace (tasksList formData) = true ->
      exists alert, handleSubmit formData = inl alert).
Proof.
unfold handleSubmit.
destruct (String.eqb_spec (trim (pathToPdfCsvFile formData)) EmptyString) as [Ep | Np].
{ apply trim_empty_iff in Ep. rewrite Ep.
  split; [discriminate |]. split; [discriminate | eauto]. }
destruct (String.eqb_spec (trim (tasksList formData)) EmptyString) as [Et | Nt].
{ apply trim_empty_iff in Et. rewrite Et.
  split; [discriminate |]. split; [discriminate | eauto]. }
assert (Wp : allWhiteSpace (pathToPdfCsvFile formData) = false).
{ destruct (allWhiteSpace (pathToPdfCsvFile formData)) eqn:W; [| reflexivity].
  elim Np. now apply trim_empty_iff. }
assert (Wt : allWhiteSpace (tasksList formData) = false).
{ destruct (allWhiteSpace (tasksList formData)) eqn:W; [| reflexivity].
  elim Nt. now apply trim_empty_iff. }
assert (Some_ : parseTasks (tasksList formData) <> []).
{ intros E. apply parseTasks_empty_iff in E. congruence. }
rewrite Wp, Wt.
destruct (parseTasks (tasksList formData)) as [|t ts] eqn:P; [congruence |].
split; [discriminate |]. split; [auto |].
intros [H | H]; discriminate.
Qed.

End EarlierFormFacts.

Section EarlierFormExamples.

Import EarlierEpsConfirmation.

(** X22 at a form with a blank line between two tasks. *)
Lemma earlier_handleSubmit_outcomes_witness :
  handleSubmit MoreExamples.reportForm
  = inr {| data_pathToPdfCsvFile := "sales.csv";
           tasksToBeDone := ["Extract data from tables"; "Generate summary report"];
           data_timestamp := 1700000000000 |}.
Proof.
exact (proj1 (proj1 (proj2 (earlier_handleSubmit_outcomes MoreExamples.reportForm))
                eq_refl eq_refl)).
Defined.

(** X21 at the same text and at a text of blanks. *)
Lemma parseTasks_lines_witness :
  parseTasks (tasksList MoreExamples.reportForm)
  = ["Extract data from tables"; "Generate summary report"]
  /\ parseTasks ("  " ++ LF ++ " ") = [].
Proof.
split; [reflexivity |].
exact (proj2 (proj2 (parseTasks_lines ("  " ++ LF ++ " "))) eq_refl).
Defined.

End EarlierFormExamples.

(** ** Detection and trimming *)

Section DetectionTrim.

Import RegExp JsText.

Lemma whiteSpace_not_word (c : ascii) : isWhiteSpace c = true -> isWordChar c = false.
Proof.
destruct c as [[] [] [] [] [] [] [] []]; cbv; congruence.
Qed.

Lemma next_allWhiteSpace (s : string) :
  allWhiteSpace s = true -> isWordAt (next s) = false.
Proof.
destruct s as [|c s]; cbn [allWhiteSpace next isWordAt]; [reflexivity |].
intros H. apply andb_true_iff in H. destruct H as [C _]. now apply whiteSpace_not_word.
Qed.

Lemma next_append (a b : string) :
  a <> EmptyString -> next (a ++ b) = next a.
Proof. destruct a; [congruence | reflexivity]. Qed.

Lemma sameUpToCase_noWhiteSpace (token found : string) :
  sameUpToCase token found -> noWhiteSpace found = noWhiteSpace token.
Proof.
revert found. induction token as [|t token IH]; intros [|f found];
  cbn [sameUpToCase noWhiteSpace]; try tauto.
intros [E H]. rewrite (IH _ H).
rewrite <- (canonicalize_whiteSpace f), <- (canonicalize_whiteSpace t), E. reflexivity.
Qed.

Lemma sameUpToCase_not_empty (token found : string) :
  sameUpToCase token found -> token <> EmptyString -> found <> EmptyString.
Proof.
destruct token, found; cbn [sameUpToCase]; try tauto; congruence.
Qed.

(** Trimming around a block that has no white space in it. *)
Lemma trimStart_block (before found after : string) :
  found <> EmptyString -> noWhiteSpace found = true ->
  trimStart (before ++ found ++ after) = trimStart before ++ found ++ after.
Proof.
destruct found as [|f found]; [congruence |]. cbn [noWhiteSpace]. intros _ H.
apply andb_true_iff in H. destruct H as [F _]. apply negb_true_iff in F.
exact (trimStart_keeps before (found ++ after) f F).
Qed.

Lemma trimEnd_block (before found after : string) :
  found <> EmptyString -> noWhiteSpace found = true ->
  trimEnd (before ++ found ++ after) = before ++ found ++ trimEnd after.
Proof.
intros N W. unfold trimEnd.
rewrite !reverse_append, append_assoc.
rewrite trimStart_block.
- rewrite !reverse_append, !reverse_involutive, append_assoc. reflexivity.
- intros E. apply N. rewrite <- (reverse_involutive found), E. reflexivity.
- now rewrite noWhiteSpace_reverse.
Qed.

Lemma trim_block (before found after : string) :
  found <> EmptyString -> noWhiteSpace found = true ->
  trim (before ++ found ++ after) = trimStart before ++ found ++ trimEnd after.
Proof.
intros N W. rewrite trim_trimEnd, (trimStart_block _ _ _ N W).
apply (trimEnd_block _ _ _ N W).
Qed.

Lemma next_trimEnd (after : string) :
  isWordAt (next after) = false -> isWordAt (next (trimEnd after)) = false.
Proof.
intros H. destruct (trimEnd_decompose after) as (trail & E & _).
destruct (trimEnd after) as [|c rest]; [reflexivity |].
rewrite E in H. exact H.
Qed.

Lemma occursIgnoringCase_trim (token s : string) :
  token <> EmptyString -> noWhiteSpace token = true ->
  occursIgnoringCase token (trim s) <-> occursIgnoringCase token s.
Proof.
intros N W. split.
- intros (b & f & a & E & S).
  destruct (trim_decompose s) as (lead & trail & D & _ & _).
  exists (lead ++ b), f, (a ++ trail). split; [| exact S].
  rewrite D, E, !append_assoc. reflexivity.
- intros (b & f & a & -> & S).
  exists (trimStart b), f, (trimEnd a). split; [| exact S].
  apply trim_block.
  + exact (sameUpToCase_not_empty _ _ S N).
  + now rewrite (sameUpToCase_noWhiteSpace _ _ S).
Qed.

Lemma occursAtWordEnd_trim (token s : string) :
  token <> EmptyString -> noWhiteSpace token = true ->
  occursAtWordEnd token (trim s) <-> occursAtWordEnd token s.
Proof.
intros N W. split.
- intros (b & f & a & E & S & Hw).
  destruct (trim_decompose s) as (lead & trail & D & _ & T).
  exists (lead ++ b), f, (a ++ trail). split; [| split; [exact S |]].
  + rewrite D, E, !append_assoc. reflexivity.
  + destruct a as [|c a]; [exact (next_allWhiteSpace _ T) | exact Hw].
- intros (b & f & a & -> & S & Hw).
  exists (trimStart b), f, (trimEnd a). split; [| split; [exact S |]].
  + apply trim_block.
    * exact (sameUpToCase_not_empty _ _ S N).
    * now rewrite (sameUpToCase_noWhiteSpace _ _ S).
  + exact (next_trimEnd _ Hw).
Qed.

(** Trimming a text does not change whether a test case is detected in
    it. *)
Lemma isTestCase_trim (s : string) : isTestCase (trim s) = isTestCase s.
Proof.
apply eq_true_iff_eq. rewrite !isTestCase_iff.
rewrite (occursIgnoringCase_trim "{TestCaseID" s) by (discriminate || reflexivity).
rewrite (occursAtWordEnd_trim "StepNo" s) by (discriminate || reflexivity).
rewrite (occursIgnoringCase_trim "<StepNo" s) by (discriminate || reflexivity).
reflexivity.
Qed.

End DetectionTrim.

(** ** The input box and the page together *)

Section SubmitFacts.

Import ChatPage Runtime App Behaviour.

Variable o : Oracle.

(** X23: the input box and the page detect a test case on different
    texts, the box on the input as typed and the page on the trimmed
    input, and they never disagree.  On an idle page, input that is not
    blank either holds a test case, and then the form opens, the trimmed
    input and the request for the log file are the two new messages and
    no request is issued; or it holds none, and then the form flag is
    untouched and exactly one request is issued, for the trimmed input. *)
Theorem submit_routes_by_detection (w : World) (inputMessage : string) :
  isLoading (store w) = false ->
  trim inputMessage <> EmptyString ->
  let w' := step o w (Submit inputMessage) in
  if RegExp.isTestCase inputMessage then
    showConfirmation (store w') = true
    /\ requests w' = requests w
    /\ pending w' = pending w
    /\ isLoading (store w') = false
    /\ exists m1 m2,
         messages (store w') = (messages (store w) ++ [m1; m2])%list
         /\ ChatMessage.role m1 = user
         /\ ChatMessage.content m1 = VString (trim inputMessage)
         /\ ChatMessage.role m2 = assistant
         /\ ChatMessage.content m2
            = VString "Test case detected. Please upload the corresponding EPS log file to proceed with validation."
  else
    showConfirmation (store w') = showConfirmation (store w)
    /\ requests w'
       = (requests w ++ [ChatApi.chatRequest (VString (trim inputMessage))])%list
    /\ List.length (pending w') = S (List.length (pending w))
    /\ isLoading (store w') = true
    /\ exists m1,
         messages (store w') = (messages (store w) ++ [m1])%list
         /\ ChatMessage.role m1 = user
         /\ ChatMessage.content m1 = VString (trim inputMessage).
Proof.
intros Idle Hne. cbv zeta. apply String.eqb_neq in Hne.
unfold step, ChatInterface.handleSubmit. rewrite Hne, Idle. cbn [orb].
pose proof (isTestCase_trim inputMessage) as T.
destruct w as [[a m t c f l sc ct] ts rq pd rd]. cbn [store isLoading appState] in *.
subst l. unfold handleSendMessage.
destruct (RegExp.isTestCase inputMessage); rewrite T; run_handlers.
- repeat (split; [reflexivity |]).
  eexists. eexists. rewrite <- app_assoc. cbn [app]. repeat split.
- split; [reflexivity |].
  unfold callChatAPI, fetch. cbn [bind tryCatch ChatApi.present andb].
  run_handlers.
  split; [reflexivity |]. split; [rewrite length_app; cbn [List.length]; lia |].
  split; [reflexivity |].
  eexists. repeat split.
Qed.


End SubmitFacts.

Section SubmitExamples.

Import ChatPage Runtime App Behaviour.

(** X23 at a padded test step typed into the fresh page. *)
Lemma submit_routes_by_detection_witness :
  let w' := step Examples.oracle (initial Examples.oracle)
              (Submit "  StepNo: 1 submit the checkout form  ") in
  showConfirmation (store w') = true /\ requests w' = [].
Proof.
pose proof (submit_routes_by_detection Examples.oracle (initial Examples.oracle)
              "  StepNo: 1 submit the checkout form  " eq_refl) as H.
cbv zeta in *.
change (RegExp.isTestCase "  StepNo: 1 submit the checkout form  ") with true in H.
destruct H as (S & R & _); [discriminate |].
split; [exact S | exact R].
Defined.


End SubmitExamples.

(** ** The earlier client and the mock route together *)

Section EarlierClientFacts.

Import EarlierChatApi.

Variable St : Type.

(** X25: the earlier client behind the mock route.  When the route
    serves the client's request and the client reads the route's answer,
    the model is asked once, with the user's message as typed.  If the
    endpoint's response has a JSON body, whatever its status, the client
    returns an object whose reply is the text extracted from it, without
    an error.  Otherwise the client returns its apology with the error
    [HTTP error! status: 500]: the route's own error text never reaches
    the caller. *)
Theorem earlier_client_through_route (message : string) (upstream : Http.FetchResult)
    (served : MockRoute.RouteResponse) (response : Http.Response) :
  let route := MockRoute.POST (St := St) (inr (VObject (body (request message)))) in
  resultOf route (fun _ => upstream) = inr served ->
  Http.status response = MockRoute.status served ->
  Http.json response = inr (VObject (MockRoute.payload served)) ->
  (exists errorText, Http.text response = inr errorText) ->
  requestsMade route (fun _ => upstream) = [ChatApi.chatRequest (VString message)]
  /\ sendChatMessage message (Http.Fulfilled response)
     = match upstream with
       | Http.Fulfilled answer =>
           match Http.json answer with
           | inr data => VObject [("reply", MockRoute.extractReply data)]
           | inl _ => failure (ErrorObject "HTTP error! status: 500")
           end
       | Http.Rejected _ => failure (ErrorObject "HTTP error! status: 500")
       end.
Proof.
intros route Hserved Hstatus Hjson [errorText Htext]. subst route.
assert (M : getNamed (VObject (body (request message))) "message" = VString message)
  by reflexivity.
revert Hserved.
unfold MockRoute.POST, MockRoute.destructureMessage, fetch.
cbn [settled bind tryCatch resultOf requestsMade nullish]. rewrite M.
unfold sendChatMessage, attempt, Http.ok. rewrite Hstatus, Hjson, Htext.
destruct upstream as [answer | e]; cbn [settled bind tryCatch resultOf requestsMade].
- destruct (Http.json answer) as [e | data];
    cbn [settled bind tryCatch resultOf requestsMade];
    intros [= <-]; split; reflexivity.
- intros [= <-]. split; reflexivity.
Qed.

End EarlierClientFacts.

Section EarlierClientExamples.

Import EarlierChatApi.

(** X25 at an endpoint that answers 404 with a JSON error object. *)
Lemma earlier_client_through_route_witness :
  sendChatMessage "Which log formats can you read?"
    (Http.Fulfilled MoreExamples.routeAnswerReceived)
  = VObject [("reply", VString "No reply from model")].
Proof.
exact (proj2 (earlier_client_through_route unit "Which log formats can you read?"
                MoreExamples.modelNotFound MoreExamples.routeAnswer
                MoreExamples.routeAnswerReceived
                eq_refl eq_refl eq_refl (ex_intro _ _ eq_refl))).
Defined.

End EarlierClientExamples.

(** ** The confirmation form while it is filled in *)

Section ConfirmationFormFacts.

Import EpsConfirmation ConfirmationForm.

Lemma form_run_snoc (events : list Event) (ev : Event) (f : Form) :
  ConfirmationForm.run (events ++ [ev]) f = fst (step (ConfirmationForm.run events f) ev).
Proof.
unfold ConfirmationForm.run. rewrite fold_left_app. reflexivity.
Qed.

Lemma lastEdit_snoc (events : list Event) (ev : Event) (fallback : string) :
  lastEdit (events ++ [ev]) fallback
  = match ev with Edit value => value | _ => lastEdit events fallback end.
Proof.
unfold lastEdit. rewrite fold_left_app. reflexivity.
Qed.

Lemma in_removed {A : Type} (n : nat) (l : list A) (x : A) :
  In x (firstn n l ++ skipn (S n) l)%list -> In x l.
Proof.
intros H. apply in_app_or in H. destruct H as [H | H].
- rewrite <- (firstn_skipn n l). apply in_or_app. now left.
- rewrite <- (firstn_skipn (S n) l). apply in_or_app. now right.
Qed.

(** X26: the file fields of the form always belong together.  After any
    sequence of events on the mounted form, in whatever order the reads
    finish, the file name and the log content are both empty as at the
    start, or they are the name and the text of one and the same chosen
    file.  Reads never touch the test case, which is the text of the last
    edit; the timestamp stays the time the form was mounted; and only
    chosen files are being read.  In any state of the form, a read that
    fails leaves all four fields as they were and shows one alert naming
    the file; a read that succeeds sets the name and the content to those
    of the file read, in one update, and leaves the other two fields. *)
Theorem form_fields_belong_together (now : Z) (events : list Event) :
  let d := formData (ConfirmationForm.run events (mounted now)) in
  ((pathToFile d = EmptyString /\ epsLogContent d = EmptyString)
   \/ (exists file,
         In (Choose (Some file)) events
         /\ pathToFile d = name file /\ epsLogContent d = text file))
  /\ testCaseContent d = lastEdit events EmptyString
  /\ timestamp d = now
  /\ Forall (fun file => In (Choose (Some file)) events)
       (reading (ConfirmationForm.run events (mounted now)))
  /\ (forall f n,
        formData (fst (step f (ReadSettles n Failed))) = formData f
        /\ forall file,
             nth_error (reading f) n = Some file ->
             alerts (fst (step f (ReadSettles n Failed)))
             = (alerts f ++ [("Failed to read file: " ++ name file
                              ++ ". Please ensure it is a valid text-based file.")%string])%list)
  /\ (forall f n file,
        nth_error (reading f) n = Some file ->
        formData (fst (step f (ReadSettles n Loaded)))
        = {| pathToFile := name file;
             epsLogContent := text file;
             testCaseContent := testCaseContent (formData f);
             timestamp := timestamp (formData f) |}
        /\ alerts (fst (step f (ReadSettles n Loaded))) = alerts f).
Proof.
cbv zeta.
assert (Reads : (forall f n,
        formData (fst (step f (ReadSettles n Failed))) = formData f
        /\ forall file,
             nth_error (reading f) n = Some file ->
             alerts (fst (step f (ReadSettles n Failed)))
             = (alerts f ++ [("Failed to read file: " ++ name file
                              ++ ". Please ensure it is a valid text-based file.")%string])%list)
  /\ (forall f n file,
        nth_error (reading f) n = Some file ->
        formData (fst (step f (ReadSettles n Loaded)))
        = {| pathToFile := name file;
             epsLogContent := text file;
             testCaseContent := testCaseContent (formData f);
             timestamp := timestamp (formData f) |}
        /\ alerts (fst (step f (ReadSettles n Loaded))) = alerts f)).
{ split.
  - intros f n. cbn [step]. split.
    + destruct (nth_error (reading f) n); reflexivity.
    + intros file ->. reflexivity.
  - intros f n file H. cbn [step]. rewrite H. split; reflexivity. }
cut ((let d := formData (ConfirmationForm.run events (mounted now)) in
      ((pathToFile d = EmptyString /\ epsLogContent d = EmptyString)
       \/ (exists file,
             In (Choose (Some file)) events
             /\ pathToFile d = name file /\ epsLogContent d = text file))
      /\ testCaseContent d = lastEdit events EmptyString
      /\ timestamp d = now
      /\ Forall (fun file => In (Choose (Some file)) events)
           (reading (ConfirmationForm.run events (mounted now))))).
{ cbv zeta. intros (A & B & C & D). destruct Reads as [R1 R2].
  split; [exact A |]. split; [exact B |]. split; [exact C |]. split; [exact D |].
  split; [exact R1 | exact R2]. }
clear Reads. cbv zeta.
induction events as [|ev events IH] using rev_ind.
- cbn. repeat split; auto.
- rewrite form_run_snoc, lastEdit_snoc.
  destruct IH as (F & T & Ts & R).
  assert (F' : (pathToFile (formData (ConfirmationForm.run events (mounted now))) = EmptyString
                /\ epsLogContent (formData (ConfirmationForm.run events (mounted now)))
                   = EmptyString)
               \/ (exists file,
                     In (Choose (Some file)) (events ++ [ev])
                     /\ pathToFile (formData (ConfirmationForm.run events (mounted now)))
                        = name file
                     /\ epsLogContent (formData (ConfirmationForm.run events (mounted now)))
                        = text file)).
  { destruct F as [F | (file & I & E)]; [now left | right].
    exists file. split; [apply in_or_app; now left | exact E]. }
  assert (R' : Forall (fun file => In (Choose (Some file)) (events ++ [ev]))
                 (reading (ConfirmationForm.run events (mounted now)))).
  { apply Forall_forall. intros file I. apply in_or_app. left.
    exact (proj1 (Forall_forall _ _) R file I). }
  clear F R. destruct (ConfirmationForm.run events (mounted now)) as [d rd al].
  cbn [formData reading] in *.
  destruct ev as [[chosen |] | n outcome | value |]; cbn [step fst handleFileChange
    handleTestCaseChange formData reading pathToFile epsLogContent testCaseContent timestamp].
  + repeat split; auto. apply Forall_app. split; [exact R' |].
    constructor; [| constructor]. apply in_or_app. right. now left.
  + repeat split; auto.
  + destruct (nth_error rd n) as [file |] eqn:N;
      [| cbn [fst formData reading]; repeat split; auto].
    assert (Chosen : In (Choose (Some file)) (events ++ [ReadSettles n outcome]))
      by exact (proj1 (Forall_forall _ _) R' file (nth_error_In _ _ N)).
    assert (Rest : Forall (fun file => In (Choose (Some file))
                                          (events ++ [ReadSettles n outcome]))
                     (firstn n rd ++ skipn (S n) rd)%list).
    { apply Forall_forall. intros x I.
      exact (proj1 (Forall_forall _ _) R' x (in_removed _ _ _ I)). }
    destruct outcome;
      cbn [fst fileRead readFileAsText formData reading pathToFile epsLogContent
           testCaseContent timestamp].
    * split; [| repeat split; auto].
      right. exists file. split; [exact Chosen | split; reflexivity].
    * repeat split; auto.
  + repeat split; auto.
  + destruct (startDisabled d); [cbn [fst formData reading]; repeat split; auto |].
    destruct (handleSubmit d); cbn [fst formData reading]; repeat split; auto.
Qed.

(** X27: the start button and [handleSubmit] check almost the same
    thing.  Whenever [handleSubmit] would accept the form, the button is
    enabled.  When the button is enabled, [handleSubmit] accepts unless
    the file name consists of white space only, and then it shows the
    first alert.  The second alert, about the test case, can never be
    shown: with a blank test case the button is disabled. *)
Theorem start_button_and_handleSubmit (d : FormData) :
  (forall data, handleSubmit d = inr data -> startDisabled d = false)
  /\ (startDisabled d = false ->
      (blank (pathToFile d) = false
       /\ exists data, handleSubmit d = inr data
                       /\ EpsConfirmationData.pathToFile data = pathToFile d
                       /\ EpsConfirmationData.epsLogContent data = epsLogContent d
                       /\ EpsConfirmationData.testCaseContent data = testCaseContent d)
      \/ (blank (pathToFile d) = true /\ pathToFile d <> EmptyString
          /\ handleSubmit d = inl "Please select a valid EPS log file to process"))
  /\ (forall f, snd (step f Start) = None ->
        alerts (fst (step f Start)) = alerts f
        \/ alerts (fst (step f Start))
           = (alerts f ++ ["Please select a valid EPS log file to process"])%list).
Proof.
assert (Enabled : startDisabled d = false ->
          pathToFile d <> EmptyString /\ blank (epsLogContent d) = false
          /\ blank (testCaseContent d) = false).
{ unfold startDisabled. intros H.
  apply orb_false_iff in H. destruct H as [H T].
  apply orb_false_iff in H. destruct H as [P L].
  apply String.eqb_neq in P. auto. }
split; [| split].
- intros data. unfold handleSubmit, startDisabled.
  destruct (blank (pathToFile d)) eqn:P; cbn [orb]; [discriminate |].
  destruct (blank (epsLogContent d)); cbn [orb]; [discriminate |].
  destruct (blank (testCaseContent d)); [discriminate |]. intros _.
  rewrite !orb_false_r. apply String.eqb_neq. intros E.
  rewrite E in P. discriminate.
- intros H. destruct (Enabled H) as (P & L & T). unfold handleSubmit. rewrite L, T.
  destruct (blank (pathToFile d)); cbn [orb].
  + right. auto.
  + left. split; [reflexivity |]. eexists. repeat split.
- intros f. cbn [step].
  destruct (startDisabled (formData f)) eqn:D; cbn [fst snd alerts]; [now left |].
  clear Enabled. destruct f as [fd rd al]. cbn [formData alerts reading] in *.
  unfold handleSubmit.
  assert (T : blank (testCaseContent fd) = false).
  { unfold startDisabled in D. apply orb_false_iff in D. tauto. }
  rewrite T.
  destruct (blank (pathToFile fd) || blank (epsLogContent fd));
    cbn [fst snd alerts]; [now right | discriminate].
Qed.

End ConfirmationFormFacts.

Section ConfirmationFormExamples.

Import EpsConfirmation ConfirmationForm.

(** X26 at two reads that finish in the opposite order. *)
Lemma form_fields_belong_together_witness :
  let d := formData (ConfirmationForm.run MoreExamples.fillingIn (mounted 1700000000000)) in
  testCaseContent d = "StepNo: 1 submit the checkout form"
  /\ timestamp d = 1700000000000.
Proof.
destruct (form_fields_belong_together 1700000000000 MoreExamples.fillingIn)
  as (_ & T & Ts & _).
split; [exact T | exact Ts].
Defined.

(** X27 at a file whose name is one blank. *)
Lemma start_button_and_handleSubmit_witness :
  startDisabled MoreExamples.blankNameForm = false
  /\ handleSubmit MoreExamples.blankNameForm
     = inl "Please select a valid EPS log file to process".
Proof.
split; [reflexivity |].
destruct (proj1 (proj2 (start_button_and_handleSubmit MoreExamples.blankNameForm)) eq_refl)
  as [(B & _) | (_ & _ & H)]; [discriminate B | exact H].
Defined.

End ConfirmationFormExamples.
